(** * Mephisto core: TaskLauncher and Supervisor

    A shallow embedding of [mephisto/core/task_launcher.py] and
    [mephisto/core/supervisor.py].  Python lists are Rocq lists indexed with
    stdpp's lookup, dictionaries are [gmap]s, objects that are shared between
    several containers live in an explicit store, and a Python exception is a
    value of [Exception] returned next to the state reached when it was
    raised (an exception does not undo the mutations made before it). *)

From Stdlib Require Import ZArith.
From stdpp Require Import ssreflect gmap strings list fin_maps.

Set Warnings "-rewrite-rw,-clear-no-such-hyp,-register-all".

Open Scope string_scope.
Open Scope nat_scope.
Open Scope list_scope.
Open Scope stdpp_scope.

(** The Python exceptions the modelled code can raise.  The last two are not
    Python's: [DanglingReference] is raised when the model reads through an
    address that is not in its store, and [OutOfFuel] when a modelled
    [while] loop has tested its condition as often as its bound allows. *)
Inductive Exception :=
| IndexError
| KeyError (key : string)
| TypeError
| DanglingReference
| OutOfFuel.

(** A [Unit] handle, as the core uses it: its [db_id]. *)
Record Unit := mkUnit { db_id : string }.

#[global] Instance Unit_eq_dec : EqDecision Unit.
Proof. solve_decision. Defined.

(* ===================================================================== *)
(** * TaskLauncher *)
(* ===================================================================== *)

Module TaskLauncher.

(** Modelled from the spec: [AssignmentState] is declared in
    [mephisto.data_model.assignment], which is not among the sources; the
    launcher only compares a unit's status with [LAUNCHED] and [ASSIGNED]. *)
Inductive AssignmentState :=
| CREATED | LAUNCHED | ASSIGNED | COMPLETED | ACCEPTED | MIXED | REJECTED | EXPIRED.

#[global] Instance AssignmentState_eq_dec : EqDecision AssignmentState.
Proof. solve_decision. Defined.

(** The fields of [TaskLauncher] that [generate_units] reads and writes. *)
Record TaskLauncher := mkTaskLauncher {
  max_num_concurrent_units : Z;
  launched_units : list Unit;
  unlaunched_units : list Unit
}.

(** Where the body of the generator [generate_units] stands.  The two [for]
    loops run over [range(n)], with [n] the length read when the loop was
    entered; [i] is the next index the loop will take. *)
Inductive Frame :=
| ReapLoop (i n : nat)
| LaunchLoop (i n : nat) (num_avail_units : Z)
| Returned
| Raised (e : Exception).

(** What one step of the generator does that the outside can see: a unit is
    popped from [launched_units] (with the status read for it), or a unit is
    yielded to the consumer. *)
Inductive Event :=
| Popped (unit : Unit) (status : AssignmentState)
| Yielded (unit : Unit).

Definition Generator : Type := TaskLauncher * Frame.

(** [time.sleep(10)], then [if not self.unlaunched_units: break]; otherwise
    the [while True] loop starts its next pass. *)
Definition end_of_pass (t : TaskLauncher) : Frame :=
  if bool_decide (unlaunched_units t = []) then Returned
  else ReapLoop 0 (length (launched_units t)).

(** One step of [generate_units]: one loop-header test followed, when the
    loop goes on, by one execution of the loop body.  [get_status] is what
    [unit.get_status()] answers at that moment. *)
Definition step (get_status : Unit → AssignmentState) (g : Generator)
  : Generator * list Event :=
  let '(t, frame) := g in
  match frame with
  | ReapLoop i n =>
      if decide (i < n)%nat then
        match launched_units t !! i with
        | None => ((t, Raised IndexError), [])
        | Some unit =>
            let status := get_status unit in
            if bool_decide (status ≠ LAUNCHED) && bool_decide (status ≠ ASSIGNED) then
              ((mkTaskLauncher (max_num_concurrent_units t)
                               (delete i (launched_units t))
                               (unlaunched_units t),
                ReapLoop (S i) n), [Popped unit status])
            else ((t, ReapLoop (S i) n), [])
        end
      else
        let num_avail_units :=
          (max_num_concurrent_units t - Z.of_nat (length (launched_units t)))%Z in
        ((t, LaunchLoop 0 (length (unlaunched_units t)) num_avail_units), [])
  | LaunchLoop i n num_avail_units =>
      if decide (i < n)%nat then
        if decide (Z.of_nat i < num_avail_units)%Z then
          match unlaunched_units t !! i with
          | None => ((t, Raised IndexError), [])
          | Some unit =>
              ((mkTaskLauncher (max_num_concurrent_units t)
                               (launched_units t ++ [unit])
                               (delete i (unlaunched_units t)),
                LaunchLoop (S i) n num_avail_units), [Yielded unit])
          end
        else ((t, end_of_pass t), [])
      else ((t, end_of_pass t), [])
  | Returned => ((t, Returned), [])
  | Raised e => ((t, Raised e), [])
  end.

(** The generator object a call of [generate_units] returns: nothing has run
    yet, and the first pass will enter its reap loop. *)
Definition generate_units (t : TaskLauncher) : Generator :=
  (t, ReapLoop 0 (length (launched_units t))).

(** An execution: the generator takes one step per element of [envs], each
    being the statuses of the units at that moment. *)
Fixpoint run (envs : list (Unit → AssignmentState)) (g : Generator)
  : Generator * list Event :=
  match envs with
  | [] => (g, [])
  | get_status :: envs' =>
      let '(g1, out1) := step get_status g in
      let '(g2, out2) := run envs' g1 in
      (g2, out1 ++ out2)
  end.

Definition yielded (out : list Event) : list Unit :=
  omap (λ e, match e with Yielded u => Some u | Popped _ _ => None end) out.

Definition popped (out : list Event) : list (Unit * AssignmentState) :=
  omap (λ e, match e with Popped u s => Some (u, s) | Yielded _ => None end) out.

(** [_launch_limited_units]: [unit.launch(url)] for every unit the generator
    yields, in the order of the yields. *)
Definition _launch_limited_units (url : string)
    (envs : list (Unit → AssignmentState)) (t : TaskLauncher)
  : list (Unit * string) :=
  (λ unit, (unit, url)) <$> yielded (run envs (generate_units t)).2.

Definition running (get_status : Unit → AssignmentState) (unit : Unit) : bool :=
  bool_decide (get_status unit = LAUNCHED) || bool_decide (get_status unit = ASSIGNED).

End TaskLauncher.

(* ===================================================================== *)
(** * Supervisor *)
(* ===================================================================== *)

Module Supervisor.

(** ** Packets *)

(** What a packet's [data] dictionary holds: JSON-like values.  [VOpaque]
    stands for a payload the supervisor only passes on (onboarding data). *)
Inductive Value :=
| VNone
| VBool (b : bool)
| VStr (s : string)
| VDict (d : gmap string Value)
| VOpaque (n : nat).

Record Packet := mkPacket {
  packet_type : string;
  sender_id : string;
  receiver_id : string;
  data : gmap string Value
}.

(** Modelled from the spec: the packet types are declared in
    [mephisto.data_model.packet], which is not among the sources; these are
    their names on the wire. *)
Definition PACKET_TYPE_PROVIDER_DETAILS : string := "provider_details".
Definition PACKET_TYPE_UPDATE_AGENT_STATUS : string := "update_agent_status".

Definition SYSTEM_CHANNEL_ID : string := "mephisto".

(** ** Agent statuses *)

(** The class [AgentState] of [mephisto.data_model.blueprint] is not among
    the sources: its status constants and its static methods [complete()]
    and [valid()] are taken as parameters. *)
Class AgentState := {
  STATUS_NONE : string;
  STATUS_ONBOARDING : string;
  STATUS_WAITING : string;
  STATUS_IN_TASK : string;
  STATUS_COMPLETED : string;
  STATUS_DISCONNECT : string;
  STATUS_TIMEOUT : string;
  STATUS_PARTNER_DISCONNECT : string;
  STATUS_EXPIRED : string;
  complete : list string;
  valid : list string
}.

(** [STATUS_TO_TEXT_MAP]: a dictionary display, so a later key would
    overwrite an equal earlier one. *)
Definition STATUS_TO_TEXT_MAP `{AgentState} : gmap string string :=
  <[STATUS_PARTNER_DISCONNECT :=
      "One of your partners has disconnected while working on this task. We won't penalize you for them leaving, so please submit this task as is."]>
  (<[STATUS_DISCONNECT :=
      "You have disconnected from our server during the duration of the task. If you have done substantial work, please reach out to see if we can recover it. "]>
  (<[STATUS_TIMEOUT :=
      "You took to long to respond to this task, and have timed out. The task is no longer available, please return it."]>
  (<[STATUS_EXPIRED :=
      "This task is no longer available to be completed. Please return it and try a different task"]>
   ∅))).

(** ** State storage *)

(** Modelled from the spec: [Agent] and [OnboardingAgent]
    ([mephisto.data_model.agent], not among the sources) are mailboxes with
    a status and event flags.  [agent_id] is what [get_agent_id()] returns
    (for an [Agent], its [db_id]). *)
Record Agent := mkAgent {
  agent_id : string;
  db_status : string;
  has_updated_status : bool;
  pending_observations : list Packet
}.

Definition get_agent_id (agent : Agent) : string := agent_id agent.
Definition get_status (agent : Agent) : string := db_status agent.

Record Assignment := mkAssignment { assignment_db_id : string }.

(** [AgentInfo] objects sit in several places at once ([agents],
    [agents_by_registration_id], the arguments of a thread) and are mutated
    in place: they are kept in a store and referred to by their address. *)
Definition ref := nat.

(** A [threading.Thread]: its target with its arguments, and its name. *)
Inductive Thread :=
| UnitThread (unit : Unit) (agent_info : ref) (name : string)
| AssignmentThread (assignment : Assignment) (agent_infos : list ref) (name : string)
| OnboardThread (agent_info : ref) (name : string).

Record AgentInfo := mkAgentInfo {
  agent : Agent;
  used_channel_id : string;
  assignment_thread : option Thread
}.

(** The parts of a [TaskRunner], a [Job] and a [ChannelInfo] the handlers
    read; [task_run] and [provider] name the collaborator objects. *)
Record TaskRunner := mkTaskRunner { is_concurrent : bool; task_run : string }.
Record Job := mkJob { task_runner : TaskRunner; provider : string }.
Record ChannelInfo := mkChannelInfo { channel_id : string; job : Job }.

(** What [task_run.get_blueprint] returns, as [_register_agent] looks at it:
    whether it is an [OnboardingRequired], and its two attributes. *)
Record Blueprint := mkBlueprint {
  is_OnboardingRequired : bool;
  use_onboarding : bool;
  onboarding_qualification_name : string
}.

(** What [print] is given. *)
Inductive Line :=
| Invalid_status (agent_id status : string)
| Got_updated_status_when_already_final (status db_status : string)
| Failed_to_send_packet (curr_obs : Packet) (channel_id : string).

(** ** The trace *)

(** Every call into a collaborator, with its answer, in program order; and,
    so that the order of the supervisor's own writes relative to those calls
    can be stated, the writes to its two indexes and to [message_queue]. *)
Inductive Event :=
| ReserveUnit (task_run : string) (unit : Unit) (answer : option Unit)
| ClearReservation (task_run : string) (unit : Unit)
| NewFromProviderData (provider : string) (worker_id : Value) (unit : Unit)
    (crowd_data : gmap string Value) (answer : Agent)
| GetValidUnitsForWorker (task_run : string) (worker_id : Value) (answer : list Unit)
| GetBlueprint (task_run : string) (answer : Blueprint)
| IsDisqualified (worker_id : Value) (name : string) (answer : bool)
| IsQualified (worker_id : Value) (name : string) (answer : bool)
| GetOnboardingData (task_run : string) (worker_id : Value) (answer : Value)
| OnboardingAgentNew (worker_id : Value) (task_run : string) (answer : Agent)
| SetInitState (agent_id : string) (onboard_data : Value)
| GetAssignment (unit : Unit) (answer : Assignment)
| GetAgents (assignment : Assignment) (answer : list (option string))
| Send (channel_id : string) (packet : Packet) (answer : bool)
| ThreadStart (thread : Thread)
| UpdateStatus (agent_id : string) (status : string)
| Print (line : Line)
| SetAgents (key : string) (agent_info : ref)
| SetAgentsByRegistrationId (key : string) (agent_info : ref)
| Append (packet : Packet).

(** The collaborators ([TaskRun], [CrowdProvider], [Worker], [Blueprint],
    [Unit], [Assignment], [Channel]) are outside the core.  Each answers
    as a function of everything that has happened so far. *)
Class Collaborators := {
  reserve_unit : list Event → string → Unit → option Unit;
  new_from_provider_data :
    list Event → string → Value → Unit → gmap string Value → Agent;
  get_valid_units_for_worker : list Event → string → Value → list Unit;
  get_blueprint : list Event → string → Blueprint;
  is_disqualified : list Event → Value → string → bool;
  is_qualified : list Event → Value → string → bool;
  get_onboarding_data : list Event → string → Value → Value;
  OnboardingAgent_new : list Event → Value → string → Agent;
  get_assignment : list Event → Unit → Assignment;
  get_agents : list Event → Assignment → list (option string);
  send : list Event → string → Packet → bool
}.

(** The supervisor's tracked state, the store of its [AgentInfo] objects and
    the trace. *)
Record Supervisor := mkSupervisor {
  store : gmap ref AgentInfo;
  agents : gmap string ref;
  agents_by_registration_id : gmap string ref;
  channels : gmap string ChannelInfo;
  onboarding_packets : gmap string Packet;
  message_queue : list Packet;
  trace : list Event
}.

(** ** Statements *)

Inductive Outcome (A : Type) :=
| Return (a : A)
| Raise (e : Exception).
Arguments Return {A} a.
Arguments Raise {A} e.

(** A statement runs on a supervisor and ends normally or by raising; either
    way the supervisor it leaves is the one its mutations produced. *)
Definition M (A : Type) : Type := Supervisor → Outcome A * Supervisor.

#[global] Instance M_ret : MRet M := λ A a self, (Return a, self).

#[global] Instance M_bind : MBind M := λ A B k m self,
  match m self with
  | (Return a, self') => k a self'
  | (Raise e, self') => (Raise e, self')
  end.

Definition raise {A} (e : Exception) : M A := λ self, (Raise e, self).

Definition get {A} (field : Supervisor → A) : M A := λ self, (Return (field self), self).

Definition modify (f : Supervisor → Supervisor) : M () := λ self, (Return (), f self).

Definition log (e : Event) : M () :=
  modify (λ self, mkSupervisor (store self) (agents self) (agents_by_registration_id self)
                    (channels self) (onboarding_packets self) (message_queue self)
                    (trace self ++ [e])).

(** A call into a collaborator: its answer, given the trace so far, is
    recorded in the trace. *)
Definition call {A} (answer : list Event → A) (event : A → Event) : M A :=
  a ← get (λ self, answer (trace self)); log (event a);; mret a.

Definition set_store (f : gmap ref AgentInfo → gmap ref AgentInfo) : M () :=
  modify (λ self, mkSupervisor (f (store self)) (agents self) (agents_by_registration_id self)
                    (channels self) (onboarding_packets self) (message_queue self)
                    (trace self)).

(** [d[key]] *)
Definition getitem {V} (d : gmap string V) (key : string) : M V :=
  match d !! key with
  | Some v => mret v
  | None => raise (KeyError key)
  end.

(** Subscripting a value that is not a dictionary raises [TypeError]. *)
Definition as_dict (v : Value) : M (gmap string Value) :=
  match v with
  | VDict d => mret d
  | _ => raise TypeError
  end.

(** The keys of the supervisor's indexes are strings
    ([Dict[str, AgentInfo]]); another value used as a key is outside the
    model and is made to raise. *)
Definition as_str (v : Value) : M string :=
  match v with
  | VStr s => mret s
  | _ => raise TypeError
  end.

(** Reading through a reference.  Python references never dangle; a
    supervisor whose indexes hold an address outside the store is not one
    the code can build, and reading through it is made to raise. *)
Definition deref (r : ref) : M AgentInfo :=
  st ← get store;
  match st !! r with
  | Some info => mret info
  | None => raise DanglingReference
  end.

(** [AgentInfo(agent=..., used_channel_id=...)]: a new object. *)
Definition new_AgentInfo (agent : Agent) (used_channel_id : string) : M ref :=
  st ← get store;
  let r := fresh (dom st) in
  set_store (insert r (mkAgentInfo agent used_channel_id None));;
  mret r.

(** [self.agents[key] = agent_info] *)
Definition set_agents (key : string) (agent_info : ref) : M () :=
  modify (λ self, mkSupervisor (store self) (<[key := agent_info]> (agents self))
                    (agents_by_registration_id self) (channels self)
                    (onboarding_packets self) (message_queue self) (trace self));;
  log (SetAgents key agent_info).

(** [self.agents_by_registration_id[key] = agent_info] *)
Definition set_agents_by_registration_id (key : string) (agent_info : ref) : M () :=
  modify (λ self, mkSupervisor (store self) (agents self)
                    (<[key := agent_info]> (agents_by_registration_id self)) (channels self)
                    (onboarding_packets self) (message_queue self) (trace self));;
  log (SetAgentsByRegistrationId key agent_info).

(** [self.onboarding_packets[key] = packet] *)
Definition set_onboarding_packets (key : string) (packet : Packet) : M () :=
  modify (λ self, mkSupervisor (store self) (agents self) (agents_by_registration_id self)
                    (channels self) (<[key := packet]> (onboarding_packets self))
                    (message_queue self) (trace self)).

Definition set_message_queue (f : list Packet → list Packet) : M () :=
  modify (λ self, mkSupervisor (store self) (agents self) (agents_by_registration_id self)
                    (channels self) (onboarding_packets self) (f (message_queue self))
                    (trace self)).

(** [self.message_queue.append(packet)] *)
Definition message_queue_append (packet : Packet) : M () :=
  set_message_queue (λ q, q ++ [packet]);; log (Append packet).

(** [agent_info.used_channel_id = channel_id] *)
Definition set_used_channel_id (agent_info : ref) (channel_id : string) : M () :=
  info ← deref agent_info;
  set_store (insert agent_info (mkAgentInfo (agent info) channel_id (assignment_thread info))).

(** [agent_info.assignment_thread = thread] *)
Definition set_assignment_thread (agent_info : ref) (thread : Thread) : M () :=
  info ← deref agent_info;
  set_store (insert agent_info (mkAgentInfo (agent info) (used_channel_id info) (Some thread))).

(** [agent_info.agent.pending_observations = q] (the effect of a [pop(0)] or
    of an [insert(0, _)], which the callers spell out). *)
Definition set_pending_observations (agent_info : ref) (f : list Packet → list Packet)
  : M () :=
  info ← deref agent_info;
  let a := agent info in
  set_store (insert agent_info
    (mkAgentInfo (mkAgent (agent_id a) (db_status a) (has_updated_status a)
                          (f (pending_observations a)))
                 (used_channel_id info) (assignment_thread info))).

(** Modelled from the spec: [agent_info.agent.update_status(status)] stores
    the status on the agent and raises its [has_updated_status] flag, which
    makes the control loop push the status to the worker. *)
Definition update_status (agent_info : ref) (status : string) : M () :=
  info ← deref agent_info;
  let a := agent info in
  set_store (insert agent_info
    (mkAgentInfo (mkAgent (agent_id a) status true (pending_observations a))
                 (used_channel_id info) (assignment_thread info)));;
  log (UpdateStatus (get_agent_id a) status).

Definition thread_start (thread : Thread) : M () := log (ThreadStart thread).

Definition print (line : Line) : M () := log (Print line).

(** A [for] loop, or a list comprehension, over a list. *)
Fixpoint for_each {A B} (body : A → M B) (l : list A) : M (list B) :=
  match l with
  | [] => mret []
  | x :: l' => y ← body x; ys ← for_each body l'; mret (y :: ys)
  end.

(** ** The handlers *)

Section handlers.
Context `{AgentState} `{Collaborators}.

(** [_send_status_update] *)
Definition _send_status_update (agent_info : ref) : M () :=
  info ← deref agent_info;
  let send_packet :=
    mkPacket PACKET_TYPE_UPDATE_AGENT_STATUS SYSTEM_CHANNEL_ID
      (get_agent_id (agent info))
      {[ "status" := VStr (db_status (agent info));
         "state" := VDict
           {[ "done_text" :=
                from_option VStr VNone (STATUS_TO_TEXT_MAP !! db_status (agent info));
              "task_done" :=
                VBool (bool_decide (db_status (agent info) = STATUS_PARTNER_DISCONNECT)) ]} ]} in
  chans ← get channels;
  channel_info ← getitem chans (used_channel_id info);
  call (λ tr, send tr (channel_id channel_info) send_packet)
       (Send (channel_id channel_info) send_packet);;
  mret ().

(** [_mark_agent_done] *)
Definition _mark_agent_done (agent_info : ref) : M () :=
  info ← deref agent_info;
  if bool_decide (db_status (agent info) ∈ complete ++ [STATUS_PARTNER_DISCONNECT]) then
    mret ()
  else
    let send_packet :=
      mkPacket PACKET_TYPE_UPDATE_AGENT_STATUS SYSTEM_CHANNEL_ID
        (get_agent_id (agent info))
        {[ "status" := VStr "completed";
           "state" := VDict
             {[ "done_text" := VStr "You have completed this task. Please submit.";
                "task_done" := VBool true ]} ]} in
    chans ← get channels;
    channel_info ← getitem chans (used_channel_id info);
    call (λ tr, send tr (channel_id channel_info) send_packet)
         (Send (channel_id channel_info) send_packet);;
    mret ().

(** The body of the loop of [_handle_updated_agent_status], for one item of
    [status_map]; each [continue] ends the body. *)
Definition handle_one_status (item : string * string) : M () :=
  let '(agent_id, status) := item in
  if bool_decide (status ∉ valid) then
    print (Invalid_status agent_id status)
  else
    index ← get agents;
    match index !! agent_id with
    | None => mret ()
    | Some agent_info =>
        info ← deref agent_info;
        let db_status := get_status (agent info) in
        if has_updated_status (agent info) then mret ()
        else if bool_decide (status = STATUS_NONE) then
          _send_status_update agent_info
        else if bool_decide (status ≠ db_status) then
          if bool_decide (db_status ∈ complete) then
            print (Got_updated_status_when_already_final status (Supervisor.db_status (agent info)))
          else if bool_decide (status = STATUS_COMPLETED) then mret ()
          else update_status agent_info status
        else mret ()
    end.

(** [_handle_updated_agent_status]; [status_map] is given by its items, in
    the order the dictionary yields them. *)
Definition _handle_updated_agent_status (status_map : list (string * string)) : M () :=
  for_each handle_one_status status_map;; mret ().

(** The [while] loop of [_try_send_agent_messages]; [fuel] bounds the number
    of tests of its condition. *)
Fixpoint try_send_loop (fuel : nat) (agent_info : ref) (channel_info : ChannelInfo)
  : M () :=
  match fuel with
  | 0 => raise OutOfFuel
  | S fuel' =>
      info ← deref agent_info;
      match pending_observations (agent info) with
      | [] => mret ()
      | curr_obs :: rest =>
          set_pending_observations agent_info (λ _, rest);;
          did_send ← call (λ tr, send tr (channel_id channel_info) curr_obs)
                          (Send (channel_id channel_info) curr_obs);
          if negb did_send then
            print (Failed_to_send_packet curr_obs (channel_id channel_info));;
            set_pending_observations agent_info (λ q, curr_obs :: q)
          else try_send_loop fuel' agent_info channel_info
      end
  end.

(** [_try_send_agent_messages].  The loop pops a packet each time it goes
    round, so it tests its condition at most once per queued packet and once
    more. *)
Definition _try_send_agent_messages (agent_info : ref) : M () :=
  info ← deref agent_info;
  chans ← get channels;
  channel_info ← getitem chans (used_channel_id info);
  try_send_loop (S (length (pending_observations (agent info)))) agent_info channel_info.

(** The [while] loop of [_send_message_queue], bounded in the same way. *)
Fixpoint send_queue_loop (fuel : nat) : M () :=
  match fuel with
  | 0 => raise OutOfFuel
  | S fuel' =>
      q ← get message_queue;
      match q with
      | [] => mret ()
      | curr_obs :: rest =>
          set_message_queue (λ _, rest);;
          chans ← get channels;
          channel_info ← getitem chans (receiver_id curr_obs);
          did_send ← call (λ tr, send tr (channel_id channel_info) curr_obs)
                          (Send (channel_id channel_info) curr_obs);
          if negb did_send then
            print (Failed_to_send_packet curr_obs (receiver_id curr_obs));;
            set_message_queue (λ q, curr_obs :: q)
          else send_queue_loop fuel'
      end
  end.

(** [_send_message_queue] *)
Definition _send_message_queue : M () :=
  q ← get message_queue;
  send_queue_loop (S (length q)).

(** The [while] loop of [_assign_unit_to_agent]: units are popped from the
    front of [units] and reserved until one reservation succeeds.  The
    result is the value of the variable [unit] when [reserved_unit] is not
    [None]; it is [unit], not [reserved_unit], that the rest of the function
    uses. *)
Fixpoint reserve_first (task_run : string) (units : list Unit) : M (option Unit) :=
  match units with
  | [] => mret None
  | unit :: units' =>
      reserved_unit ← call (λ tr, reserve_unit tr task_run unit) (ReserveUnit task_run unit);
      match reserved_unit with
      | Some _ => mret (Some unit)
      | None => reserve_first task_run units'
      end
  end.

(** The end of [_assign_unit_to_agent], under [# Launch individual tasks]. *)
Definition launch_individual_tasks (channel_info : ChannelInfo) (unit : Unit)
    (agent_info : ref) : M () :=
  if negb (is_concurrent (task_runner (job channel_info))) then
    let unit_thread := UnitThread unit agent_info ("Unit-thread-" +:+ db_id unit) in
    set_assignment_thread agent_info unit_thread;;
    thread_start unit_thread
  else
    assignment ← call (λ tr, get_assignment tr unit) (GetAssignment unit);
    slots ← call (λ tr, get_agents tr assignment) (GetAgents assignment);
    if bool_decide (None ∈ slots) then
      update_status agent_info STATUS_WAITING
    else
      agent_infos ← for_each (λ a, index ← get agents; getitem index a) (omap id slots);
      let assign_thread :=
        AssignmentThread assignment agent_infos
          ("Assignment-thread-" +:+ assignment_db_id assignment) in
      for_each (λ agent_info,
                  update_status agent_info STATUS_IN_TASK;;
                  set_assignment_thread agent_info assign_thread) agent_infos;;
      thread_start assign_thread.

(** [_assign_unit_to_agent] *)
Definition _assign_unit_to_agent (packet : Packet) (channel_info : ChannelInfo)
    (units : list Unit) : M () :=
  crowd_data ← getitem (data packet) "provider_data" ≫= as_dict;
  let task_run := task_run (task_runner (job channel_info)) in
  let crowd_provider := provider (job channel_info) in
  worker_id ← getitem crowd_data "worker_id";
  reserved ← reserve_first task_run units;
  match reserved with
  | None =>
      request_id ← getitem (data packet) "request_id";
      message_queue_append
        (mkPacket PACKET_TYPE_PROVIDER_DETAILS SYSTEM_CHANNEL_ID (channel_id channel_info)
                  {[ "request_id" := request_id; "agent_id" := VNone ]})
  | Some unit =>
      agent ← call (λ tr, new_from_provider_data tr crowd_provider worker_id unit crowd_data)
                   (NewFromProviderData crowd_provider worker_id unit crowd_data);
      request_id ← getitem (data packet) "request_id";
      message_queue_append
        (mkPacket PACKET_TYPE_PROVIDER_DETAILS SYSTEM_CHANNEL_ID (channel_id channel_info)
                  {[ "request_id" := request_id; "agent_id" := VStr (get_agent_id agent) ]});;
      agent_info ← new_AgentInfo agent (channel_id channel_info);
      set_agents (get_agent_id agent) agent_info;;
      agent_registration_id ← getitem crowd_data "agent_registration_id" ≫= as_str;
      set_agents_by_registration_id agent_registration_id agent_info;;
      log (ClearReservation task_run unit);;
      launch_individual_tasks channel_info unit agent_info
  end.

(** [_register_agent] *)
Definition _register_agent (packet : Packet) (channel_info : ChannelInfo) : M () :=
  crowd_data ← getitem (data packet) "provider_data" ≫= as_dict;
  agent_registration_id ← getitem crowd_data "agent_registration_id" ≫= as_str;
  by_registration_id ← get agents_by_registration_id;
  match by_registration_id !! agent_registration_id with
  | Some known =>
      info ← deref known;
      let agent := agent info in
      index ← get agents;
      agent_info ← getitem index (get_agent_id agent);
      set_used_channel_id agent_info (channel_id channel_info);;
      request_id ← getitem (data packet) "request_id";
      message_queue_append
        (mkPacket PACKET_TYPE_PROVIDER_DETAILS SYSTEM_CHANNEL_ID (channel_id channel_info)
                  {[ "request_id" := request_id; "agent_id" := VStr (get_agent_id agent) ]})
  | None =>
      let task_runner := task_runner (job channel_info) in
      let task_run := task_run task_runner in
      worker_id ← getitem crowd_data "worker_id";
      units ← call (λ tr, get_valid_units_for_worker tr task_run worker_id)
                   (GetValidUnitsForWorker task_run worker_id);
      (if bool_decide (length units = 0) then
         request_id ← getitem (data packet) "request_id";
         message_queue_append
           (mkPacket PACKET_TYPE_PROVIDER_DETAILS SYSTEM_CHANNEL_ID (channel_id channel_info)
                     {[ "request_id" := request_id; "agent_id" := VNone ]})
       else mret ());;
      worker_id ← getitem crowd_data "worker_id";
      blueprint ← call (λ tr, get_blueprint tr task_run) (GetBlueprint task_run);
      if is_OnboardingRequired blueprint && use_onboarding blueprint then
        disqualified ← call (λ tr, is_disqualified tr worker_id
                                     (onboarding_qualification_name blueprint))
                            (IsDisqualified worker_id (onboarding_qualification_name blueprint));
        if (disqualified : bool) then
          request_id ← getitem (data packet) "request_id";
          message_queue_append
            (mkPacket PACKET_TYPE_PROVIDER_DETAILS SYSTEM_CHANNEL_ID (channel_id channel_info)
                      {[ "request_id" := request_id; "agent_id" := VNone ]})
        else
          qualified ← call (λ tr, is_qualified tr worker_id
                                    (onboarding_qualification_name blueprint))
                           (IsQualified worker_id (onboarding_qualification_name blueprint));
          if negb qualified then
            onboard_data ← call (λ tr, get_onboarding_data tr task_run worker_id)
                                (GetOnboardingData task_run worker_id);
            onboard_agent ← call (λ tr, OnboardingAgent_new tr worker_id task_run)
                                 (OnboardingAgentNew worker_id task_run);
            log (SetInitState (get_agent_id onboard_agent) onboard_data);;
            agent_info ← new_AgentInfo onboard_agent (channel_id channel_info);
            let onboard_id := get_agent_id onboard_agent in
            set_agents onboard_id agent_info;;
            set_onboarding_packets onboard_id packet;;
            request_id ← getitem (data packet) "request_id";
            message_queue_append
              (mkPacket PACKET_TYPE_PROVIDER_DETAILS SYSTEM_CHANNEL_ID (channel_id channel_info)
                        {[ "request_id" := request_id;
                           "agent_id" := VStr onboard_id;
                           "onboard_data" := onboard_data ]});;
            let onboard_thread :=
              OnboardThread agent_info ("Onboard-thread-" +:+ onboard_id) in
            update_status agent_info STATUS_ONBOARDING;;
            set_assignment_thread agent_info onboard_thread;;
            thread_start onboard_thread
          else _assign_unit_to_agent packet channel_info units
      else _assign_unit_to_agent packet channel_info units
  end.

End handlers.

End Supervisor.

(* ===================================================================== *)
(** * A small world to run the supervisor in *)
(* ===================================================================== *)

Module Demo.
Import Supervisor.

Definition states : AgentState := {|
  STATUS_NONE := "none";
  STATUS_ONBOARDING := "onboarding";
  STATUS_WAITING := "waiting";
  STATUS_IN_TASK := "in task";
  STATUS_COMPLETED := "completed";
  STATUS_DISCONNECT := "disconnect";
  STATUS_TIMEOUT := "timeout";
  STATUS_PARTNER_DISCONNECT := "partner disconnect";
  STATUS_EXPIRED := "expired";
  complete := ["completed"; "disconnect"; "timeout"; "expired"];
  valid := ["none"; "onboarding"; "waiting"; "in task"; "completed"; "disconnect";
            "timeout"; "partner disconnect"; "expired"]
|}.

(** The agents created so far by the crowd provider. *)
Definition created (tr : list Event) : list string :=
  omap (λ e, match e with
             | NewFromProviderData _ _ _ _ a => Some (agent_id a)
             | _ => None
             end) tr.

Definition onboarded (tr : list Event) : list string :=
  omap (λ e, match e with
             | OnboardingAgentNew _ _ a => Some (agent_id a)
             | _ => None
             end) tr.

(** Unit ["taken"] is reserved by somebody else; the task run ["empty-run"]
    has no unit for anybody and ["onboarding-run"] requires onboarding,
    which no worker has passed or failed yet; every assignment has two
    slots, filled in the order the agents are created; the channel ["down"]
    refuses every packet. *)
Definition world : Collaborators := {|
  reserve_unit := λ tr task_run unit,
    if bool_decide (db_id unit = "taken") then None else Some unit;
  new_from_provider_data := λ tr provider worker_id unit crowd_data,
    mkAgent ("agent-" +:+ db_id unit) "none" false [];
  get_valid_units_for_worker := λ tr task_run worker_id,
    if bool_decide (task_run = "empty-run") then [] else [mkUnit "taken"; mkUnit "1"];
  get_blueprint := λ tr task_run,
    mkBlueprint (bool_decide (task_run = "onboarding-run")) true "onboarded";
  is_disqualified := λ tr worker_id name, false;
  is_qualified := λ tr worker_id name, false;
  get_onboarding_data := λ tr task_run worker_id, VOpaque 7;
  OnboardingAgent_new := λ tr worker_id task_run,
    mkAgent (if bool_decide (onboarded tr = []) then "onboarding_1" else "onboarding_2")
            "none" false [];
  get_assignment := λ tr unit, mkAssignment "assignment-1";
  get_agents := λ tr assignment, take 2 ((Some <$> created tr) ++ [None; None]);
  send := λ tr channel_id packet, bool_decide (channel_id ≠ "down")
|}.

Definition job (concurrent : bool) (task_run : string) : Job :=
  mkJob (mkTaskRunner concurrent task_run) "mock".

Definition channel (channel_id : string) (concurrent : bool) (task_run : string)
  : ChannelInfo :=
  mkChannelInfo channel_id (job concurrent task_run).

(** A [NEW_AGENT] packet. *)
Definition new_agent (request_id worker_id agent_registration_id : string) : Packet :=
  mkPacket "new_agent" "worker-page" SYSTEM_CHANNEL_ID
    {[ "request_id" := VStr request_id;
       "provider_data" := VDict {[ "worker_id" := VStr worker_id;
                                   "agent_registration_id" := VStr agent_registration_id ]} ]}.

Definition observation (receiver_id text : string) : Packet :=
  mkPacket "agent_action" SYSTEM_CHANNEL_ID receiver_id {[ "text" := VStr text ]}.

(** A supervisor with the channels ["up"] and ["down"] registered and
    nothing else. *)
Definition fresh_supervisor (concurrent : bool) (task_run : string) : Supervisor :=
  mkSupervisor ∅ ∅ ∅
    (<["up" := channel "up" concurrent task_run]>
       (<["down" := channel "down" concurrent task_run]> ∅))
    ∅ [] [].

End Demo.

(* ===================================================================== *)
(** * TaskLauncher.create_assignments *)
(* ===================================================================== *)

Module Creation.

(** What an [InitializationData] dictionary may hold under a key, as far as
    [len] tells the values apart: a list, a dictionary, or a value that has
    no length. *)
Inductive Data :=
| DList (items : list Data)
| DDict (d : gmap string Data)
| DScalar (n : nat).

Definition InitializationData : Type := gmap string Data.

(** [len(v)] *)
Definition len (v : Data) : Exception + nat :=
  match v with
  | DList items => inr (length items)
  | DDict d => inr (size d)
  | DScalar _ => inl TypeError
  end.

(** The attributes of the task run that [create_assignments] hands to the
    database, and the reward of its task config, which is passed on unread;
    [run_id] is [task_run.db_id]. *)
Record TaskRun := mkTaskRun {
  task_id : string;
  run_id : string;
  requester_id : string;
  task_type : string;
  provider_type : string;
  sandbox : bool;
  task_reward : Z
}.

(** The calls into the database and into the new [Assignment], with the ids
    the database answered. *)
Inductive Call :=
| NewAssignment (task_run : TaskRun) (answer : string)
| WriteAssignmentData (assignment_id : string) (data : InitializationData)
| NewUnit (task_run : TaskRun) (assignment_id : string) (unit_idx : nat) (answer : string).

(** The database answers as a function of the calls so far. *)
Class Database := {
  new_assignment : list Call → TaskRun → string;
  new_unit : list Call → TaskRun → string → nat → string
}.

(** The launcher: the fields [generate_units] works on, and those only
    [create_assignments] and [expire_units] use. *)
Record Launcher := mkLauncher {
  task_run : TaskRun;
  assignments : list Supervisor.Assignment;
  units : list Unit;
  queues : TaskLauncher.TaskLauncher;
  calls : list Call
}.

(** [TaskLauncher(db, task_run, assignment_data_list,
    max_num_concurrent_units)], as [__init__] leaves it. *)
Definition init (task_run : TaskRun) (max_num_concurrent_units : Z) : Launcher :=
  mkLauncher task_run [] [] (TaskLauncher.mkTaskLauncher max_num_concurrent_units [] []) [].

Section create_assignments.
Context `{Database}.

(** The body of the inner loop, for one [unit_idx]: the two [Unit] objects
    appended are distinct objects for the same database id. *)
Definition create_unit (assignment_id : string) (self : Launcher) (unit_idx : nat)
  : Launcher :=
  let unit_id := new_unit (calls self) (task_run self) assignment_id unit_idx in
  mkLauncher (task_run self) (assignments self)
    (units self ++ [mkUnit unit_id])
    (TaskLauncher.mkTaskLauncher
       (TaskLauncher.max_num_concurrent_units (queues self))
       (TaskLauncher.launched_units (queues self))
       (TaskLauncher.unlaunched_units (queues self) ++ [mkUnit unit_id]))
    (calls self ++ [NewUnit (task_run self) assignment_id unit_idx unit_id]).

(** The body of the outer loop, for one [data]. *)
Definition create_assignment (data : InitializationData) (self : Launcher)
  : option Exception * Launcher :=
  let assignment_id := new_assignment (calls self) (task_run self) in
  let self1 :=
    mkLauncher (task_run self)
      (assignments self ++ [Supervisor.mkAssignment assignment_id])
      (units self) (queues self)
      (calls self ++ [NewAssignment (task_run self) assignment_id;
                      WriteAssignmentData assignment_id data]) in
  match data !! "unit_data" with
  | None => (Some (KeyError "unit_data"), self1)
  | Some unit_data =>
      match len unit_data with
      | inl e => (Some e, self1)
      | inr unit_count => (None, foldl (create_unit assignment_id) self1 (seq 0 unit_count))
      end
  end.

(** [create_assignments]: the exception it ends with, if any, and the
    launcher it leaves. *)
Fixpoint create_assignments (assignment_data_list : list InitializationData)
    (self : Launcher) : option Exception * Launcher :=
  match assignment_data_list with
  | [] => (None, self)
  | data :: rest =>
      match create_assignment data self with
      | (None, self1) => create_assignments rest self1
      | (Some e, self1) => (Some e, self1)
      end
  end.

End create_assignments.

End Creation.

(* ===================================================================== *)
(** * Supervisor: closing channels *)
(* ===================================================================== *)

Module Closing.
Import Supervisor.

(** [close_channel].  The channel object is outside the model, so
    [channel.close()] itself leaves no mark; reaching it takes the lookup
    [self.channels[channel_id]], which raises when the id is not
    registered. *)
Definition close_channel (channel_id : string) : M () :=
  chans ← get channels;
  _ ← getitem chans channel_id;
  modify (λ self, mkSupervisor (store self) (agents self) (agents_by_registration_id self)
                    (delete channel_id (channels self)) (onboarding_packets self)
                    (message_queue self) (trace self)).

(** [shutdown_job]; [registered_channel_ids] is [job.registered_channel_ids],
    the ids [register_job] collected for the job. *)
Definition shutdown_job (registered_channel_ids : list string) : M () :=
  for_each close_channel registered_channel_ids;; mret ().

(** [shutdown], up to the [join] of the sending thread.  [channels_to_close]
    is a copy of the keys taken before the first channel is closed; Python
    lists them in insertion order, which the map does not record, and
    [map_to_list] gives them in an order of its own. *)
Definition shutdown : M () :=
  chans ← get channels;
  let channels_to_close := (map_to_list chans).*1 in
  for_each close_channel channels_to_close;; mret ().

End Closing.

(* ===================================================================== *)
(** * Facts about TaskLauncher *)
(* ===================================================================== *)

Module TaskLauncherFacts.
Import TaskLauncher.

(** ** The shape of one step *)

Lemma step_max get_status g g' out :
  step get_status g = (g', out) →
  max_num_concurrent_units g'.1 = max_num_concurrent_units g.1.
Proof.
  destruct g as [t f]; unfold step.
  destruct f; repeat (case_decide || case_match); intros; simplify_eq/=; done.
Qed.

(** The cap on [launched_units], with what the launch loop knows on top of
    it: after [i] iterations it has appended [i] units to the
    [max - num_avail_units] that were there when the loop was entered. *)
Definition cap_inv (g : Generator) : Prop :=
  let t := g.1 in
  (Z.of_nat (length (launched_units t)) ≤ max_num_concurrent_units t)%Z ∧
  match g.2 with
  | LaunchLoop i n num_avail_units =>
      Z.of_nat (length (launched_units t))
      = (max_num_concurrent_units t - num_avail_units + Z.of_nat i)%Z
  | _ => True
  end.

Lemma length_delete_le {A} (l : list A) i : length (delete i l) ≤ length l.
Proof. apply sublist_length, sublist_delete. Qed.

Lemma step_cap_inv get_status g g' out :
  cap_inv g → step get_status g = (g', out) → cap_inv g'.
Proof.
  destruct g as [t f]; unfold cap_inv, step, end_of_pass; simpl.
  intros [Hle Hf].
  destruct f; repeat (case_decide || case_match);
    intros; simplify_eq/=; try (split; first [done | lia]).
  - split; [|done]. pose proof (length_delete_le (launched_units t) i). lia.
  - rewrite length_app; simpl. split; lia.
Qed.

Lemma run_cap_inv envs g g' out :
  cap_inv g → run envs g = (g', out) → cap_inv g'.
Proof.
  revert g out. induction envs as [|e envs IH]; intros g out Hinv; simpl.
  - intros; by simplify_eq.
  - destruct (step e g) as [g1 o1] eqn:E1.
    destruct (run envs g1) as [g2 o2] eqn:E2.
    intros; simplify_eq. eapply IH; [|done]. by eapply step_cap_inv.
Qed.

Lemma run_max envs g g' out :
  run envs g = (g', out) →
  max_num_concurrent_units g'.1 = max_num_concurrent_units g.1.
Proof.
  revert g out. induction envs as [|e envs IH]; intros g out; simpl.
  - intros; by simplify_eq.
  - destruct (step e g) as [g1 o1] eqn:E1.
    destruct (run envs g1) as [g2 o2] eqn:E2.
    intros; simplify_eq. erewrite IH by done. by eapply step_max.
Qed.

(** ** Where the units go *)

Lemma yielded_app o1 o2 : yielded (o1 ++ o2) = yielded o1 ++ yielded o2.
Proof. unfold yielded. by rewrite omap_app. Qed.

Lemma popped_app o1 o2 : popped (o1 ++ o2) = popped o1 ++ popped o2.
Proof. unfold popped. by rewrite omap_app. Qed.

(** A step that yields [unit] took it from index [i] of [unlaunched_units],
    appended it to [launched_units] and popped it from [unlaunched_units]. *)
Lemma step_yield get_status t f g' out unit :
  step get_status (t, f) = (g', out) → Yielded unit ∈ out →
  out = [Yielded unit] ∧
  ∃ i n num_avail_units,
    f = LaunchLoop i n num_avail_units ∧
    unlaunched_units t !! i = Some unit ∧
    g' = (mkTaskLauncher (max_num_concurrent_units t)
                         (launched_units t ++ [unit])
                         (delete i (unlaunched_units t)),
          LaunchLoop (S i) n num_avail_units).
Proof.
  unfold step, end_of_pass.
  destruct f; repeat (case_decide || case_match); intros; simplify_eq/=;
    try (by exfalso; set_solver).
  assert (u = unit) as -> by set_solver.
  split; [done|]. by eexists _, _, _.
Qed.

(** The units yielded by a step and those left in [unlaunched_units] are,
    together, the units that were in [unlaunched_units]. *)
Lemma step_unlaunched get_status g g' out :
  step get_status g = (g', out) →
  yielded out ++ unlaunched_units g'.1 ≡ₚ unlaunched_units g.1.
Proof.
  destruct g as [t f]; unfold step, end_of_pass.
  destruct f; repeat (case_decide || case_match); intros; simplify_eq/=; try done.
  symmetry. by apply delete_Permutation.
Qed.

Lemma run_unlaunched envs g g' out :
  run envs g = (g', out) →
  yielded out ++ unlaunched_units g'.1 ≡ₚ unlaunched_units g.1.
Proof.
  revert g out. induction envs as [|e envs IH]; intros g out; simpl.
  - intros; by simplify_eq.
  - destruct (step e g) as [g1 o1] eqn:E1.
    destruct (run envs g1) as [g2 o2] eqn:E2.
    intros; simplify_eq.
    rewrite yielded_app -(step_unlaunched _ _ _ _ E1) -(IH _ _ E2).
    by rewrite (assoc_L (++)).
Qed.

(** The units in [launched_units] before a step and those it yields are the
    units in [launched_units] after it and those it popped; a popped unit
    was read with a status other than LAUNCHED and ASSIGNED. *)
Lemma step_launched get_status g g' out :
  step get_status g = (g', out) →
  launched_units g.1 ++ yielded out ≡ₚ launched_units g'.1 ++ (popped out).*1 ∧
  Forall (λ us, us.2 ≠ LAUNCHED ∧ us.2 ≠ ASSIGNED) (popped out).
Proof.
  destruct g as [t f]; unfold step, end_of_pass.
  destruct f; repeat (case_decide || case_match); intros; simplify_eq/=;
    rewrite ?app_nil_r; try done.
  split.
  - rewrite -Permutation_cons_append. by apply delete_Permutation.
  - by repeat constructor.
Qed.

Lemma run_launched envs g g' out :
  run envs g = (g', out) →
  launched_units g.1 ++ yielded out ≡ₚ launched_units g'.1 ++ (popped out).*1 ∧
  Forall (λ us, us.2 ≠ LAUNCHED ∧ us.2 ≠ ASSIGNED) (popped out).
Proof.
  revert g out. induction envs as [|e envs IH]; intros g out; simpl.
  - intros; simplify_eq; simpl. by rewrite !app_nil_r.
  - destruct (step e g) as [g1 o1] eqn:E1.
    destruct (run envs g1) as [g2 o2] eqn:E2.
    intros; simplify_eq.
    destruct (step_launched _ _ _ _ E1) as [P1 F1].
    destruct (IH _ _ E2) as [P2 F2].
    rewrite yielded_app popped_app fmap_app. split; [|by apply Forall_app].
    rewrite (assoc_L (++)) P1 -(assoc_L (++)).
    rewrite (comm (++) (popped o1).*1) (assoc_L (++)) P2 -!(assoc_L (++)).
    by rewrite (comm (++) (popped o2).*1).
Qed.

(** C3.  In every state an execution of [generate_units] reaches, started
    with at most [max_num_concurrent_units] launched units (the launcher is
    built with none), [launched_units] holds at most
    [max_num_concurrent_units] units; inside a launch loop entered with
    [num_avail_units = max - |launched_units|], the [i] units yielded so far
    are at most [num_avail_units] and each was appended to
    [launched_units]; so whatever the statuses are, at most
    [max_num_concurrent_units] of the launched units are LAUNCHED or
    ASSIGNED; and the units of [launched_units] are, with those yielded,
    all accounted for: each is still in [launched_units] or was popped after
    its status was read as neither LAUNCHED nor ASSIGNED. *)
Theorem generate_units_cap envs t t' frame out :
  (Z.of_nat (length (launched_units t)) ≤ max_num_concurrent_units t)%Z →
  run envs (generate_units t) = ((t', frame), out) →
  max_num_concurrent_units t' = max_num_concurrent_units t ∧
  (Z.of_nat (length (launched_units t')) ≤ max_num_concurrent_units t)%Z ∧
  (∀ i n num_avail_units, frame = LaunchLoop i n num_avail_units →
     (Z.of_nat i ≤ num_avail_units)%Z ∧
     Z.of_nat (length (launched_units t'))
     = (max_num_concurrent_units t - num_avail_units + Z.of_nat i)%Z) ∧
  (∀ get_status,
     (Z.of_nat (length (filter (λ u, running get_status u = true) (launched_units t')))
      ≤ max_num_concurrent_units t)%Z) ∧
  launched_units t ++ yielded out ≡ₚ launched_units t' ++ (popped out).*1 ∧
  Forall (λ us, us.2 ≠ LAUNCHED ∧ us.2 ≠ ASSIGNED) (popped out).
Proof.
  intros Hle Hrun.
  destruct (run_launched _ _ _ _ Hrun) as [Hperm Hpopped]; simpl in Hperm.
  pose proof (run_max _ _ _ _ Hrun) as Hmax; simpl in Hmax.
  assert (cap_inv (t', frame)) as [Hc Hf].
  { eapply run_cap_inv; [|exact Hrun]. split; simpl; done. }
  simpl in *. rewrite Hmax in Hc, Hf.
  repeat split; try done.
  - subst frame; lia.
  - subst frame; lia.
  - intros gs. pose proof (length_filter (λ u, running gs u = true) (launched_units t')). lia.
Qed.

(** C10.  When the units placed in [unlaunched_units] are distinct, no
    execution of [generate_units] yields a unit twice: the yielded units are
    distinct units of the initial [unlaunched_units], the step that yields a
    unit appends it to [launched_units] and pops it from
    [unlaunched_units], and [_launch_limited_units] calls [launch(url)] on
    exactly the yielded units, hence at most once per unit. *)
Theorem generate_units_yields_once url envs t :
  NoDup (unlaunched_units t) →
  let out := (run envs (generate_units t)).2 in
  NoDup (yielded out) ∧
  (∀ unit, unit ∈ yielded out → unit ∈ unlaunched_units t) ∧
  _launch_limited_units url envs t = (λ unit, (unit, url)) <$> yielded out ∧
  NoDup (_launch_limited_units url envs t) ∧
  (∀ get_status t1 f1 g2 out1 unit,
     step get_status (t1, f1) = (g2, out1) → Yielded unit ∈ out1 →
     ∃ i, unlaunched_units t1 !! i = Some unit ∧
          launched_units g2.1 = launched_units t1 ++ [unit] ∧
          unlaunched_units g2.1 = delete i (unlaunched_units t1)).
Proof.
  intros Hnd out.
  destruct (run envs (generate_units t)) as [g' o] eqn:Hrun.
  subst out; simpl.
  pose proof (run_unlaunched _ _ _ _ Hrun) as Hperm; simpl in Hperm.
  assert (NoDup (yielded o)) as Hy.
  { rewrite -Hperm in Hnd. by apply NoDup_app in Hnd as (? & _ & _). }
  split_and!.
  - done.
  - intros u Hu. rewrite -Hperm. set_solver.
  - unfold _launch_limited_units. by rewrite Hrun.
  - unfold _launch_limited_units. rewrite Hrun; simpl.
    apply (NoDup_fmap_2 _). done.
  - intros gs t1 f1 g2 out1 u Hs Hin.
    destruct (step_yield _ _ _ _ _ _ Hs Hin) as (_ & i & n & a & -> & Hi & ->).
    by exists i.
Qed.

(** ** What a reap pass does *)

Lemma run_app e1 e2 g :
  run (e1 ++ e2) g
  = let '(g1, o1) := run e1 g in let '(g2, o2) := run e2 g1 in (g2, o1 ++ o2).
Proof.
  revert g. induction e1 as [|e e1 IH]; intros g; simpl.
  - by destruct (run e2 g).
  - destruct (step e g) as [g1 o1]. rewrite IH.
    destruct (run e1 g1) as [g2 o2]. destruct (run e2 g2) as [g3 o3].
    by rewrite (assoc_L (++)).
Qed.

Lemma run_Raised envs t e : run envs (t, Raised e) = ((t, Raised e), []).
Proof. induction envs as [|? ? IH]; simpl; [done|]. by rewrite IH. Qed.

(** As long as the units it reads are LAUNCHED or ASSIGNED, the reap loop
    moves on and changes nothing. *)
Lemma reap_loop_skips get_status t n k :
  ∀ i,
    (∀ j unit, i ≤ j < i + k → launched_units t !! j = Some unit →
               running get_status unit = true) →
    i + k ≤ n → n ≤ length (launched_units t) →
    run (replicate k get_status) (t, ReapLoop i n) = ((t, ReapLoop (i + k) n), []).
Proof.
  induction k as [|k IH]; intros i Hrun Hle Hlen; simpl.
  { by rewrite Nat.add_0_r. }
  rewrite decide_True; [|lia].
  destruct (lookup_lt_is_Some_2 (launched_units t) i) as [unit Hu]; [lia|].
  rewrite Hu. pose proof (Hrun i unit ltac:(lia) Hu) as Hr.
  unfold running in Hr. apply orb_true_iff in Hr.
  destruct (bool_decide (get_status unit ≠ LAUNCHED) &&
            bool_decide (get_status unit ≠ ASSIGNED)) eqn:Hdead.
  { apply andb_true_iff in Hdead as [H1 H2].
    apply bool_decide_eq_true in H1, H2.
    destruct Hr as [Hr|Hr]; apply bool_decide_eq_true in Hr; done. }
  rewrite IH.
  - by rewrite Nat.add_succ_comm.
  - intros j u Hj. apply Hrun. lia.
  - lia.
  - done.
Qed.

(** Once [launched_units] is shorter than the range of the loop, the loop
    cannot reach the end of its range: it raises [IndexError]. *)
Lemma reap_loop_raises get_status n k :
  ∀ i t,
    length (launched_units t) < n → i < n → n - i ≤ k →
    (run (replicate k get_status) (t, ReapLoop i n)).1.2 = Raised IndexError.
Proof.
  induction k as [|k IH]; intros i t Hlen Hi Hk; [lia|]. simpl.
  rewrite decide_True //.
  destruct (launched_units t !! i) as [unit|] eqn:Hu.
  - assert (i < length (launched_units t)) by (by eapply lookup_lt_Some).
    destruct (bool_decide _ && bool_decide _).
    + specialize (IH (S i) (mkTaskLauncher (max_num_concurrent_units t)
                              (delete i (launched_units t)) (unlaunched_units t))).
      destruct (run _ _) as [[t' f'] o'] eqn:E. simpl in *. apply IH; [|lia..].
      pose proof (length_delete_le (launched_units t) i). lia.
    + specialize (IH (S i) t).
      destruct (run _ _) as [[t' f'] o'] eqn:E. simpl in *. apply IH; lia.
  - by rewrite run_Raised.
Qed.

Lemma run_one get_status g : run [get_status] g = step get_status g.
Proof. simpl. destruct (step get_status g). by rewrite app_nil_r. Qed.

Lemma step_reap_pop get_status t i n unit :
  i < n → launched_units t !! i = Some unit → running get_status unit = false →
  step get_status (t, ReapLoop i n)
  = ((mkTaskLauncher (max_num_concurrent_units t) (delete i (launched_units t))
                     (unlaunched_units t),
      ReapLoop (S i) n), [Popped unit (get_status unit)]).
Proof.
  intros Hi Hu Hdead. unfold step. rewrite decide_True // Hu.
  unfold running in Hdead. apply orb_false_iff in Hdead as [H1 H2].
  apply bool_decide_eq_false in H1, H2. by rewrite !bool_decide_eq_true_2.
Qed.

Lemma step_reap_exit get_status t n :
  step get_status (t, ReapLoop n n)
  = ((t, LaunchLoop 0 (length (unlaunched_units t))
           (max_num_concurrent_units t - Z.of_nat (length (launched_units t)))%Z), []).
Proof. unfold step. rewrite decide_False //. lia. Qed.

(** The reap pass, for statuses that do not change while it runs: it leaves
    [launched_units] as it is when every unit is still LAUNCHED or
    ASSIGNED, it removes the last unit when that is the only one that is
    not, and in every other case it raises [IndexError]. *)
Lemma reap_pass get_status t :
  let l := launched_units t in
  let result := run (replicate (S (length l)) get_status) (generate_units t) in
  let num_avail_units l' := (max_num_concurrent_units t - Z.of_nat (length l'))%Z in
  (Forall (λ unit, running get_status unit = true) l →
   result = ((t, LaunchLoop 0 (length (unlaunched_units t)) (num_avail_units l)), [])) ∧
  (∀ l0 unit,
     l = l0 ++ [unit] → Forall (λ unit, running get_status unit = true) l0 →
     running get_status unit = false →
     result
     = ((mkTaskLauncher (max_num_concurrent_units t) l0 (unlaunched_units t),
         LaunchLoop 0 (length (unlaunched_units t)) (num_avail_units l0)),
        [Popped unit (get_status unit)])) ∧
  (∀ l1 unit l2,
     l = l1 ++ unit :: l2 → l2 ≠ [] → Forall (λ unit, running get_status unit = true) l1 →
     running get_status unit = false →
     result.1.2 = Raised IndexError).
Proof.
  intros l result num_avail_units. subst result. unfold generate_units. fold l.
  assert (∀ l1 j u, Forall (λ unit, running get_status unit = true) l1 →
            j < length l1 → ∀ l2, (l1 ++ l2) !! j = Some u → running get_status u = true)
    as Hprefix.
  { intros l1 j u Hall Hj l2 Hu. rewrite lookup_app_l // in Hu.
    by eapply Forall_lookup_1 in Hall. }
  split_and!.
  - intros Hall.
    replace (S (length l)) with (length l + 1) by lia.
    rewrite replicate_add run_app.
    rewrite (reap_loop_skips get_status t (length l) (length l) 0).
    + change (replicate 1 get_status) with [get_status].
      rewrite run_one step_reap_exit. done.
    + intros j unit [_ Hj] Hu. by apply (Hprefix l j unit Hall Hj []); rewrite app_nil_r.
    + lia.
    + done.
  - intros l0 unit Hl Hall Hdead.
    assert (length l = S (length l0)) as Hlen by (rewrite Hl length_app /=; lia).
    replace (S (length l)) with (length l0 + (1 + 1)) by lia.
    rewrite !replicate_add !run_app Hlen.
    rewrite (reap_loop_skips get_status t (S (length l0)) (length l0) 0).
    + change (replicate 1 get_status) with [get_status].
      assert (launched_units t !! (0 + length l0) = Some unit) as Hu.
      { fold l. rewrite Hl. by rewrite list_lookup_middle. }
      rewrite run_app run_one
        (step_reap_pop get_status t (0 + length l0) (S (length l0)) unit ltac:(lia) Hu Hdead).
      rewrite run_one step_reap_exit. cbn [launched_units max_num_concurrent_units
        unlaunched_units]. fold l. rewrite Hl.
      rewrite (delete_middle l0 [] unit) app_nil_r. done.
    + intros j u [_ Hj] Hu. fold l in Hu. rewrite Hl in Hu. by eapply Hprefix.
    + lia.
    + fold l. lia.
  - intros l1 unit l2 Hl Hl2 Hall Hdead.
    assert (length l = length l1 + S (length l2)) as Hlen
      by (rewrite Hl length_app /=; lia).
    assert (0 < length l2) by (destruct l2; [done|simpl; lia]).
    replace (S (length l)) with (length l1 + (1 + S (length l2))) by lia.
    rewrite !replicate_add !run_app.
    rewrite (reap_loop_skips get_status t (length l) (length l1) 0).
    + change (replicate 1 get_status) with [get_status].
      assert (launched_units t !! (0 + length l1) = Some unit) as Hu.
      { fold l. rewrite Hl. by rewrite list_lookup_middle. }
      rewrite run_app run_one
        (step_reap_pop get_status t (0 + length l1) (length l) unit ltac:(lia) Hu Hdead).
      fold l. rewrite Hl (delete_middle l1 l2 unit).
      set (t1 := mkTaskLauncher _ _ _).
      pose proof (reap_loop_raises get_status (length (l1 ++ unit :: l2)) (S (length l2))
                    (0 + length l1 + 1) t1) as Hraise.
      replace (S (0 + length l1)) with (0 + length l1 + 1) by lia.
      destruct (run (replicate (S (length l2)) get_status) _) as [[t' f'] o'] eqn:E.
      cbn [fst snd] in *. apply Hraise; subst t1; rewrite !length_app /=; lia.
    + intros j u [_ Hj] Hu. fold l in Hu. rewrite Hl in Hu. by eapply Hprefix.
    + lia.
    + done.
Qed.

(** ** A launcher with a cap of two and five queued units *)

Definition demo_units : list Unit :=
  [mkUnit "1"; mkUnit "2"; mkUnit "3"; mkUnit "4"; mkUnit "5"].

Definition demo_launcher : TaskLauncher := mkTaskLauncher 2 [] demo_units.

(** Every unit reports LAUNCHED, except that unit 1 is COMPLETED from the
    fifth step on. *)
Definition demo_envs : list (Unit → AssignmentState) :=
  replicate 4 (λ _, LAUNCHED) ++
  replicate 8 (λ u, if decide (u = mkUnit "1") then COMPLETED else LAUNCHED).

(** The first pass yields units 1 and 3 (popping index [i] moves unit 2 to
    index 0, which the loop has already left); the second pass pops unit 1
    and then reads index 1 of a one-element list. *)
Example demo_run :
  run demo_envs (generate_units demo_launcher)
  = ((mkTaskLauncher 2 [mkUnit "3"] [mkUnit "2"; mkUnit "4"; mkUnit "5"],
      Raised IndexError),
     [Yielded (mkUnit "1"); Yielded (mkUnit "3"); Popped (mkUnit "1") COMPLETED]).
Proof. reflexivity. Qed.

(** C9 (the code departs from it).  A reap pass over two launched units that
    have both left LAUNCHED and ASSIGNED pops the first, skips the second,
    which has moved to index 0, and raises [IndexError] when it reads index
    1: the second unit stays in [launched_units]. *)
Theorem reap_pass_two_finished_units :
  let get_status := λ _ : Unit, COMPLETED in
  run [get_status; get_status]
      (generate_units (mkTaskLauncher 2 [mkUnit "1"; mkUnit "2"] [mkUnit "3"]))
  = ((mkTaskLauncher 2 [mkUnit "2"] [mkUnit "3"], Raised IndexError),
     [Popped (mkUnit "1") COMPLETED]).
Proof. reflexivity. Qed.

Lemma generate_units_cap_witness :
  (Z.of_nat (length (launched_units (run demo_envs (generate_units demo_launcher)).1.1))
   ≤ 2)%Z.
Proof.
  destruct (run demo_envs (generate_units demo_launcher)) as [[t' frame] out] eqn:E.
  apply (generate_units_cap demo_envs demo_launcher t' frame out); [simpl; lia | exact E].
Defined.

Lemma generate_units_yields_once_witness :
  NoDup (yielded (run demo_envs (generate_units demo_launcher)).2).
Proof.
  apply (generate_units_yields_once "https://example.org" demo_envs demo_launcher).
  apply (bool_decide_unpack _). vm_compute. exact I.
Defined.

End TaskLauncherFacts.

(* ===================================================================== *)
(** * More about the launch loop and the life of the generator *)
(* ===================================================================== *)

Module TaskLauncherMore.
Import TaskLauncher TaskLauncherFacts.

(** The elements at the even indices of a list, and those at the odd
    indices. *)
Fixpoint evens {A} (l : list A) : list A :=
  match l with
  | [] => []
  | x :: l' => x :: match l' with [] => [] | _ :: l'' => evens l'' end
  end.

Definition odds {A} (l : list A) : list A :=
  match l with [] => [] | _ :: l' => evens l' end.

Lemma evens_odds_app {A} n :
  ∀ l1 l2 : list A, length l1 = 2 * n →
    evens (l1 ++ l2) = evens l1 ++ evens l2 ∧ odds (l1 ++ l2) = odds l1 ++ odds l2.
Proof.
  induction n as [|n IH]; intros l1 l2 Hlen.
  { by destruct l1. }
  destruct l1 as [|x [|y l1]]; simpl in Hlen; [lia..|].
  destruct (IH l1 l2) as [He Ho]; [lia|].
  split; simpl.
  - by rewrite He.
  - destruct l1 as [|z l1]; simpl in *; [done|]. by rewrite Ho.
Qed.

Lemma length_evens_odds {A} n :
  ∀ l : list A, length l = 2 * n → length (evens l) = n ∧ length (odds l) = n.
Proof.
  induction n as [|n IH]; intros l Hlen.
  { by destruct l. }
  destruct l as [|x [|y l]]; simpl in Hlen; [lia..|].
  destruct (IH l) as [He Ho]; [lia|]. simpl. split; [by rewrite He|].
  destruct l; simpl in *; [lia|]. by rewrite Ho.
Qed.

(** The launcher after [j] iterations of a launch loop entered with the
    queue [l]: the units at the even indices below [2 * j] have moved, in
    order, to the end of [launched_units]. *)
Definition after_launches (t : TaskLauncher) (j : nat) : TaskLauncher :=
  let l := unlaunched_units t in
  mkTaskLauncher (max_num_concurrent_units t)
    (launched_units t ++ evens (take (2 * j) l))
    (odds (take (2 * j) l) ++ drop (2 * j) l).

Lemma after_launches_S t j unit :
  unlaunched_units t !! (2 * j) = Some unit →
  unlaunched_units (after_launches t j) !! j = Some unit ∧
  after_launches t (S j)
  = mkTaskLauncher (max_num_concurrent_units t)
      (launched_units (after_launches t j) ++ [unit])
      (delete j (unlaunched_units (after_launches t j))).
Proof.
  intros Hu. unfold after_launches.
  cbn [launched_units unlaunched_units max_num_concurrent_units].
  set (l := unlaunched_units t) in *.
  assert (length (take (2 * j) l) = 2 * j) as Hlen.
  { apply length_take_le. apply lookup_lt_Some in Hu. lia. }
  destruct (length_evens_odds j _ Hlen) as [_ Hodds].
  split.
  - rewrite lookup_app_r Hodds; [|lia]. by rewrite Nat.sub_diag lookup_drop Nat.add_0_r.
  - replace (2 * S j) with (2 * j + 2) by lia.
    rewrite -(take_take_drop l (2 * j) 2).
    destruct (evens_odds_app j (take (2 * j) l) (take 2 (drop (2 * j) l)) Hlen) as [-> ->].
    rewrite -(drop_drop l 2 (2 * j)).
    rewrite (drop_S l unit (2 * j) Hu).
    set (o := odds (take (2 * j) l)) in *. set (e := evens (take (2 * j) l)).
    set (d := drop (S (2 * j)) l).
    rewrite -Hodds delete_middle.
    destruct d as [|y r]; simpl; by rewrite -!(assoc_L (++)) ?drop_0.
Qed.

(** What the launch loop gets to do before it leaves: it yields
    [launch_count n a] units, [n] being the length of the queue when the
    loop is entered and [a] the value of [num_avail_units]. *)
Definition launch_count (n : nat) (a : Z) : nat := min (Z.to_nat a) ((n + 1) / 2).

Lemma launch_count_spec n a :
  let k := launch_count n a in
  (Z.of_nat k ≤ Z.max a 0)%Z ∧ 2 * k ≤ n + 1 ∧
  (k = Z.to_nat a ∨ (k = (n + 1) / 2 ∧ n ≤ 2 * k)).
Proof.
  unfold launch_count. cbv zeta.
  pose proof (Nat.div_mod_eq (n + 1) 2) as Hdm.
  pose proof (Nat.mod_upper_bound (n + 1) 2 ltac:(lia)) as Hr.
  revert Hdm Hr. generalize ((n + 1) / 2) ((n + 1) mod 2). intros q r Hdm Hr.
  split_and!; [lia..|].
  destruct (Nat.min_spec (Z.to_nat a) q) as [[? ->]|[? ->]]; [by left|].
  right. split; [done|lia].
Qed.

(** The iterations of the launch loop that go through. *)
Lemma launch_loop_iterates t a envs :
  let n := length (unlaunched_units t) in
  length envs ≤ launch_count n a →
  run envs (t, LaunchLoop 0 n a)
  = ((after_launches t (length envs), LaunchLoop (length envs) n a),
     Yielded <$> evens (take (2 * length envs) (unlaunched_units t))).
Proof.
  intros n. induction envs as [|e envs IH] using rev_ind; intros Hle.
  { simpl. unfold after_launches. simpl. rewrite drop_0 app_nil_r. by destruct t. }
  rewrite length_app /= in Hle. rewrite run_app IH; [|lia].
  rewrite run_one length_app /=.
  destruct (launch_count_spec n a) as (Ha & Hn & _). simpl in Ha, Hn.
  set (j := length envs) in *.
  destruct (lookup_lt_is_Some_2 (unlaunched_units t) (2 * j)) as [unit Hu]; [fold n; lia|].
  destruct (after_launches_S t j unit Hu) as [Hj HS].
  unfold step. rewrite decide_True; [|lia]. rewrite decide_True; [|lia].
  rewrite Hj. replace (j + 1) with (S j) by lia. rewrite HS.
  f_equal.
  replace (S j + (S j + 0)) with (2 * j + 2) by lia.
  replace (j + (j + 0)) with (2 * j) by lia.
  rewrite -(take_take_drop (unlaunched_units t) (2 * j) 2).
  assert (length (take (2 * j) (unlaunched_units t)) = 2 * j) as Hlen.
  { apply length_take_le. apply lookup_lt_Some in Hu. lia. }
  destruct (evens_odds_app j (take (2 * j) (unlaunched_units t))
              (take 2 (drop (2 * j) (unlaunched_units t))) Hlen) as [-> _].
  rewrite (drop_S _ unit (2 * j) Hu) fmap_app.
  by destruct (drop (S (2 * j)) (unlaunched_units t)).
Qed.

(** How the launch loop leaves after these iterations. *)
Lemma launch_loop_leaves get_status t a :
  let n := length (unlaunched_units t) in
  let k := launch_count n a in
  step get_status (after_launches t k, LaunchLoop k n a)
  = ((after_launches t k,
      if bool_decide (k < n ∧ (Z.of_nat k < a)%Z) then Raised IndexError
      else end_of_pass (after_launches t k)), []).
Proof.
  intros n k. destruct (launch_count_spec n a) as (Ha & Hn & Hk). fold k in Ha, Hn, Hk.
  unfold step. case_decide as Hkn; [|by rewrite bool_decide_eq_false_2; [|lia]].
  case_decide as Hka; [|by rewrite bool_decide_eq_false_2; [|lia]].
  rewrite bool_decide_eq_true_2 //.
  destruct Hk as [Hk|[Hk Hnk]]; [lia|].
  rewrite (proj2 (lookup_ge_None _ _)) //.
  unfold after_launches. cbn [unlaunched_units].
  rewrite length_app length_drop. fold n.
  destruct (decide (2 * k ≤ n)) as [Hle|Hgt].
  - destruct (length_evens_odds k (take (2 * k) (unlaunched_units t))) as [_ ->].
    { apply length_take_le. fold n. lia. }
    lia.
  - assert (n = 2 * (k - 1) + 1) as Hodd by lia.
    rewrite take_ge; [|fold n; lia].
    destruct (unlaunched_units t) as [|x l] eqn:El; [simpl in *; lia|].
    simpl in n. subst n.
    destruct (length_evens_odds (k - 1) l) as [He _]; [simpl in *; lia|].
    unfold odds. rewrite He. lia.
Qed.

(** X1.  The launch loop, entered with [n] units in [unlaunched_units] and
    [num_avail_units = a], runs [launch_count n a] iterations: it yields the
    units at the indices 0, 2, 4, ... of the queue, in this order, and
    appends them to [launched_units]; the units in between stay queued,
    since [pop(i)] moves each of them below the index the loop takes next.
    The loop then reads past the end of the shortened queue and raises
    [IndexError] when the budget [a] allows one more launch and [range(n)]
    is not exhausted; otherwise it leaves the pass. *)
Theorem launch_loop_outcome t a envs :
  length envs = S (launch_count (length (unlaunched_units t)) a) →
  let l := unlaunched_units t in
  let n := length l in
  let k := launch_count n a in
  run envs (t, LaunchLoop 0 n a)
  = ((mkTaskLauncher (max_num_concurrent_units t)
        (launched_units t ++ evens (take (2 * k) l))
        (odds (take (2 * k) l) ++ drop (2 * k) l),
      if bool_decide (k < n ∧ (Z.of_nat k < a)%Z) then Raised IndexError
      else end_of_pass (after_launches t k)),
     Yielded <$> evens (take (2 * k) l)).
Proof.
  intros Hlen l n k.
  destruct envs as [|e envs _] using rev_ind; [done|].
  rewrite length_app /= in Hlen.
  assert (length envs = k) as Hk by (subst k n l; lia).
  rewrite run_app launch_loop_iterates; [|fold l n k; lia].
  rewrite run_one Hk. fold l n k. rewrite (launch_loop_leaves e t a).
  fold l n k. by rewrite app_nil_r.
Qed.

Lemma launch_count_wide n a :
  2 ≤ n → (Z.of_nat ((n + 1) / 2) < a)%Z →
  launch_count n a = (n + 1) / 2 ∧ launch_count n a < n ∧ n ≤ 2 * launch_count n a.
Proof.
  intros Hn Ha. unfold launch_count.
  pose proof (Nat.div_mod_eq (n + 1) 2) as Hdm.
  pose proof (Nat.mod_upper_bound (n + 1) 2 ltac:(lia)) as Hr.
  revert Ha Hdm Hr. generalize ((n + 1) / 2) ((n + 1) mod 2). intros q r Ha Hdm Hr.
  lia.
Qed.

(** X2.  A launcher that has launched nothing yet, holds at least two units
    and may run more than half of them at once (rounded up) does not get
    through its first pass: it yields the units at the even indices of the
    queue and then raises [IndexError].  The units at the odd indices stay
    in [unlaunched_units] and are never yielded, however long the generator
    is driven. *)
Theorem fresh_launcher_raises_on_wide_budget t envs :
  launched_units t = [] →
  2 ≤ length (unlaunched_units t) →
  (Z.of_nat ((length (unlaunched_units t) + 1) / 2) < max_num_concurrent_units t)%Z →
  (length (unlaunched_units t) + 1) / 2 + 2 ≤ length envs →
  run envs (generate_units t)
  = ((mkTaskLauncher (max_num_concurrent_units t)
        (evens (unlaunched_units t)) (odds (unlaunched_units t)),
      Raised IndexError),
     Yielded <$> evens (unlaunched_units t)).
Proof.
  intros Hl Hn Ha Hlen.
  set (n := length (unlaunched_units t)) in *.
  destruct (launch_count_wide n (max_num_concurrent_units t) Hn Ha) as (Hk & Hkn & Hnk).
  set (k := launch_count n (max_num_concurrent_units t)) in *.
  rewrite -Hk in Hlen.
  destruct envs as [|e envs]; [simpl in Hlen; lia|]. simpl in Hlen.
  change (e :: envs) with ([e] ++ envs).
  rewrite run_app run_one. unfold generate_units. rewrite Hl. simpl length.
  rewrite step_reap_exit Hl. simpl length. rewrite Z.sub_0_r.
  rewrite -(take_drop (S k) envs) run_app. fold n.
  rewrite (launch_loop_outcome t (max_num_concurrent_units t));
    [|fold n k; rewrite length_take; lia].
  cbv zeta. fold n k.
  rewrite bool_decide_eq_true_2; [|lia].
  rewrite run_Raised /= app_nil_r.
  rewrite take_ge; [|fold n; lia]. rewrite drop_ge; [|fold n; lia].
  by rewrite Hl app_nil_r.
Qed.

(** What holds while a launcher at its cap waits. *)
Definition waiting (t : TaskLauncher) (frame : Frame) : Prop :=
  (∃ i, frame = ReapLoop i (length (launched_units t))) ∨
  frame = LaunchLoop 0 (length (unlaunched_units t))
            (max_num_concurrent_units t - Z.of_nat (length (launched_units t)))%Z.

Lemma step_waiting get_status t frame :
  (max_num_concurrent_units t ≤ Z.of_nat (length (launched_units t)))%Z →
  unlaunched_units t ≠ [] →
  Forall (λ unit, running get_status unit = true) (launched_units t) →
  waiting t frame →
  ∃ frame', step get_status (t, frame) = ((t, frame'), []) ∧ waiting t frame'.
Proof.
  intros Hcap Hq Hrun [[i ->]| ->]; unfold step.
  - case_decide as Hi.
    + destruct (lookup_lt_is_Some_2 (launched_units t) i Hi) as [unit Hu].
      rewrite Hu. eapply Forall_lookup_1 in Hrun; [|exact Hu].
      unfold running in Hrun. apply orb_true_iff in Hrun.
      rewrite (proj2 (andb_false_iff _ _)).
      { eexists. split; [done|]. left. by eexists. }
      destruct Hrun as [H|H]; apply bool_decide_eq_true in H;
        [left|right]; apply bool_decide_eq_false; naive_solver.
    + eexists. split; [done|]. by right.
  - unfold end_of_pass. rewrite (bool_decide_eq_false_2 _ Hq).
    destruct (unlaunched_units t) as [|u q] eqn:E; [done|]. simpl length.
    destruct (decide (0 < S (length q))); [|lia].
    destruct (decide (Z.of_nat 0 < _)%Z); [lia|].
    eexists. split; [done|]. left. by eexists.
Qed.

(** X3.  A launcher at its cap waits: as long as every launched unit is
    still LAUNCHED or ASSIGNED and [launched_units] holds at least
    [max_num_concurrent_units] units, the generator pops nothing, yields
    nothing and changes neither list, and while units are queued it neither
    returns nor raises: it repeats its passes.  A cap below one makes this
    last forever, as [launched_units] is then never short of it. *)
Theorem generate_units_waits_at_cap t envs :
  (max_num_concurrent_units t ≤ Z.of_nat (length (launched_units t)))%Z →
  unlaunched_units t ≠ [] →
  Forall (λ get_status, Forall (λ unit, running get_status unit = true) (launched_units t))
         envs →
  ∃ frame, run envs (generate_units t) = ((t, frame), []) ∧
           waiting t frame.
Proof.
  intros Hcap Hq Henvs.
  assert (waiting t (generate_units t).2) as Hw by (left; by eexists).
  unfold generate_units in *. simpl in Hw.
  revert Hw. generalize (ReapLoop 0 (length (launched_units t))).
  induction Henvs as [|e envs He Henvs IH]; intros frame Hw.
  { by exists frame. }
  destruct (step_waiting e t frame Hcap Hq He Hw) as (frame' & Hs & Hw').
  destruct (IH frame' Hw') as (frame'' & Hr & Hw'').
  exists frame''. change (e :: envs) with ([e] ++ envs).
  by rewrite run_app run_one Hs Hr.
Qed.

Lemma step_Returned get_status g :
  (g.2 = Returned → unlaunched_units g.1 = []) →
  (step get_status g).1.2 = Returned → unlaunched_units (step get_status g).1.1 = [].
Proof.
  destruct g as [t frame]. simpl. intros Hinv.
  destruct frame as [i n|i n a| |e]; simpl;
    repeat case_decide; repeat case_match; simpl; try done;
    unfold end_of_pass; case_bool_decide; done.
Qed.

Lemma run_Returned envs :
  ∀ g, (g.2 = Returned → unlaunched_units g.1 = []) →
       (run envs g).1.2 = Returned → unlaunched_units (run envs g).1.1 = [].
Proof.
  induction envs as [|e envs IH]; intros g Hinv; simpl; [done|].
  pose proof (step_Returned e g Hinv) as Hs.
  destruct (step e g) as [g1 o1]. specialize (IH g1 Hs).
  by destruct (run envs g1) as [g2 o2].
Qed.

(** X4.  The generator returns only when the queue is drained: in an
    execution that ends with the generator exhausted, [unlaunched_units] is
    empty and the units yielded are the units that were queued when
    [generate_units] was called, each as often as it was queued. *)
Theorem generate_units_returns_when_drained envs t :
  (run envs (generate_units t)).1.2 = Returned →
  unlaunched_units (run envs (generate_units t)).1.1 = [] ∧
  yielded (run envs (generate_units t)).2 ≡ₚ unlaunched_units t.
Proof.
  intros Hret.
  pose proof (run_Returned envs (generate_units t) ltac:(done) Hret) as Hq.
  split; [done|].
  destruct (run envs (generate_units t)) as [g' out] eqn:Hrun.
  pose proof (run_unlaunched _ _ _ _ Hrun) as Hperm. simpl in *.
  by rewrite Hq app_nil_r in Hperm.
Qed.

(** What holds of a launcher that runs at most one unit at a time. *)
Definition single_slot (g : Generator) : Prop :=
  let '(t, frame) := g in
  (max_num_concurrent_units t ≤ 1)%Z ∧
  length (launched_units t) ≤ 1 ∧
  match frame with
  | ReapLoop i n => i < n → n = length (launched_units t)
  | LaunchLoop i n a =>
      (a ≤ 1)%Z ∧
      (i = 0 → n = length (unlaunched_units t) ∧
               (a ≤ max_num_concurrent_units t - Z.of_nat (length (launched_units t)))%Z)
  | Returned => True
  | Raised _ => False
  end.

Lemma step_single_slot get_status g :
  single_slot g →
  single_slot (step get_status g).1 ∧
  yielded (step get_status g).2 ++ unlaunched_units (step get_status g).1.1
  = unlaunched_units g.1.
Proof.
  destruct g as [t frame]. intros (Hmax & Hlen & Hf).
  destruct frame as [i n|i n a| |e]; simpl in *; [| | done..].
  - case_decide as Hi.
    + specialize (Hf Hi). subst n.
      destruct (lookup_lt_is_Some_2 (launched_units t) i Hi) as [unit Hu].
      rewrite Hu. case_match; simpl.
      * split; [|done]. split_and!; [done| |lia].
        pose proof (length_delete_le (launched_units t) i). lia.
      * split; [|done]. split_and!; [done..|lia].
    + simpl. split; [|done]. split_and!; [done..|lia|done].
  - destruct Hf as [Ha Hn].
    assert (single_slot (t, end_of_pass t)) as Hend.
    { split_and!; [done..|]. unfold end_of_pass. case_bool_decide; done. }
    case_decide as Hi; [|done].
    case_decide as Hia; [|done].
    assert (i = 0) as -> by lia. destruct (Hn eq_refl) as [-> Hb].
    destruct (unlaunched_units t) as [|unit q] eqn:E; [simpl in Hi; lia|].
    simpl. split; [|done]. split_and!; [done| |lia|done].
    rewrite length_app /=. lia.
Qed.

(** X5.  With [max_num_concurrent_units] at most one, which covers the
    default of 1, and at most one unit launched when [generate_units] is
    called, the generator never raises, and it yields the queued units
    first in, first out: what has been yielded, followed by what is still
    queued, is the queue [generate_units] was called with. *)
Theorem generate_units_single_slot_fifo envs t :
  (max_num_concurrent_units t ≤ 1)%Z →
  length (launched_units t) ≤ 1 →
  (∀ e, (run envs (generate_units t)).1.2 ≠ Raised e) ∧
  yielded (run envs (generate_units t)).2
    ++ unlaunched_units (run envs (generate_units t)).1.1
  = unlaunched_units t.
Proof.
  intros Hmax Hlen.
  assert (single_slot (generate_units t)) as Hinv by (by split_and!).
  change (unlaunched_units t) with (unlaunched_units (generate_units t).1).
  revert Hinv. generalize (generate_units t). intros g Hinv.
  assert (single_slot (run envs g).1 ∧
          yielded (run envs g).2 ++ unlaunched_units (run envs g).1.1
          = unlaunched_units g.1) as [Hs Hy].
  { revert g Hinv. induction envs as [|e envs IH]; intros g Hinv; simpl; [done|].
    destruct (step_single_slot e g Hinv) as [Hs1 Hy1].
    destruct (step e g) as [g1 o1]. simpl in *.
    destruct (IH g1 Hs1) as [Hs2 Hy2].
    destruct (run envs g1) as [g2 o2]. simpl in *.
    split; [done|]. by rewrite yielded_app -(assoc_L (++)) Hy2 Hy1. }
  split; [|done].
  intros e He. destruct (run envs g) as [[t' f] o]. simpl in *. subst f.
  by destruct Hs as (_ & _ & ?).
Qed.

(** While the reap loop runs, nothing is yielded and the queue is not
    touched. *)
Lemma reap_loop_quiet get_status n k :
  ∀ i t, i + k ≤ n →
    yielded (run (replicate k get_status) (t, ReapLoop i n)).2 = [] ∧
    unlaunched_units (run (replicate k get_status) (t, ReapLoop i n)).1.1
    = unlaunched_units t.
Proof.
  induction k as [|k IH]; intros i t Hk; [done|].
  change (replicate (S k) get_status) with ([get_status] ++ replicate k get_status).
  rewrite run_app run_one. unfold step. rewrite decide_True; [|lia].
  destruct (launched_units t !! i) as [unit|]; [|by rewrite run_Raised].
  destruct (_ && _).
  - destruct (IH (S i) (mkTaskLauncher (max_num_concurrent_units t)
                          (delete i (launched_units t)) (unlaunched_units t))
                ltac:(lia)) as [Hy Hq].
    revert Hy Hq. by destruct (run _ _) as [g2 o2].
  - destruct (IH (S i) t ltac:(lia)) as [Hy Hq].
    revert Hy Hq. by destruct (run _ _) as [g2 o2].
Qed.

(** X6.  When a launched unit other than the last one has left LAUNCHED and
    ASSIGNED, the units before it still being there, the next reap loop
    raises [IndexError]: popping the unit shortens [launched_units] under
    the [range] the loop runs over.  The generator is dead from then on: it
    yields nothing more and the queued units stay in [unlaunched_units],
    whatever the statuses become. *)
Theorem reap_loop_raises_on_inner_unit get_status t l1 unit l2 envs :
  launched_units t = l1 ++ unit :: l2 →
  l2 ≠ [] →
  Forall (λ unit, running get_status unit = true) l1 →
  running get_status unit = false →
  let result :=
    run (replicate (length (launched_units t)) get_status ++ envs) (generate_units t) in
  result.1.2 = Raised IndexError ∧
  yielded result.2 = [] ∧
  unlaunched_units result.1.1 = unlaunched_units t.
Proof.
  intros Hl Hl2 Hl1 Hunit result. subst result.
  set (n := length (launched_units t)).
  assert (length l1 + 2 ≤ n) as Hn.
  { subst n. rewrite Hl length_app /=. destruct l2; [done|]. simpl. lia. }
  destruct (reap_loop_quiet get_status n n 0 t ltac:(lia)) as [Hy Hq].
  assert ((run (replicate n get_status) (generate_units t)).1.2 = Raised IndexError) as Hf.
  { replace (replicate n get_status)
      with (replicate (length l1) get_status
            ++ replicate 1 get_status ++ replicate (n - length l1 - 1) get_status).
    2:{ rewrite -!replicate_add. f_equal. lia. }
    rewrite !run_app. unfold generate_units. fold n.
    rewrite (reap_loop_skips get_status t n (length l1) 0); [| |lia|done].
    2:{ intros j u Hj Hu. rewrite Hl lookup_app_l in Hu; [|lia].
        by eapply Forall_lookup_1 in Hl1. }
    change (replicate 1 get_status) with [get_status].
    rewrite run_app run_one (step_reap_pop get_status t (0 + length l1) n unit);
      [|lia| |done].
    2:{ by rewrite Hl list_lookup_middle. }
    pose proof (reap_loop_raises get_status n (n - length l1 - 1) (S (0 + length l1))
                  (mkTaskLauncher (max_num_concurrent_units t)
                     (delete (0 + length l1) (launched_units t)) (unlaunched_units t)))
      as Hr.
    destruct (run (replicate (n - length l1 - 1) get_status) _) as [g2 o2].
    simpl in *. apply Hr; [|lia..].
    unfold n. rewrite Hl delete_middle !length_app /=. lia. }
  rewrite run_app. unfold generate_units in *. fold n in Hf |- *.
  revert Hy Hq Hf.
  destruct (run (replicate n get_status) (t, ReapLoop 0 n)) as [[t1 f1] o1]; simpl.
  intros Hy Hq ->. by rewrite run_Raised /= app_nil_r.
Qed.

(** ** The theorems on concrete launchers *)

(** Five queued units and a budget of two: the loop yields units 1 and 3,
    and unit 2 stays at the head of the queue. *)
Lemma launch_loop_outcome_witness :
  run (replicate 3 (λ _, LAUNCHED)) (demo_launcher, LaunchLoop 0 5 2)
  = ((mkTaskLauncher 2 [mkUnit "1"; mkUnit "3"] [mkUnit "2"; mkUnit "4"; mkUnit "5"],
      ReapLoop 0 2),
     [Yielded (mkUnit "1"); Yielded (mkUnit "3")]).
Proof.
  exact (launch_loop_outcome demo_launcher 2 (replicate 3 (λ _, LAUNCHED)) eq_refl).
Defined.

(** Three queued units and room for three: units 1 and 3 are yielded, the
    third iteration reads index 2 of a one-element queue. *)
Lemma fresh_launcher_raises_on_wide_budget_witness :
  run (replicate 6 (λ _, LAUNCHED))
      (generate_units (mkTaskLauncher 3 [] [mkUnit "1"; mkUnit "2"; mkUnit "3"]))
  = ((mkTaskLauncher 3 [mkUnit "1"; mkUnit "3"] [mkUnit "2"], Raised IndexError),
     [Yielded (mkUnit "1"); Yielded (mkUnit "3")]).
Proof.
  apply (fresh_launcher_raises_on_wide_budget
           (mkTaskLauncher 3 [] [mkUnit "1"; mkUnit "2"; mkUnit "3"])
           (replicate 6 (λ _, LAUNCHED)));
    [reflexivity | simpl; lia | vm_compute; reflexivity | vm_compute; lia].
Defined.

Lemma generate_units_waits_at_cap_witness :
  ∃ frame,
    run (replicate 7 (λ _, LAUNCHED))
        (generate_units (mkTaskLauncher 1 [mkUnit "1"] [mkUnit "2"]))
    = ((mkTaskLauncher 1 [mkUnit "1"] [mkUnit "2"], frame), []) ∧
    waiting (mkTaskLauncher 1 [mkUnit "1"] [mkUnit "2"]) frame.
Proof.
  apply (generate_units_waits_at_cap (mkTaskLauncher 1 [mkUnit "1"] [mkUnit "2"])
           (replicate 7 (λ _, LAUNCHED))).
  - simpl. lia.
  - discriminate.
  - repeat constructor.
Defined.

Lemma generate_units_returns_when_drained_witness :
  let result :=
    run (replicate 3 (λ _, LAUNCHED)) (generate_units (mkTaskLauncher 1 [] [mkUnit "1"])) in
  unlaunched_units result.1.1 = [] ∧ yielded result.2 ≡ₚ [mkUnit "1"].
Proof.
  apply (generate_units_returns_when_drained (replicate 3 (λ _, LAUNCHED))
           (mkTaskLauncher 1 [] [mkUnit "1"])).
  reflexivity.
Defined.

Lemma generate_units_single_slot_fifo_witness :
  let result := run demo_envs (generate_units (mkTaskLauncher 1 [] demo_units)) in
  (∀ e, result.1.2 ≠ Raised e) ∧
  yielded result.2 ++ unlaunched_units result.1.1 = demo_units.
Proof.
  apply (generate_units_single_slot_fifo demo_envs (mkTaskLauncher 1 [] demo_units));
    simpl; lia.
Defined.

Lemma reap_loop_raises_on_inner_unit_witness :
  let get_status := λ u, if decide (u = mkUnit "2") then COMPLETED else LAUNCHED in
  let result :=
    run (replicate 3 get_status ++ replicate 4 (λ _, COMPLETED))
        (generate_units
           (mkTaskLauncher 3 [mkUnit "1"; mkUnit "2"; mkUnit "3"] [mkUnit "4"])) in
  result.1.2 = Raised IndexError ∧
  yielded result.2 = [] ∧
  unlaunched_units result.1.1 = [mkUnit "4"].
Proof.
  apply (reap_loop_raises_on_inner_unit
           (λ u, if decide (u = mkUnit "2") then COMPLETED else LAUNCHED)
           (mkTaskLauncher 3 [mkUnit "1"; mkUnit "2"; mkUnit "3"] [mkUnit "4"])
           [mkUnit "1"] (mkUnit "2") [mkUnit "3"] (replicate 4 (λ _, COMPLETED))).
  - reflexivity.
  - discriminate.
  - repeat constructor.
  - reflexivity.
Defined.

End TaskLauncherMore.

(* ===================================================================== *)
(** * Facts about the Supervisor *)
(* ===================================================================== *)

Module SupervisorFacts.
Import Supervisor.

(** What a statement appended to the trace. *)
Definition events_of {A} (m : M A) (self : Supervisor) : list Event :=
  drop (length (trace self)) (trace (m self).2).

(** The packets handed to [channel.send], with the channel and the answer. *)
Definition sends (events : list Event) : list (string * Packet * bool) :=
  omap (λ e, match e with Send c p ok => Some (c, p, ok) | _ => None end) events.

(** An [UPDATE_AGENT_STATUS] packet with the given [status], [done_text] and
    [task_done]. *)
Definition carries (p : Packet) (status : string) (done_text : Value) (task_done : bool)
  : Prop :=
  packet_type p = PACKET_TYPE_UPDATE_AGENT_STATUS ∧
  data p !! "status" = Some (VStr status) ∧
  ∃ state, data p !! "state" = Some (VDict state) ∧
           state !! "done_text" = Some done_text ∧
           state !! "task_done" = Some (VBool task_done).

(** The supervisor with more in its trace, and with another store. *)
Definition with_trace (self : Supervisor) (events : list Event) : Supervisor :=
  mkSupervisor (store self) (agents self) (agents_by_registration_id self)
    (channels self) (onboarding_packets self) (message_queue self)
    (trace self ++ events).

Lemma with_trace_nil self : with_trace self [] = self.
Proof. unfold with_trace. rewrite app_nil_r. by destruct self. Qed.

Lemma with_trace_app self e1 e2 :
  with_trace (with_trace self e1) e2 = with_trace self (e1 ++ e2).
Proof. unfold with_trace; simpl. by rewrite (assoc_L (++)). Qed.

Definition with_store (self : Supervisor) (st : gmap ref AgentInfo)
    (events : list Event) : Supervisor :=
  mkSupervisor st (agents self) (agents_by_registration_id self)
    (channels self) (onboarding_packets self) (message_queue self)
    (trace self ++ events).

Lemma with_store_nil self : with_store self (store self) [] = self.
Proof. unfold with_store. rewrite app_nil_r. by destruct self. Qed.

(** [info] after [update_status(status)] on its agent. *)
Definition with_status (info : AgentInfo) (status : string) : AgentInfo :=
  mkAgentInfo (mkAgent (agent_id (agent info)) status true
                       (pending_observations (agent info)))
              (used_channel_id info) (assignment_thread info).


Ltac unfold_M :=
  unfold mbind, M_bind, mret, M_ret, raise, get, modify.

Ltac unfold_ops :=
  unfold new_AgentInfo, set_agents, set_agents_by_registration_id, set_onboarding_packets,
    message_queue_append, set_used_channel_id, set_assignment_thread,
    set_pending_observations, update_status, call, print, thread_start;
  unfold set_message_queue, set_store, log, getitem, as_dict, as_str, deref;
  unfold_M.

Tactic Notation "unfold_ops" "in" hyp(Hyp) :=
  unfold new_AgentInfo, set_agents, set_agents_by_registration_id, set_onboarding_packets,
    message_queue_append, set_used_channel_id, set_assignment_thread,
    set_pending_observations, update_status, call, print, thread_start in Hyp;
  unfold set_message_queue, set_store, log, getitem, as_dict, as_str, deref in Hyp;
  unfold mbind, M_bind, mret, M_ret, raise, get, modify in Hyp.

(** Closes an equation between two supervisors that differ in how their
    traces are bracketed. *)
Ltac frame :=
  unfold with_store, with_trace; simpl;
  rewrite -?(assoc_L (++)); simpl; reflexivity.

(** Finds an element in a list that is written out. *)
Ltac in_list := repeat first [apply list_elem_of_here | apply list_elem_of_further].

Section status_updates.
Context `{AgentState} `{Collaborators}.

Lemma STATUS_TO_TEXT_MAP_get status :
  STATUS_TO_TEXT_MAP !! status =
  if decide (STATUS_PARTNER_DISCONNECT = status) then
    Some "One of your partners has disconnected while working on this task. We won't penalize you for them leaving, so please submit this task as is."
  else if decide (STATUS_DISCONNECT = status) then
    Some "You have disconnected from our server during the duration of the task. If you have done substantial work, please reach out to see if we can recover it. "
  else if decide (STATUS_TIMEOUT = status) then
    Some "You took to long to respond to this task, and have timed out. The task is no longer available, please return it."
  else if decide (STATUS_EXPIRED = status) then
    Some "This task is no longer available to be completed. Please return it and try a different task"
  else None.
Proof.
  unfold STATUS_TO_TEXT_MAP. rewrite !lookup_insert.
  repeat case_decide; done.
Qed.

Lemma _send_status_update_run self agent_info info channel_info :
  store self !! agent_info = Some info →
  channels self !! used_channel_id info = Some channel_info →
  ∃ p, carries p (db_status (agent info))
         (from_option VStr VNone (STATUS_TO_TEXT_MAP !! db_status (agent info)))
         (bool_decide (db_status (agent info) = STATUS_PARTNER_DISCONNECT)) ∧
       receiver_id p = get_agent_id (agent info) ∧
       _send_status_update agent_info self
       = (Return (),
          mkSupervisor (store self) (agents self) (agents_by_registration_id self)
            (channels self) (onboarding_packets self) (message_queue self)
            (trace self ++ [Send (channel_id channel_info) p
                              (send (trace self) (channel_id channel_info) p)])).
Proof.
  intros Hs Hc. eexists. split; [|split]; last first.
  - unfold _send_status_update. unfold_ops. simpl. rewrite Hs Hc. simpl. reflexivity.
  - done.
  - split; [done|]. split; [done|]. eexists. split; [done|]. done.
Qed.

Lemma _mark_agent_done_run self agent_info info channel_info :
  store self !! agent_info = Some info →
  channels self !! used_channel_id info = Some channel_info →
  db_status (agent info) ∉ complete ++ [STATUS_PARTNER_DISCONNECT] →
  ∃ p, carries p "completed" (VStr "You have completed this task. Please submit.") true ∧
       receiver_id p = get_agent_id (agent info) ∧
       _mark_agent_done agent_info self
       = (Return (),
          mkSupervisor (store self) (agents self) (agents_by_registration_id self)
            (channels self) (onboarding_packets self) (message_queue self)
            (trace self ++ [Send (channel_id channel_info) p
                              (send (trace self) (channel_id channel_info) p)])).
Proof.
  intros Hs Hc Hn. eexists. split; [|split]; last first.
  - unfold _mark_agent_done. unfold_ops. simpl. rewrite Hs. simpl.
    rewrite bool_decide_eq_false_2 //. rewrite Hc. simpl. reflexivity.
  - done.
  - split; [done|]. split; [done|]. eexists. split; [done|]. done.
Qed.

(** C7.  Every packet [_send_status_update] hands to a channel is an
    [UPDATE_AGENT_STATUS] packet carrying the agent's [db_status], the entry
    of [STATUS_TO_TEXT_MAP] for that status ([None] when it has none) as
    [done_text], and [task_done] true exactly when the status is
    [STATUS_PARTNER_DISCONNECT]; every packet [_mark_agent_done] hands to a
    channel carries status ["completed"], the manual-completion text and
    [task_done] true.  Each of the two sends one such packet when the
    agent's channel is registered (and, for [_mark_agent_done], the agent is
    neither in [complete()] nor in [STATUS_PARTNER_DISCONNECT]). *)
Theorem update_agent_status_packets self agent_info :
  (∀ c p ok, (c, p, ok) ∈ sends (events_of (_send_status_update agent_info) self) →
     ∃ info, store self !! agent_info = Some info ∧
       carries p (db_status (agent info))
         (from_option VStr VNone (STATUS_TO_TEXT_MAP !! db_status (agent info)))
         (bool_decide (db_status (agent info) = STATUS_PARTNER_DISCONNECT))) ∧
  (∀ c p ok, (c, p, ok) ∈ sends (events_of (_mark_agent_done agent_info) self) →
     carries p "completed" (VStr "You have completed this task. Please submit.") true) ∧
  (∀ info channel_info,
     store self !! agent_info = Some info →
     channels self !! used_channel_id info = Some channel_info →
     ∃ p ok, sends (events_of (_send_status_update agent_info) self)
             = [(channel_id channel_info, p, ok)]) ∧
  (∀ info channel_info,
     store self !! agent_info = Some info →
     channels self !! used_channel_id info = Some channel_info →
     db_status (agent info) ∉ complete ++ [STATUS_PARTNER_DISCONNECT] →
     ∃ p ok, sends (events_of (_mark_agent_done agent_info) self)
             = [(channel_id channel_info, p, ok)]).
Proof.
  split_and!.
  - intros c p ok.
    destruct (store self !! agent_info) as [info|] eqn:Hs; last first.
    { unfold events_of, _send_status_update. unfold_ops. simpl. rewrite Hs. simpl.
      rewrite drop_all. set_solver. }
    destruct (channels self !! used_channel_id info) as [ci|] eqn:Hc; last first.
    { unfold events_of, _send_status_update. unfold_ops. simpl. rewrite Hs. simpl.
      rewrite Hc. simpl. rewrite drop_all. set_solver. }
    destruct (_send_status_update_run _ _ _ _ Hs Hc) as (q & Hq & _ & Hrun).
    unfold events_of. rewrite Hrun. simpl. rewrite drop_app_length. simpl.
    intros Hin. exists info. split; [done|].
    apply list_elem_of_singleton in Hin. by simplify_eq.
  - intros c p ok.
    destruct (store self !! agent_info) as [info|] eqn:Hs; last first.
    { unfold events_of, _mark_agent_done. unfold_ops. simpl. rewrite Hs. simpl.
      rewrite drop_all. set_solver. }
    destruct (decide (db_status (agent info) ∈ complete ++ [STATUS_PARTNER_DISCONNECT]))
      as [Hin|Hn].
    { unfold events_of, _mark_agent_done. unfold_ops. simpl. rewrite Hs. simpl.
      rewrite bool_decide_eq_true_2 //. simpl. rewrite drop_all. set_solver. }
    destruct (channels self !! used_channel_id info) as [ci|] eqn:Hc; last first.
    { unfold events_of, _mark_agent_done. unfold_ops. simpl. rewrite Hs. simpl.
      rewrite bool_decide_eq_false_2 //. rewrite Hc. simpl. rewrite drop_all. set_solver. }
    destruct (_mark_agent_done_run _ _ _ _ Hs Hc Hn) as (q & Hq & _ & Hrun).
    unfold events_of. rewrite Hrun. simpl. rewrite drop_app_length. simpl.
    intros Hin. apply list_elem_of_singleton in Hin. by simplify_eq.
  - intros info ci Hs Hc.
    destruct (_send_status_update_run _ _ _ _ Hs Hc) as (q & Hq & _ & Hrun).
    unfold events_of. rewrite Hrun. simpl. rewrite drop_app_length. simpl. eauto.
  - intros info ci Hs Hc Hn.
    destruct (_mark_agent_done_run _ _ _ _ Hs Hc Hn) as (q & Hq & _ & Hrun).
    unfold events_of. rewrite Hrun. simpl. rewrite drop_app_length. simpl. eauto.
Qed.

End status_updates.

(** ** Status reconciliation *)

Section reconciliation.
Context `{AgentState} `{Collaborators}.

(** The statuses [update_status] was called with. *)
Definition adopted (events : list Event) : list (string * string) :=
  omap (λ e, match e with UpdateStatus a st => Some (a, st) | _ => None end) events.

(** What a run of the handler, or of a part of it, keeps: an agent whose
    status is in [complete()] is left as it is, and no [update_status] is
    called with [STATUS_COMPLETED]. *)
Definition keeps_final (self self' : Supervisor) : Prop :=
  (∀ r info, store self !! r = Some info → db_status (agent info) ∈ complete →
             store self' !! r = Some info) ∧
  agents self' = agents self ∧
  ∃ events, trace self' = trace self ++ events ∧
            ∀ a st, (a, st) ∈ adopted events → st ≠ STATUS_COMPLETED.

Lemma keeps_final_refl self : keeps_final self self.
Proof.
  split; [done|]. split; [done|]. exists []. rewrite app_nil_r. split; [done|].
  set_solver.
Qed.

Lemma keeps_final_events self self' events :
  store self' = store self → agents self' = agents self →
  trace self' = trace self ++ events → adopted events = [] →
  keeps_final self self'.
Proof.
  intros Hs Ha Ht He. split; [by rewrite Hs|]. split; [done|].
  exists events. split; [done|]. rewrite He. set_solver.
Qed.

Lemma keeps_final_trans self1 self2 self3 :
  keeps_final self1 self2 → keeps_final self2 self3 → keeps_final self1 self3.
Proof.
  intros (S1 & A1 & e1 & T1 & U1) (S2 & A2 & e2 & T2 & U2).
  split; [by auto|]. split; [congruence|].
  exists (e1 ++ e2). split; [by rewrite T2 T1 (assoc_L (++))|].
  intros a st. unfold adopted. rewrite omap_app. set_solver.
Qed.

Lemma _send_status_update_keeps self agent_info :
  keeps_final self (_send_status_update agent_info self).2.
Proof.
  unfold _send_status_update. unfold_ops. simpl.
  destruct (store self !! agent_info) as [info|]; simpl; [|apply keeps_final_refl].
  destruct (channels self !! used_channel_id info) as [ci|]; simpl;
    [|apply keeps_final_refl].
  by eapply keeps_final_events.
Qed.

(** One item of [status_map]: when the status is adopted, the agent was not
    in [complete()] and the status is not [STATUS_COMPLETED]; otherwise
    no agent changes. *)
Lemma handle_one_status_keeps item self :
  keeps_final self (handle_one_status item self).2.
Proof.
  destruct item as [agent_id status]. unfold handle_one_status.
  case_bool_decide as Hvalid.
  { unfold_ops. simpl. by eapply keeps_final_events. }
  unfold_ops. simpl.
  destruct (agents self !! agent_id) as [r|] eqn:Ha; [|apply keeps_final_refl].
  simpl.
  destruct (store self !! r) as [info|] eqn:Hs; [|apply keeps_final_refl]. simpl.
  destruct (has_updated_status (agent info)); [apply keeps_final_refl|].
  case_bool_decide as Hnone; [apply _send_status_update_keeps|].
  case_bool_decide as Hne; [|apply keeps_final_refl].
  case_bool_decide as Hfinal.
  { simpl. by eapply keeps_final_events. }
  case_bool_decide as Hcompleted; [apply keeps_final_refl|].
  simpl. rewrite Hs. simpl.
  split; [|split; [done|]]; simpl.
  - intros r' info' Hr' Hin. destruct (decide (r = r')) as [->|].
    + rewrite Hs in Hr'. by simplify_eq.
    + by rewrite lookup_insert_ne.
  - eexists. split; [done|]. simpl. intros a st Hin.
    apply list_elem_of_singleton in Hin. by simplify_eq.
Qed.

Lemma for_each_handle_keeps status_map self :
  keeps_final self (for_each handle_one_status status_map self).2.
Proof.
  revert self. induction status_map as [|item l IH]; intros self; simpl.
  { apply keeps_final_refl. }
  unfold mbind, M_bind.
  pose proof (handle_one_status_keeps item self) as K1.
  destruct (handle_one_status item self) as [[[]|e] self1]; simpl in *; [|done].
  pose proof (IH self1) as K2.
  destruct (for_each handle_one_status l self1) as [[ys|e] self2]; simpl in *;
    by eapply keeps_final_trans.
Qed.

(** One item whose agent is in [complete()] and whose reported status
    differs: nothing but the trace changes, and when the item gets as far as
    the comparison, the trace gains the line the code prints. *)
Lemma handle_one_status_final agent_id status self r info :
  agents self !! agent_id = Some r →
  store self !! r = Some info →
  db_status (agent info) ∈ complete →
  status ≠ db_status (agent info) →
  store (handle_one_status (agent_id, status) self).2 = store self ∧
  adopted (events_of (handle_one_status (agent_id, status)) self) = [] ∧
  (status ∈ valid → has_updated_status (agent info) = false → status ≠ STATUS_NONE →
   handle_one_status (agent_id, status) self
   = (Return (),
      mkSupervisor (store self) (agents self) (agents_by_registration_id self)
        (channels self) (onboarding_packets self) (message_queue self)
        (trace self ++ [Print (Got_updated_status_when_already_final status
                                 (db_status (agent info)))]))).
Proof.
  intros Ha Hs Hfinal Hne.
  assert (∃ o events,
            handle_one_status (agent_id, status) self
            = (o, mkSupervisor (store self) (agents self) (agents_by_registration_id self)
                    (channels self) (onboarding_packets self) (message_queue self)
                    (trace self ++ events)) ∧
            adopted events = [] ∧
            (status ∈ valid → has_updated_status (agent info) = false →
             status ≠ STATUS_NONE →
             o = Return () ∧
             events = [Print (Got_updated_status_when_already_final status
                                (db_status (agent info)))]))
    as (o & events & Hrun & Had & Hlog).
  { assert (∀ o : Outcome (), (o, self) = (o, mkSupervisor (store self) (agents self)
                    (agents_by_registration_id self) (channels self)
                    (onboarding_packets self) (message_queue self) (trace self ++ [])))
      as Hself by (intros; rewrite app_nil_r; by destruct self).
    unfold handle_one_status.
    case_bool_decide as Hvalid.
    { unfold_ops. simpl. eexists _, _. split_and!; [done..|]. by intros ?. }
    unfold_ops. simpl. rewrite Ha. simpl. rewrite Hs. simpl.
    destruct (has_updated_status (agent info)) eqn:Hf.
    { eexists _, []. split_and!; [apply Hself|done|]. by intros _ ?. }
    case_bool_decide as Hnone.
    { unfold _send_status_update. unfold_ops. simpl. rewrite Hs. simpl.
      destruct (channels self !! used_channel_id info); simpl.
      - eexists _, _. split_and!; [done..|]. by intros _ _ ?.
      - eexists _, []. split_and!; [apply Hself|done|]. by intros _ _ ?. }
    unfold get_status. rewrite !bool_decide_eq_true_2 //. simpl.
    eexists _, _. split_and!; [done..|]. by intros _ _ _. }
  rewrite Hrun. unfold events_of. rewrite Hrun. simpl. rewrite drop_app_length.
  split_and!; [done..|].
  intros Hv Hf Hn. destruct (Hlog Hv Hf Hn) as [-> ->]. done.
Qed.

(** C4.  Whatever [status_map] holds, [_handle_updated_agent_status] leaves
    every agent whose status is in [complete()] exactly as it was, and never
    calls [update_status] with [STATUS_COMPLETED]; for one entry whose agent
    is in [complete()] and whose reported status differs, the agent is not
    mutated and, when the entry reaches the comparison, the mismatch is
    printed. *)
Theorem _handle_updated_agent_status_keeps_final status_map self :
  (∀ r info, store self !! r = Some info → db_status (agent info) ∈ complete →
     store (_handle_updated_agent_status status_map self).2 !! r = Some info) ∧
  (∀ a st, (a, st) ∈ adopted (events_of (_handle_updated_agent_status status_map) self) →
     st ≠ STATUS_COMPLETED) ∧
  (∀ agent_id status r info,
     agents self !! agent_id = Some r →
     store self !! r = Some info →
     db_status (agent info) ∈ complete →
     status ≠ db_status (agent info) →
     store (handle_one_status (agent_id, status) self).2 = store self ∧
     adopted (events_of (handle_one_status (agent_id, status)) self) = [] ∧
     (status ∈ valid → has_updated_status (agent info) = false → status ≠ STATUS_NONE →
      events_of (handle_one_status (agent_id, status)) self
      = [Print (Got_updated_status_when_already_final status (db_status (agent info)))])).
Proof.
  assert (keeps_final self (_handle_updated_agent_status status_map self).2)
    as (K & _ & evs & T & U).
  { unfold _handle_updated_agent_status, mbind, M_bind.
    pose proof (for_each_handle_keeps status_map self) as K.
    by destruct (for_each handle_one_status status_map self) as [[ys|e] self1]. }
  split_and!.
  - done.
  - unfold events_of. by rewrite T drop_app_length.
  - intros agent_id status r info Ha Hs Hfinal Hne.
    destruct (handle_one_status_final _ _ _ _ _ Ha Hs Hfinal Hne) as (E1 & E2 & E3).
    split_and!; [done..|].
    intros Hv Hf Hn. unfold events_of. rewrite E3 //. simpl.
    by rewrite drop_app_length.
Qed.

End reconciliation.

(** ** Registration *)

Section registration.
Context `{AgentState} `{Collaborators}.

(** A registration packet as the front end sends it: a [request_id], and
    [provider_data] with the worker's id and the registration id. *)
Definition registration (packet : Packet) (crowd_data : gmap string Value)
    (worker_id request_id : Value) (agent_registration_id : string) : Prop :=
  data packet !! "provider_data" = Some (VDict crowd_data) ∧
  crowd_data !! "worker_id" = Some worker_id ∧
  crowd_data !! "agent_registration_id" = Some (VStr agent_registration_id) ∧
  data packet !! "request_id" = Some request_id.

(** The [PROVIDER_DETAILS] reply to [request_id] on a channel. *)
Definition provider_details (channel_info : ChannelInfo) (request_id agent_id : Value)
  : Packet :=
  mkPacket PACKET_TYPE_PROVIDER_DETAILS SYSTEM_CHANNEL_ID (channel_id channel_info)
    {[ "request_id" := request_id; "agent_id" := agent_id ]}.

(** The reservation loop asks for the units in list order, stops at the
    first that is granted, and does nothing else. *)
Lemma reserve_first_run task_run units self :
  ∃ failed granted,
    reserve_first task_run units self
    = (Return (fst <$> granted),
       with_trace self
         (((λ u, ReserveUnit task_run u None) <$> failed) ++
          match granted with
          | None => []
          | Some (unit, answer) => [ReserveUnit task_run unit (Some answer)]
          end)) ∧
    match granted with
    | None => units = failed
    | Some (unit, _) => ∃ rest, units = failed ++ unit :: rest
    end.
Proof.
  revert self. induction units as [|unit units IH]; intros self; simpl.
  { exists [], None. simpl. by rewrite with_trace_nil. }
  unfold_ops. simpl.
  destruct (reserve_unit (trace self) task_run unit) as [answer|] eqn:Hr.
  - exists [], (Some (unit, answer)). simpl. split; [done|]. by exists units.
  - destruct (IH (with_trace self [ReserveUnit task_run unit None]))
      as (failed & granted & Hrun & Hunits).
    unfold with_trace in Hrun at 1. rewrite Hrun.
    exists (unit :: failed), granted. rewrite with_trace_app. split; [done|].
    destruct granted as [[u a]|]; [|by subst].
    destruct Hunits as [rest ->]. by exists rest.
Qed.

(** The threads started. *)
Definition thread_starts (events : list Event) : list Thread :=
  omap (λ e, match e with ThreadStart t => Some t | _ => None end) events.



(** What the launch of the tasks may add to the trace. *)
Definition launch_event (e : Event) : Prop :=
  match e with
  | GetAssignment _ _ | GetAgents _ _ | UpdateStatus _ _ | ThreadStart _ => True
  | _ => False
  end.

Lemma lookup_agents_frame ids self :
  ∃ o, for_each (λ a, index ← get agents; getitem index a) ids self = (o, self).
Proof.
  induction ids as [|a ids [o IH]]; simpl; [by eexists|].
  unfold_ops. simpl. unfold_ops in IH.
  destruct (agents self !! a); simpl; [|by eexists].
  rewrite IH. destruct o; by eexists.
Qed.

(** Whatever a store holds stays in it, for the same agent. *)
Definition same_agents (st st' : gmap ref AgentInfo) : Prop :=
  ∀ k info, st !! k = Some info →
    ∃ info', st' !! k = Some info' ∧ agent_id (agent info') = agent_id (agent info).

Lemma same_agents_refl st : same_agents st st.
Proof. intros k info Hk. by exists info. Qed.

Lemma same_agents_trans st1 st2 st3 :
  same_agents st1 st2 → same_agents st2 st3 → same_agents st1 st3.
Proof.
  intros H12 H23 k info Hk. destruct (H12 k info Hk) as (i2 & Hk2 & E2).
  destruct (H23 k i2 Hk2) as (i3 & Hk3 & E3). exists i3. split; [done|congruence].
Qed.

Lemma same_agents_insert st k info info' :
  st !! k = Some info → agent_id (agent info') = agent_id (agent info) →
  same_agents st (<[k := info']> st).
Proof.
  intros Hk E k' i Hk'. destruct (decide (k = k')) as [<-|].
  - rewrite lookup_insert_eq. exists info'. split; [done|]. by simplify_eq.
  - rewrite lookup_insert_ne //. by exists i.
Qed.

Lemma mark_in_task_frame thread agent_infos :
  ∀ self, ∃ o st events,
    for_each (λ agent_info,
                update_status agent_info STATUS_IN_TASK;;
                set_assignment_thread agent_info thread) agent_infos self
    = (o, with_store self st events) ∧ Forall launch_event events ∧
    same_agents (store self) st.
Proof.
  induction agent_infos as [|k ks IH]; intros self; simpl.
  { exists (Return []), (store self), []. rewrite with_store_nil.
    split_and!; [done..|apply same_agents_refl]. }
  unfold_ops. simpl.
  destruct (store self !! k) as [info|] eqn:Hk; simpl; last first.
  { exists (Raise DanglingReference), (store self), []. rewrite with_store_nil.
    split_and!; [done..|apply same_agents_refl]. }
  rewrite lookup_insert_eq. simpl. rewrite insert_insert_eq.
  set (self1 := mkSupervisor _ _ _ _ _ _ _).
  destruct (IH self1) as (o & st & events & Hrun & Hev & Hsame).
  unfold_ops in Hrun. rewrite Hrun.
  assert (same_agents (store self) st) as Hsame'.
  { eapply same_agents_trans; [|exact Hsame]. subst self1; simpl.
    by eapply same_agents_insert. }
  destruct o; eexists _, st, (_ :: events);
    (split_and!; [unfold with_store; subst self1; simpl; by rewrite -(assoc_L (++))
                 |by constructor|done]).
Qed.

(** The launch of the tasks changes only the store and the trace. *)
Lemma launch_individual_tasks_frame channel_info unit agent_info self :
  ∃ o st events,
    launch_individual_tasks channel_info unit agent_info self
    = (o, with_store self st events) ∧ Forall launch_event events ∧
    same_agents (store self) st.
Proof.
  unfold launch_individual_tasks.
  destruct (is_concurrent (task_runner (job channel_info))); simpl.
  - unfold_ops. simpl.
    set (assignment := get_assignment _ _). set (slots := get_agents _ _).
    case_bool_decide as Hnone.
    + simpl. destruct (store self !! agent_info) as [info|] eqn:Hk; simpl.
      * eexists _, _, [_; _; _]. split_and!; [frame|by repeat constructor|].
        by eapply same_agents_insert.
      * eexists _, (store self), [_; _].
        split_and!; [frame|by repeat constructor|apply same_agents_refl].
    + set (self1 := mkSupervisor _ _ _ _ _ _ _).
      destruct (lookup_agents_frame (omap id slots) self1) as [o Hl].
      unfold_ops in Hl. rewrite Hl.
      destruct o as [agent_infos|e]; last first.
      { eexists _, (store self), [_; _].
        split_and!; [subst self1; frame|by repeat constructor|apply same_agents_refl]. }
      set (thread := AssignmentThread _ _ _).
      destruct (mark_in_task_frame thread agent_infos self1)
        as (o & st & events & Hm & Hev & Hsame).
      unfold_ops in Hm. rewrite Hm.
      destruct o; simpl.
      * eexists _, st, ([_; _] ++ events ++ [_]).
        split_and!; [subst self1; frame| |done].
        repeat first [apply Forall_cons; split; [done|] | apply Forall_app; split];
          [done|by repeat constructor].
      * eexists _, st, ([_; _] ++ events).
        split_and!; [subst self1; frame| |done].
        repeat first [apply Forall_cons; split; [done|] | apply Forall_app; split]; done.
  - unfold_ops. simpl.
    destruct (store self !! agent_info) as [info|] eqn:Hk; simpl.
    + eexists _, _, [_]. split_and!; [frame|by repeat constructor|].
      by eapply same_agents_insert.
    + eexists _, (store self), []. rewrite with_store_nil.
      split_and!; [done..|apply same_agents_refl].
Qed.

(** The requests for a reservation that were refused. *)
Definition refused (task_run : string) (failed : list Unit) : list Event :=
  (λ u, ReserveUnit task_run u None) <$> failed.

(** [_assign_unit_to_agent] up to [# Launch individual tasks]. *)
Lemma _assign_unit_to_agent_run packet channel_info units self
    crowd_data worker_id request_id agent_registration_id :
  registration packet crowd_data worker_id request_id agent_registration_id →
  let run := task_run (task_runner (job channel_info)) in
  ∃ failed granted,
    (reserve_first run units self).1 = Return (fst <$> granted) ∧
    match granted with
    | None =>
        units = failed ∧
        _assign_unit_to_agent packet channel_info units self
        = (Return (),
           mkSupervisor (store self) (agents self) (agents_by_registration_id self)
             (channels self) (onboarding_packets self)
             (message_queue self ++ [provider_details channel_info request_id VNone])
             (trace self ++ refused run failed ++
              [Append (provider_details channel_info request_id VNone)]))
    | Some (unit, answer) =>
        ∃ rest, units = failed ++ unit :: rest ∧
        let agent :=
          new_from_provider_data
            (trace self ++ refused run failed ++ [ReserveUnit run unit (Some answer)])
            (provider (job channel_info)) worker_id unit crowd_data in
        let agent_info := fresh (dom (store self)) in
        let reply := provider_details channel_info request_id (VStr (agent_id agent)) in
        _assign_unit_to_agent packet channel_info units self
        = launch_individual_tasks channel_info unit agent_info
            (mkSupervisor
               (<[agent_info := mkAgentInfo agent (channel_id channel_info) None]> (store self))
               (<[agent_id agent := agent_info]> (agents self))
               (<[agent_registration_id := agent_info]> (agents_by_registration_id self))
               (channels self) (onboarding_packets self)
               (message_queue self ++ [reply])
               (trace self ++ refused run failed ++
                [ReserveUnit run unit (Some answer);
                 NewFromProviderData (provider (job channel_info)) worker_id unit
                   crowd_data agent;
                 Append reply;
                 SetAgents (agent_id agent) agent_info;
                 SetAgentsByRegistrationId agent_registration_id agent_info;
                 ClearReservation run unit]))
    end.
Proof.
  intros (Hpd & Hw & Hrid & Hreq) run.
  destruct (reserve_first_run run units self) as (failed & granted & Hrun & Hunits).
  exists failed, granted. rewrite Hrun. split; [done|].
  unfold _assign_unit_to_agent. unfold_ops. simpl. rewrite Hpd. simpl. rewrite Hw. simpl.
  fold run. rewrite Hrun. simpl.
  destruct granted as [[unit answer]|]; simpl.
  - destruct Hunits as [rest ->]. exists rest. split; [done|].
    rewrite Hreq. simpl. rewrite Hrid. simpl.
    unfold get_agent_id, refused, provider_details. f_equal. f_equal.
    rewrite -!(assoc_L (++)). done.
  - split; [done|]. rewrite Hreq. simpl.
    unfold refused, provider_details. rewrite app_nil_r -!(assoc_L (++)). done.
Qed.















(** [_assign_unit_to_agent] with no unit to assign. *)
Lemma _assign_unit_to_agent_nil packet channel_info self
    crowd_data worker_id request_id agent_registration_id :
  registration packet crowd_data worker_id request_id agent_registration_id →
  _assign_unit_to_agent packet channel_info [] self
  = (Return (),
     mkSupervisor (store self) (agents self) (agents_by_registration_id self)
       (channels self) (onboarding_packets self)
       (message_queue self ++ [provider_details channel_info request_id VNone])
       (trace self ++ [Append (provider_details channel_info request_id VNone)])).
Proof.
  intros (Hpd & Hw & Hrid & Hreq).
  unfold _assign_unit_to_agent. unfold_ops. simpl. rewrite Hpd. simpl. rewrite Hw. simpl.
  rewrite Hreq. simpl. done.
Qed.

(** C5.  For a registration packet whose registration id is unknown and
    for which [get_valid_units_for_worker] answers the empty list,
    [_register_agent] appends a [PROVIDER_DETAILS] reply with [agent_id]
    [None] and goes on to fetch the blueprint and run the onboarding
    checks; it ends having appended a second [PROVIDER_DETAILS] reply to the
    same [request_id], whose [agent_id] is [None] again or is an onboarding
    id sent with [onboard_data]. *)
Theorem _register_agent_no_units_replies_twice packet channel_info self
    crowd_data worker_id request_id agent_registration_id :
  registration packet crowd_data worker_id request_id agent_registration_id →
  agents_by_registration_id self !! agent_registration_id = None →
  get_valid_units_for_worker (trace self) (task_run (task_runner (job channel_info)))
    worker_id = [] →
  let run := task_run (task_runner (job channel_info)) in
  let result := _register_agent packet channel_info self in
  ∃ second blueprint events,
    result.1 = Return () ∧
    message_queue result.2
    = message_queue self ++ [provider_details channel_info request_id VNone; second] ∧
    trace result.2
    = trace self ++
      [GetValidUnitsForWorker run worker_id [];
       Append (provider_details channel_info request_id VNone);
       GetBlueprint run blueprint] ++ events ∧
    Append second ∈ events ∧
    packet_type second = PACKET_TYPE_PROVIDER_DETAILS ∧
    receiver_id second = channel_id channel_info ∧
    data second !! "request_id" = Some request_id ∧
    (data second !! "agent_id" = Some VNone ∨
     ∃ onboard_id, data second !! "agent_id" = Some (VStr onboard_id) ∧
                   is_Some (data second !! "onboard_data")).
Proof.
  intros Hreg Hnew Hunits run result.
  pose proof Hreg as (Hpd & Hw & Hrid & Hreq).
  subst result. unfold _register_agent. unfold_ops. simpl.
  rewrite Hpd. simpl. rewrite Hrid. simpl. rewrite Hnew. rewrite Hw. simpl.
  fold run. rewrite Hunits. simpl. rewrite Hreq. simpl.
  set (blueprint := get_blueprint _ run).
  set (self1 := mkSupervisor _ _ _ _ _ _ _).
  assert (∀ self', self' = self1 →
            ∃ events,
              (_assign_unit_to_agent packet channel_info [] self').1 = Return () ∧
              message_queue (_assign_unit_to_agent packet channel_info [] self').2
              = message_queue self
                ++ [provider_details channel_info request_id VNone;
                    provider_details channel_info request_id VNone] ∧
              trace (_assign_unit_to_agent packet channel_info [] self').2
              = trace self ++
                [GetValidUnitsForWorker run worker_id [];
                 Append (provider_details channel_info request_id VNone);
                 GetBlueprint run blueprint] ++ events ∧
              Append (provider_details channel_info request_id VNone) ∈ events)
    as Hdirect.
  { intros self' ->. rewrite (_assign_unit_to_agent_nil _ _ _ _ _ _ _ Hreg). simpl.
    exists [Append (provider_details channel_info request_id VNone)].
    split_and!; [done| | |set_solver].
    - rewrite -(assoc_L (++)). done.
    - rewrite -!(assoc_L (++)). done. }
  destruct (is_OnboardingRequired blueprint && use_onboarding blueprint) eqn:Hon; simpl;
    last first.
  { destruct (Hdirect self1 eq_refl) as (events & ? & ? & ? & ?).
    exists (provider_details channel_info request_id VNone), blueprint, events.
    split_and!; try done. by left. }
  destruct (is_disqualified _ worker_id _) eqn:Hdis; simpl.
  { rewrite ?Hreq. simpl.
    exists (provider_details channel_info request_id VNone), blueprint. eexists.
    split_and!; [done| | | |done|done|done|by left].
    - rewrite -(assoc_L (++)). done.
    - rewrite -!(assoc_L (++)). simpl. reflexivity.
    - set_solver. }
  destruct (is_qualified _ worker_id _) eqn:Hq; simpl.
  { set (self2 := mkSupervisor _ _ _ _ _ _ _).
    rewrite (_assign_unit_to_agent_nil _ _ _ _ _ _ _ Hreg). simpl.
    exists (provider_details channel_info request_id VNone), blueprint. eexists.
    split_and!; [done| | | |done|done|done|by left].
    - rewrite -(assoc_L (++)). done.
    - rewrite -!(assoc_L (++)). simpl. reflexivity.
    - set_solver. }
  rewrite ?Hreq. simpl. rewrite ?lookup_insert_eq. simpl. rewrite ?lookup_insert_eq. simpl.
  set (onboard_data := get_onboarding_data _ _ _).
  set (onboard_agent := OnboardingAgent_new _ _ _).
  eexists _, blueprint, _.
  split_and!.
  - done.
  - rewrite -(assoc_L (++)). simpl. reflexivity.
  - rewrite -!(assoc_L (++)). simpl. reflexivity.
  - in_list.
  - done.
  - done.
  - done.
  - right. eexists. split; [done|]. by eexists.
Qed.

(** ** Reconnection *)

(** A [NEW_AGENT] packet for the registration id, as far as the reconnection
    path reads it. *)
Definition arrival (agent_registration_id : string) (packet : Packet) : Prop :=
  ∃ crowd_data,
    data packet !! "provider_data" = Some (VDict crowd_data) ∧
    crowd_data !! "agent_registration_id" = Some (VStr agent_registration_id) ∧
    is_Some (data packet !! "request_id").

(** The registration id is known, and its [AgentInfo] is the one tracked in
    [agents] under its agent's id: what [_assign_unit_to_agent] sets up. *)
Definition known_as (self : Supervisor) (agent_registration_id : string)
    (known : ref) (info : AgentInfo) : Prop :=
  agents_by_registration_id self !! agent_registration_id = Some known ∧
  store self !! known = Some info ∧
  agents self !! agent_id (agent info) = Some known.

(** The reply to a reconnecting [packet]. *)
Definition reconnected (info : AgentInfo) (arrived : Packet * ChannelInfo) : Packet :=
  provider_details arrived.2 (default VNone (data arrived.1 !! "request_id"))
    (VStr (agent_id (agent info))).

(** A sequence of [NEW_AGENT] packets, each handled by [_register_agent]
    on the channel it arrived on. *)
Definition register_agents (arrivals : list (Packet * ChannelInfo)) : M (list ()) :=
  for_each (λ arrived, _register_agent arrived.1 arrived.2) arrivals.

Lemma reconnect_run packet channel_info self agent_registration_id known info :
  arrival agent_registration_id packet →
  known_as self agent_registration_id known info →
  _register_agent packet channel_info self
  = (Return (),
     mkSupervisor
       (<[known := mkAgentInfo (agent info) (channel_id channel_info)
                     (assignment_thread info)]> (store self))
       (agents self) (agents_by_registration_id self) (channels self)
       (onboarding_packets self)
       (message_queue self ++ [reconnected info (packet, channel_info)])
       (trace self ++ [Append (reconnected info (packet, channel_info))])).
Proof.
  intros (crowd_data & Hpd & Hrid & [request_id Hreq]) (Hknown & Hinfo & Htracked).
  unfold _register_agent. unfold_ops. simpl.
  rewrite Hpd. simpl. rewrite Hrid. simpl. rewrite Hknown. rewrite Hinfo. simpl.
  unfold get_agent_id. rewrite Htracked. simpl. rewrite Hinfo. simpl. rewrite Hreq. simpl.
  unfold reconnected, provider_details. simpl. rewrite Hreq. done.
Qed.

Lemma register_agents_reconnect agent_registration_id known arrivals :
  ∀ self info,
    Forall (λ arrived, arrival agent_registration_id arrived.1) arrivals →
    known_as self agent_registration_id known info →
    ∃ units,
      register_agents arrivals self
      = (Return units,
         mkSupervisor
           (<[known := mkAgentInfo (agent info)
                         (foldl (λ _ arrived, channel_id arrived.2)
                                (used_channel_id info) arrivals)
                         (assignment_thread info)]> (store self))
           (agents self) (agents_by_registration_id self) (channels self)
           (onboarding_packets self)
           (message_queue self ++ (reconnected info <$> arrivals))
           (trace self ++ (Append <$> (reconnected info <$> arrivals)))).
Proof.
  induction arrivals as [|[packet channel_info] arrivals IH]; intros self info Harr Hk.
  { exists []. simpl. rewrite !app_nil_r.
    destruct Hk as (_ & Hinfo & _). rewrite insert_id; [|by destruct info].
    by destruct self. }
  apply Forall_cons in Harr as [Hp Harr]. simpl in Hp.
  unfold register_agents. simpl. unfold mbind, M_bind. simpl.
  rewrite (reconnect_run _ _ _ _ _ _ Hp Hk).
  set (info1 := mkAgentInfo _ _ _). set (self1 := mkSupervisor _ _ _ _ _ _ _).
  destruct (IH self1 info1 Harr) as [units Hrun].
  { destruct Hk as (? & ? & ?). split_and!; subst self1; simpl; [done| |done].
    by rewrite lookup_insert_eq. }
  unfold register_agents in Hrun. rewrite Hrun.
  exists (() :: units). subst self1 info1; simpl.
  rewrite insert_insert_eq -!(assoc_L (++)). done.
Qed.

(** An assignment that is granted a unit makes the registration id known,
    in the sense the reconnection path relies on. *)
Lemma _assign_unit_to_agent_makes_known packet channel_info units self
    crowd_data worker_id request_id agent_registration_id unit :
  registration packet crowd_data worker_id request_id agent_registration_id →
  (reserve_first (task_run (task_runner (job channel_info))) units self).1
  = Return (Some unit) →
  ∃ known info,
    store self !! known = None ∧
    known_as (_assign_unit_to_agent packet channel_info units self).2
      agent_registration_id known info.
Proof.
  intros Hreg Hres.
  destruct (_assign_unit_to_agent_run packet channel_info units self _ _ _ _ Hreg)
    as (failed & granted & Hg & Hrun).
  rewrite Hg in Hres. destruct granted as [[unit' answer]|]; simplify_eq/=.
  destruct Hrun as (rest & -> & Hrun). rewrite Hrun.
  set (new_agent := new_from_provider_data _ _ _ _ _).
  set (known := fresh (dom (store self))).
  set (self1 := mkSupervisor _ _ _ _ _ _ _).
  destruct (launch_individual_tasks_frame channel_info unit known self1)
    as (o & st & events & -> & _ & Hsame).
  destruct (Hsame known (mkAgentInfo new_agent (channel_id channel_info) None))
    as (info & Hinfo & Hid).
  { subst self1; simpl. by rewrite lookup_insert_eq. }
  exists known, info. split; [apply not_elem_of_dom, is_fresh|].
  split_and!; subst self1; simpl.
  - by rewrite lookup_insert_eq.
  - done.
  - simpl in Hid. rewrite Hid. by rewrite lookup_insert_eq.
Qed.

(** C2, as amended.  When the registration id of a [NEW_AGENT] packet is
    a key of [agents_by_registration_id] (its [AgentInfo] being the one
    tracked in [agents]), [_register_agent] only sets that [AgentInfo]'s
    [used_channel_id] to the arriving channel's id and appends a
    [PROVIDER_DETAILS] reply with the packet's [request_id] and the existing
    agent's id: no [AgentInfo] is created, no collaborator is called.  For a
    sequence of such packets, arriving once the registration id is known,
    the same holds of each: every reply carries the same agent id, and the
    [AgentInfo] ends on the channel of the last arrival. *)
Theorem _register_agent_reconnects agent_registration_id known arrivals self info :
  Forall (λ arrived, arrival agent_registration_id arrived.1) arrivals →
  known_as self agent_registration_id known info →
  (∀ packet channel_info,
     arrival agent_registration_id packet →
     _register_agent packet channel_info self
     = (Return (),
        mkSupervisor
          (<[known := mkAgentInfo (agent info) (channel_id channel_info)
                        (assignment_thread info)]> (store self))
          (agents self) (agents_by_registration_id self) (channels self)
          (onboarding_packets self)
          (message_queue self
           ++ [provider_details channel_info (default VNone (data packet !! "request_id"))
                 (VStr (agent_id (agent info)))])
          (trace self
           ++ [Append (provider_details channel_info
                         (default VNone (data packet !! "request_id"))
                         (VStr (agent_id (agent info))))]))) ∧
  (∃ units,
     register_agents arrivals self
     = (Return units,
        mkSupervisor
          (<[known := mkAgentInfo (agent info)
                        (foldl (λ _ arrived, channel_id arrived.2)
                               (used_channel_id info) arrivals)
                        (assignment_thread info)]> (store self))
          (agents self) (agents_by_registration_id self) (channels self)
          (onboarding_packets self)
          (message_queue self ++ (reconnected info <$> arrivals))
          (trace self ++ (Append <$> (reconnected info <$> arrivals))))) ∧
  dom (store (register_agents arrivals self).2) = dom (store self).
Proof.
  intros Harr Hk. split_and!.
  - intros packet channel_info Hp.
    by rewrite (reconnect_run _ _ _ _ _ _ Hp Hk).
  - exact (register_agents_reconnect _ _ _ _ _ Harr Hk).
  - destruct (register_agents_reconnect _ _ _ _ _ Harr Hk) as [units ->]. simpl.
    destruct Hk as (_ & Hinfo & _).
    rewrite dom_insert_L. apply (elem_of_dom_2 (store self)) in Hinfo. set_solver.
Qed.

End registration.

(** ** Runs in the small world *)

Definition request_1 : Packet := Demo.new_agent "request-1" "worker-1" "registration-1".
Definition request_2 : Packet := Demo.new_agent "request-2" "worker-2" "registration-2".

(** The same worker page registering again, under the same registration
    id. *)
Definition request_1_again : Packet :=
  Demo.new_agent "request-3" "worker-1" "registration-1".

Lemma registration_new_agent request_id worker_id agent_registration_id :
  registration (Demo.new_agent request_id worker_id agent_registration_id)
    {[ "worker_id" := VStr worker_id;
       "agent_registration_id" := VStr agent_registration_id ]}
    (VStr worker_id) (VStr request_id) agent_registration_id.
Proof. by split_and!. Defined.

Lemma arrival_new_agent request_id worker_id agent_registration_id :
  arrival agent_registration_id (Demo.new_agent request_id worker_id agent_registration_id).
Proof. eexists. split_and!; [reflexivity..|]. by eexists. Defined.




(** In the run of the witness, unit ["taken"] is refused and unit ["1"] goes
    to the new agent. *)
Example _assign_unit_to_agent_demo :
  trace (@_assign_unit_to_agent Demo.states Demo.world request_1
           (Demo.channel "up" false "run") [mkUnit "taken"; mkUnit "1"]
           (Demo.fresh_supervisor false "run")).2
  = [ReserveUnit "run" (mkUnit "taken") None;
     ReserveUnit "run" (mkUnit "1") (Some (mkUnit "1"));
     NewFromProviderData "mock" (VStr "worker-1") (mkUnit "1")
       {[ "worker_id" := VStr "worker-1";
          "agent_registration_id" := VStr "registration-1" ]}
       (mkAgent "agent-1" "none" false []);
     Append (provider_details (Demo.channel "up" false "run") (VStr "request-1")
               (VStr "agent-1"));
     SetAgents "agent-1" 0;
     SetAgentsByRegistrationId "registration-1" 0;
     ClearReservation "run" (mkUnit "1");
     ThreadStart (UnitThread (mkUnit "1") 0 "Unit-thread-1")].
Proof. reflexivity. Qed.

(** ** Draining the queues *)

Section queues.
Context `{AgentState} `{Collaborators}.

(** [info] with its agent's [pending_observations] replaced. *)
Definition with_pending (info : AgentInfo) (q : list Packet) : AgentInfo :=
  mkAgentInfo (mkAgent (agent_id (agent info)) (db_status (agent info))
                       (has_updated_status (agent info)) q)
              (used_channel_id info) (assignment_thread info).

(** What a drain that sent [sent] and stopped in front of [rest] asked of
    the channels: a successful send for each packet of [sent], in order, and
    a failed one for the head of [rest]. *)
Definition drained (channel_of : Packet → string) (sent rest : list Packet)
  : list (string * Packet * bool) :=
  ((λ p, (channel_of p, p, true)) <$> sent) ++
  match rest with
  | [] => []
  | p :: _ => [(channel_of p, p, false)]
  end.

Lemma with_pending_id info : with_pending info (pending_observations (agent info)) = info.
Proof. by destruct info as [[] ? ?]. Qed.

Lemma try_send_loop_run channel_info agent_info fuel :
  ∀ self info,
    store self !! agent_info = Some info →
    length (pending_observations (agent info)) < fuel →
    ∃ sent rest events,
      pending_observations (agent info) = sent ++ rest ∧
      sends events = drained (λ _, channel_id channel_info) sent rest ∧
      try_send_loop fuel agent_info channel_info self
      = (Return (),
         mkSupervisor (<[agent_info := with_pending info rest]> (store self))
           (agents self) (agents_by_registration_id self) (channels self)
           (onboarding_packets self) (message_queue self) (trace self ++ events)).
Proof.
  induction fuel as [|fuel IH]; intros self info Hs Hlen; [lia|].
  simpl. unfold_ops. simpl. rewrite Hs. simpl.
  destruct (pending_observations (agent info)) as [|curr_obs rest] eqn:Hq.
  - exists [], [], []. split_and!; [done..|].
    rewrite app_nil_r. rewrite -Hq with_pending_id insert_id //. by destruct self.
  - rewrite Hs. simpl.
    destruct (send (trace self) (channel_id channel_info) curr_obs) eqn:Hsend; simpl.
    + set (self1 := mkSupervisor _ _ _ _ _ _ _).
      destruct (IH self1 (with_pending info rest)) as (sent & rest' & events & Hq' & Hev & Hrun).
      { subst self1; simpl. by rewrite lookup_insert_eq. }
      { simpl in *. lia. }
      simpl in Hq'. subst rest.
      exists (curr_obs :: sent), rest', (Send (channel_id channel_info) curr_obs true :: events).
      split_and!; [done| |].
      * unfold drained in *. simpl. by rewrite Hev.
      * rewrite Hrun. subst self1; simpl.
        rewrite insert_insert_eq -(assoc_L (++)). done.
    + rewrite lookup_insert_eq. simpl.
      exists [], (curr_obs :: rest),
        [Send (channel_id channel_info) curr_obs false;
         Print (Failed_to_send_packet curr_obs (channel_id channel_info))].
      split_and!; [done..|].
      rewrite insert_insert_eq -(assoc_L (++)). done.
Qed.

Lemma send_queue_loop_run fuel :
  ∀ self,
    (∀ p, p ∈ message_queue self → is_Some (channels self !! receiver_id p)) →
    length (message_queue self) < fuel →
    ∃ sent rest events,
      message_queue self = sent ++ rest ∧
      sends events
      = drained (λ p, default "" (channel_id <$> channels self !! receiver_id p)) sent rest ∧
      send_queue_loop fuel self
      = (Return (),
         mkSupervisor (store self) (agents self) (agents_by_registration_id self)
           (channels self) (onboarding_packets self) rest (trace self ++ events)).
Proof.
  induction fuel as [|fuel IH]; intros self Hch Hlen; [lia|].
  simpl. unfold_ops. simpl.
  destruct (message_queue self) as [|curr_obs rest] eqn:Hq.
  - exists [], [], []. split_and!; [done..|].
    rewrite app_nil_r. destruct self; simpl in *; by subst.
  - destruct (Hch curr_obs) as [ci Hci]; [set_solver|].
    rewrite Hci. simpl.
    destruct (send (trace self) (channel_id ci) curr_obs) eqn:Hsend; simpl.
    + set (self1 := mkSupervisor _ _ _ _ _ _ _).
      destruct (IH self1) as (sent & rest' & events & Hq' & Hev & Hrun).
      { subst self1; simpl. intros p Hp. apply Hch. set_solver. }
      { subst self1; simpl in *. lia. }
      subst self1; simpl in *. subst rest.
      exists (curr_obs :: sent), rest', (Send (channel_id ci) curr_obs true :: events).
      split_and!; [done| |].
      * unfold drained in *. simpl. by rewrite Hev Hci.
      * rewrite Hrun. simpl.
        rewrite -(assoc_L (++)). done.
    + exists [], (curr_obs :: rest),
        [Send (channel_id ci) curr_obs false;
         Print (Failed_to_send_packet curr_obs (receiver_id curr_obs))].
      split_and!; [done| |].
      * unfold drained. simpl. by rewrite Hci.
      * rewrite -(assoc_L (++)). done.
Qed.

(** C8, as amended.  When the agent's channel and the receivers of the
    queued system packets are registered channels,
    [_try_send_agent_messages] and
    [_send_message_queue] return having split their queue into the packets
    sent and the rest: the sends were asked in queue order, each succeeded
    but the last one when the rest is not empty, which failed on the head of
    the rest; and the queue is left holding exactly the rest, in its
    original order. *)
Theorem queues_drain_in_order self agent_info info channel_info :
  store self !! agent_info = Some info →
  channels self !! used_channel_id info = Some channel_info →
  Forall (λ p, is_Some (channels self !! receiver_id p)) (message_queue self) →
  (∃ sent rest events,
     pending_observations (agent info) = sent ++ rest ∧
     sends events = drained (λ _, channel_id channel_info) sent rest ∧
     _try_send_agent_messages agent_info self
     = (Return (),
        mkSupervisor (<[agent_info := with_pending info rest]> (store self))
          (agents self) (agents_by_registration_id self) (channels self)
          (onboarding_packets self) (message_queue self) (trace self ++ events))) ∧
  (∃ sent rest events,
     message_queue self = sent ++ rest ∧
     sends events
     = drained (λ p, default "" (channel_id <$> channels self !! receiver_id p)) sent rest ∧
     _send_message_queue self
     = (Return (),
        mkSupervisor (store self) (agents self) (agents_by_registration_id self)
          (channels self) (onboarding_packets self) rest (trace self ++ events))).
Proof.
  intros Hs Hc Hq. split.
  - destruct (try_send_loop_run channel_info agent_info
                (S (length (pending_observations (agent info)))) self info Hs)
      as (sent & rest & events & ? & ? & Hrun); [lia|].
    exists sent, rest, events. split_and!; [done..|].
    unfold _try_send_agent_messages. unfold_ops. simpl. rewrite Hs. simpl.
    rewrite Hc. simpl. exact Hrun.
  - destruct (send_queue_loop_run (S (length (message_queue self))) self)
      as (sent & rest & events & ? & ? & Hrun).
    { intros p Hp. by eapply Forall_forall in Hq. }
    { lia. }
    exists sent, rest, events. split_and!; [done..|].
    unfold _send_message_queue. unfold_ops. exact Hrun.
Qed.

End queues.

(** A supervisor with three replies queued, the second for the channel that
    is down, and an agent on the channel ["up"] with two observations. *)
Definition queued_supervisor : Supervisor :=
  mkSupervisor
    {[ 0 := mkAgentInfo (mkAgent "agent-1" "in task" false
                           [Demo.observation "agent-1" "hello";
                            Demo.observation "agent-1" "world"])
                        "up" None ]}
    {[ "agent-1" := 0 ]} {[ "registration-1" := 0 ]}
    (channels (Demo.fresh_supervisor false "run"))
    ∅
    [Demo.observation "up" "first"; Demo.observation "down" "second";
     Demo.observation "up" "third"]
    [].

Example queued_supervisor_drain :
  (@_send_message_queue Demo.world queued_supervisor).2.(message_queue)
  = [Demo.observation "down" "second"; Demo.observation "up" "third"].
Proof. reflexivity. Qed.

(** A reply queued for a channel that is no longer registered: the lookup
    of the channel raises after the packet was popped, and the packet is
    neither sent nor put back. *)
Example _send_message_queue_unknown_receiver :
  let self :=
    mkSupervisor ∅ ∅ ∅ (channels (Demo.fresh_supervisor false "run")) ∅
      [Demo.observation "closed" "first"; Demo.observation "up" "second"] [] in
  @_send_message_queue Demo.world self
  = (Raise (KeyError "closed"),
     mkSupervisor ∅ ∅ ∅ (channels self) ∅ [Demo.observation "up" "second"] []).
Proof. reflexivity. Qed.

(** C8, as it was stated, fails.  The channel ["up"] is closed while three
    replies are queued, the first of them for ["up"].  The next drain pops
    that reply, raises on the lookup of its channel and sends nothing: no
    send has returned false, yet the queue no longer holds its first
    packet. *)
Lemma drain_after_close_channel_loses_a_packet :
  let closed := (Closing.close_channel "up" queued_supervisor).2 in
  let drained := @_send_message_queue Demo.world closed in
  (Closing.close_channel "up" queued_supervisor).1 = Return () ∧
  message_queue closed
  = [Demo.observation "up" "first"; Demo.observation "down" "second";
     Demo.observation "up" "third"] ∧
  drained.1 = Raise (KeyError "up") ∧
  sends (events_of (@_send_message_queue Demo.world) closed) = [] ∧
  message_queue drained.2
  = [Demo.observation "down" "second"; Demo.observation "up" "third"].
Proof. split_and!; reflexivity. Qed.

Lemma queues_drain_in_order_witness :
  ∃ sent rest events,
    [Demo.observation "up" "first"; Demo.observation "down" "second";
     Demo.observation "up" "third"] = sent ++ rest ∧
    sends events
    = drained (λ p, default "" (channel_id <$> channels queued_supervisor !! receiver_id p))
        sent rest ∧
    @_send_message_queue Demo.world queued_supervisor
    = (Return (),
       mkSupervisor (store queued_supervisor) (agents queued_supervisor)
         (agents_by_registration_id queued_supervisor) (channels queued_supervisor)
         (onboarding_packets queued_supervisor) rest (trace queued_supervisor ++ events)).
Proof.
  refine (proj2 (@queues_drain_in_order Demo.world queued_supervisor 0 _
                   (Demo.channel "up" false "run") eq_refl eq_refl _)).
  repeat constructor; eexists; reflexivity.
Defined.


(** *** No unit for the worker *)

Lemma _register_agent_no_units_replies_twice_witness :
  let channel_info := Demo.channel "up" false "empty-run" in
  let self := Demo.fresh_supervisor false "empty-run" in
  let result := @_register_agent Demo.states Demo.world request_1 channel_info self in
  ∃ second blueprint events,
    result.1 = Return () ∧
    message_queue result.2
    = message_queue self
      ++ [provider_details channel_info (VStr "request-1") VNone; second] ∧
    trace result.2
    = trace self ++
      [GetValidUnitsForWorker "empty-run" (VStr "worker-1") [];
       Append (provider_details channel_info (VStr "request-1") VNone);
       GetBlueprint "empty-run" blueprint] ++ events ∧
    Append second ∈ events ∧
    packet_type second = PACKET_TYPE_PROVIDER_DETAILS ∧
    receiver_id second = channel_id channel_info ∧
    data second !! "request_id" = Some (VStr "request-1") ∧
    (data second !! "agent_id" = Some VNone ∨
     ∃ onboard_id, data second !! "agent_id" = Some (VStr onboard_id) ∧
                   is_Some (data second !! "onboard_data")).
Proof.
  exact (@_register_agent_no_units_replies_twice Demo.states Demo.world request_1
           (Demo.channel "up" false "empty-run") (Demo.fresh_supervisor false "empty-run")
           _ _ _ _
           (registration_new_agent "request-1" "worker-1" "registration-1")
           eq_refl eq_refl).
Defined.

(** The two replies of that run. *)
Example _register_agent_no_units_demo :
  message_queue (@_register_agent Demo.states Demo.world request_1
                   (Demo.channel "up" false "empty-run")
                   (Demo.fresh_supervisor false "empty-run")).2
  = [provider_details (Demo.channel "up" false "empty-run") (VStr "request-1") VNone;
     provider_details (Demo.channel "up" false "empty-run") (VStr "request-1") VNone].
Proof. reflexivity. Qed.

(** *** Two workers on one concurrent assignment *)

(** The supervisor after the first worker was given unit ["1"]: its agent
    waits for the second slot of the assignment to be filled. *)
Definition waiting_supervisor : Supervisor :=
  mkSupervisor
    {[ 0 := mkAgentInfo (mkAgent "agent-1" "waiting" true []) "up" None ]}
    {[ "agent-1" := 0 ]}
    {[ "registration-1" := 0 ]}
    (channels (Demo.fresh_supervisor true "run"))
    ∅
    [provider_details (Demo.channel "up" true "run") (VStr "request-1") (VStr "agent-1")]
    [ReserveUnit "run" (mkUnit "1") (Some (mkUnit "1"));
     NewFromProviderData "mock" (VStr "worker-1") (mkUnit "1")
       {[ "worker_id" := VStr "worker-1";
          "agent_registration_id" := VStr "registration-1" ]}
       (mkAgent "agent-1" "none" false []);
     Append (provider_details (Demo.channel "up" true "run") (VStr "request-1")
               (VStr "agent-1"));
     SetAgents "agent-1" 0;
     SetAgentsByRegistrationId "registration-1" 0;
     ClearReservation "run" (mkUnit "1");
     GetAssignment (mkUnit "1") (mkAssignment "assignment-1");
     GetAgents (mkAssignment "assignment-1") [Some "agent-1"; None];
     UpdateStatus "agent-1" "waiting"].

Example first_worker_waits :
  @_assign_unit_to_agent Demo.states Demo.world request_1 (Demo.channel "up" true "run")
    [mkUnit "1"] (Demo.fresh_supervisor true "run")
  = (Return (), waiting_supervisor).
Proof. reflexivity. Qed.

(** The second worker fills the assignment: both agents are in task, on one
    thread. *)
Example second_worker_starts_the_assignment :
  let thread :=
    AssignmentThread (mkAssignment "assignment-1") [0; 1] "Assignment-thread-assignment-1" in
  let self :=
    (@_assign_unit_to_agent Demo.states Demo.world request_2 (Demo.channel "up" true "run")
       [mkUnit "2"] waiting_supervisor).2 in
  store self
  = {[ 0 := mkAgentInfo (mkAgent "agent-1" "in task" true []) "up" (Some thread);
       1 := mkAgentInfo (mkAgent "agent-2" "in task" true []) "up" (Some thread) ]} ∧
  thread_starts (trace self) = [thread].
Proof. split; reflexivity. Qed.



(** *** The same registration id twice *)

(** The supervisor after [request_1] was assigned unit ["1"] by a task
    runner that is not concurrent. *)
Definition assigned_supervisor : Supervisor :=
  (@_assign_unit_to_agent Demo.states Demo.world request_1 (Demo.channel "up" false "run")
     [mkUnit "taken"; mkUnit "1"] (Demo.fresh_supervisor false "run")).2.

Lemma assigned_supervisor_known :
  known_as assigned_supervisor "registration-1" 0
    (mkAgentInfo (mkAgent "agent-1" "none" false []) "up"
       (Some (UnitThread (mkUnit "1") 0 "Unit-thread-1"))).
Proof. by split_and!. Defined.

Lemma _register_agent_reconnects_witness :
  dom (store (@register_agents Demo.states Demo.world
                [(request_1_again, Demo.channel "down" false "run");
                 (request_1_again, Demo.channel "up" false "run")]
                assigned_supervisor).2)
  = dom (store assigned_supervisor).
Proof.
  refine (proj2 (proj2 (@_register_agent_reconnects Demo.states Demo.world
            "registration-1" 0
            [(request_1_again, Demo.channel "down" false "run");
             (request_1_again, Demo.channel "up" false "run")]
            assigned_supervisor _ _ assigned_supervisor_known))).
  repeat constructor; apply arrival_new_agent.
Defined.

(** With a blueprint that requires onboarding, a worker who has not passed
    it is given an onboarding agent, and the registration id stays unknown:
    the same page registering again is given another one. *)
Definition onboarding_supervisor_1 : Supervisor :=
  (@_register_agent Demo.states Demo.world request_1
     (Demo.channel "up" false "onboarding-run")
     (Demo.fresh_supervisor false "onboarding-run")).2.

Definition onboarding_supervisor_2 : Supervisor :=
  (@_register_agent Demo.states Demo.world request_1_again
     (Demo.channel "up" false "onboarding-run") onboarding_supervisor_1).2.

(** C2, as it was stated, fails: [request_1] and [request_1_again] share
    their registration id, and each of them produces a new [AgentInfo]. *)
Lemma second_registration_produces_an_agent_info :
  arrival "registration-1" request_1 ∧
  arrival "registration-1" request_1_again ∧
  store (Demo.fresh_supervisor false "onboarding-run") = ∅ ∧
  store onboarding_supervisor_1
  = {[ 0 := mkAgentInfo (mkAgent "onboarding_1" "onboarding" true []) "up"
              (Some (OnboardThread 0 "Onboard-thread-onboarding_1")) ]} ∧
  agents_by_registration_id onboarding_supervisor_1 !! "registration-1" = None ∧
  store onboarding_supervisor_1 !! 1 = None ∧
  store onboarding_supervisor_2 !! 1
  = Some (mkAgentInfo (mkAgent "onboarding_2" "onboarding" true []) "up"
            (Some (OnboardThread 1 "Onboard-thread-onboarding_2"))) ∧
  agents onboarding_supervisor_2 !! "onboarding_2" = Some 1.
Proof.
  split_and!; try apply arrival_new_agent; reflexivity.
Qed.

End SupervisorFacts.

(* ===================================================================== *)
(** * More about the Supervisor: what its handlers do on every input *)
(* ===================================================================== *)

Module SupervisorMore.
Import Supervisor SupervisorFacts.

(** ** The system queue, whatever it holds *)

Section queue.
Context `{AgentState} `{Collaborators}.

(** The supervisor after a drain: only the queue and the trace differ. *)
Definition after_drain (self : Supervisor) (rest : list Packet) (events : list Event)
  : Supervisor :=
  mkSupervisor (store self) (agents self) (agents_by_registration_id self)
    (channels self) (onboarding_packets self) rest (trace self ++ events).

(** The channel a queued packet is sent on. *)
Definition channel_for (self : Supervisor) (p : Packet) : string :=
  default "" (channel_id <$> channels self !! receiver_id p).

(** How a drain of the system queue ends: with the queue empty, in front of
    a packet the channel refused, or on a packet whose receiver is not a
    registered channel. *)
Inductive Drain :=
| Emptied
| Refused (p : Packet)
| Unroutable (p : Packet).

Lemma send_queue_loop_total fuel :
  ∀ self, length (message_queue self) < fuel →
    ∃ sent rest events how,
      message_queue self = sent ++ rest ∧
      Forall (λ p, is_Some (channels self !! receiver_id p)) sent ∧
      match how with
      | Emptied =>
          rest = [] ∧
          sends events = (λ p, (channel_for self p, p, true)) <$> sent ∧
          send_queue_loop fuel self = (Return (), after_drain self [] events)
      | Refused p =>
          (∃ rest', rest = p :: rest') ∧
          is_Some (channels self !! receiver_id p) ∧
          sends events
          = ((λ p, (channel_for self p, p, true)) <$> sent) ++ [(channel_for self p, p, false)] ∧
          send_queue_loop fuel self = (Return (), after_drain self rest events)
      | Unroutable p =>
          channels self !! receiver_id p = None ∧
          sends events = (λ p, (channel_for self p, p, true)) <$> sent ∧
          ∃ rest', rest = p :: rest' ∧
            send_queue_loop fuel self
            = (Raise (KeyError (receiver_id p)), after_drain self rest' events)
      end.
Proof.
  induction fuel as [|fuel IH]; intros self Hlen; [lia|].
  simpl. unfold_ops. simpl.
  destruct (message_queue self) as [|curr_obs rest] eqn:Hq.
  { exists [], [], [], Emptied. split_and!; [done..|].
    unfold after_drain. rewrite app_nil_r. destruct self; simpl in *; by subst. }
  destruct (channels self !! receiver_id curr_obs) as [ci|] eqn:Hci; simpl; last first.
  { exists [], (curr_obs :: rest), [], (Unroutable curr_obs).
    split_and!; [done..|]. exists rest. split; [done|].
    unfold after_drain. by rewrite app_nil_r. }
  assert (channel_for self curr_obs = channel_id ci) as Hfor.
  { unfold channel_for. by rewrite Hci. }
  destruct (send (trace self) (channel_id ci) curr_obs) eqn:Hsend; simpl; last first.
  { exists [], (curr_obs :: rest),
      [Send (channel_id ci) curr_obs false;
       Print (Failed_to_send_packet curr_obs (receiver_id curr_obs))],
      (Refused curr_obs).
    split_and!; [done|done|by eexists|by eexists|by rewrite /= Hfor|].
    unfold after_drain. by rewrite -(assoc_L (++)). }
  set (self1 := mkSupervisor _ _ _ _ _ _ _).
  destruct (IH self1) as (sent & rest' & events & how & Hq' & Hsent & Hhow).
  { subst self1; simpl in *. lia. }
  subst self1; simpl in *. subst rest.
  exists (curr_obs :: sent), rest', (Send (channel_id ci) curr_obs true :: events), how.
  split_and!; [done|by constructor|].
  unfold after_drain, channel_for in *. simpl in *.
  destruct how as [|p|p].
  - destruct Hhow as (-> & Hev & ->). rewrite Hev Hci -(assoc_L (++)). done.
  - destruct Hhow as (Hr & Hp & Hev & ->). rewrite Hev Hci -(assoc_L (++)). done.
  - destruct Hhow as (Hp & Hev & rest'' & -> & ->).
    rewrite Hev Hci -(assoc_L (++)). split_and!; [done..|]. by exists rest''.
Qed.

(** X7.  [_send_message_queue] on any supervisor.  It always comes to an
    end, having sent a prefix of the queue in queue order, each packet on
    the channel registered under its [receiver_id], and it ends in one of
    three ways: the queue is empty; a channel refused a packet, which is
    the head of the queue again; or the [receiver_id] of a packet is not a
    key of [channels], and then the lookup raises [KeyError] after the
    packet was popped: that packet is neither sent nor put back, the
    packets behind it stay queued.  Nothing but the queue and the trace
    changes. *)
Theorem _send_message_queue_total self :
  ∃ sent rest events how,
    message_queue self = sent ++ rest ∧
    Forall (λ p, is_Some (channels self !! receiver_id p)) sent ∧
    match how with
    | Emptied =>
        rest = [] ∧
        sends events = (λ p, (channel_for self p, p, true)) <$> sent ∧
        _send_message_queue self = (Return (), after_drain self [] events)
    | Refused p =>
        (∃ rest', rest = p :: rest') ∧
        is_Some (channels self !! receiver_id p) ∧
        sends events
        = ((λ p, (channel_for self p, p, true)) <$> sent) ++ [(channel_for self p, p, false)] ∧
        _send_message_queue self = (Return (), after_drain self rest events)
    | Unroutable p =>
        channels self !! receiver_id p = None ∧
        sends events = (λ p, (channel_for self p, p, true)) <$> sent ∧
        ∃ rest', rest = p :: rest' ∧
          _send_message_queue self
          = (Raise (KeyError (receiver_id p)), after_drain self rest' events)
    end.
Proof.
  unfold _send_message_queue. unfold_ops.
  apply send_queue_loop_total. lia.
Qed.

End queue.

(** ** What a handler may append to the system queue *)

(** A statement that, on every supervisor, leaves [channels] alone and only
    appends to [message_queue]: at most [hi] packets, at least [lo] when it
    returns, each of them satisfying [R]. *)
Definition appends (R : Packet → Prop) (lo hi : nat) {A} (m : M A) : Prop :=
  ∀ self, ∃ replies,
    message_queue (m self).2 = message_queue self ++ replies ∧
    Forall R replies ∧
    length replies ≤ hi ∧
    (∀ a, (m self).1 = Return a → lo ≤ length replies) ∧
    channels (m self).2 = channels self.

(** A statement that touches neither the queue nor the channels. *)
Definition quiet {A} (m : M A) : Prop :=
  ∀ self, message_queue (m self).2 = message_queue self ∧
          channels (m self).2 = channels self.

Section appends.
Context (R : Packet → Prop).

Lemma appends_quiet {A} (m : M A) hi : quiet m → appends R 0 hi m.
Proof.
  intros Hq self. destruct (Hq self) as [Hm Hc]. exists [].
  rewrite app_nil_r. split_and!; [done|done|simpl; lia|intros; simpl; lia|done].
Qed.

Lemma appends_raise {A} e lo hi : appends R lo hi (raise e : M A).
Proof.
  intros self. exists []. rewrite app_nil_r.
  split_and!; [done|done|simpl; lia|done|done].
Qed.

Lemma appends_ret {A} (a : A) hi : appends R 0 hi (mret a : M A).
Proof. by apply appends_quiet. Qed.

Lemma appends_mono {A} (m : M A) lo hi lo' hi' :
  appends R lo hi m → lo' ≤ lo → hi ≤ hi' → appends R lo' hi' m.
Proof.
  intros Hm Hlo Hhi self. destruct (Hm self) as (replies & ? & ? & ? & Hret & ?).
  exists replies. split_and!; [done|done|lia| |done].
  intros a Ha. specialize (Hret a Ha). lia.
Qed.

Lemma appends_bind {A B} (m : M A) (k : A → M B) lo1 hi1 lo2 hi2 :
  appends R lo1 hi1 m → (∀ a, appends R lo2 hi2 (k a)) →
  appends R (lo1 + lo2) (hi1 + hi2) (m ≫= k).
Proof.
  intros Hm Hk self. unfold mbind, M_bind.
  destruct (Hm self) as (r1 & Hq1 & HR1 & Hhi1 & Hlo1 & Hc1).
  destruct (m self) as [[a|e] self1]; simpl in *.
  - destruct (Hk a self1) as (r2 & Hq2 & HR2 & Hhi2 & Hlo2 & Hc2).
    exists (r1 ++ r2). rewrite length_app.
    split_and!.
    + by rewrite Hq2 Hq1 (assoc_L (++)).
    + by apply Forall_app.
    + lia.
    + intros b Hb. specialize (Hlo1 a eq_refl). specialize (Hlo2 b Hb). lia.
    + by rewrite Hc2.
  - exists r1. split_and!; [done|done|lia|done|done].
Qed.

(** A quiet statement first. *)
Lemma appends_after {A B} (m : M A) (k : A → M B) lo hi :
  quiet m → (∀ a, appends R lo hi (k a)) → appends R lo hi (m ≫= k).
Proof.
  intros Hm Hk. apply (appends_bind m k 0 0 lo hi); [by apply appends_quiet|done].
Qed.

Lemma appends_message_queue_append p :
  R p → appends R 1 1 (message_queue_append p).
Proof.
  intros Hp self. exists [p]. unfold_ops. simpl.
  split_and!; [done|by constructor|done|done|done].
Qed.

(** An append first. *)
Lemma appends_append {B} p (k : () → M B) lo hi :
  R p → (∀ a, appends R lo hi (k a)) →
  appends R (S lo) (S hi) (message_queue_append p ≫= k).
Proof.
  intros Hp Hk.
  apply (appends_bind (message_queue_append p) k 1 1 lo hi);
    [by apply appends_message_queue_append|done].
Qed.

End appends.

Lemma quiet_bind {A B} (m : M A) (k : A → M B) :
  quiet m → (∀ a, quiet (k a)) → quiet (m ≫= k).
Proof.
  intros Hm Hk self. unfold mbind, M_bind.
  destruct (Hm self) as [Hq Hc]. destruct (m self) as [[a|e] self1]; simpl in *; [|done].
  destruct (Hk a self1) as [Hq' Hc']. split; congruence.
Qed.

Lemma quiet_ret {A} (a : A) : quiet (mret a : M A).
Proof. done. Qed.

Lemma quiet_raise {A} e : quiet (raise e : M A).
Proof. done. Qed.

Lemma quiet_get {A} (field : Supervisor → A) : quiet (get field).
Proof. done. Qed.

Lemma quiet_log e : quiet (log e).
Proof. done. Qed.

Lemma quiet_set_store f : quiet (set_store f).
Proof. done. Qed.

Lemma quiet_call {A} (answer : list Event → A) event : quiet (call answer event).
Proof. done. Qed.

Lemma quiet_getitem {V} (d : gmap string V) key : quiet (getitem d key).
Proof. unfold getitem. by destruct (d !! key). Qed.

Lemma quiet_as_dict v : quiet (as_dict v).
Proof. by destruct v. Qed.

Lemma quiet_as_str v : quiet (as_str v).
Proof. by destruct v. Qed.

Lemma quiet_deref r : quiet (deref r).
Proof. intros self. unfold deref. unfold_M. simpl. by destruct (store self !! r). Qed.

Lemma quiet_new_AgentInfo a c : quiet (new_AgentInfo a c).
Proof. done. Qed.

Lemma quiet_set_agents key r : quiet (set_agents key r).
Proof. done. Qed.

Lemma quiet_set_agents_by_registration_id key r :
  quiet (set_agents_by_registration_id key r).
Proof. done. Qed.

Lemma quiet_set_onboarding_packets key p : quiet (set_onboarding_packets key p).
Proof. done. Qed.

Lemma quiet_thread_start t : quiet (thread_start t).
Proof. done. Qed.

Lemma quiet_print l : quiet (print l).
Proof. done. Qed.

Lemma quiet_set_used_channel_id r c : quiet (set_used_channel_id r c).
Proof. apply quiet_bind; [apply quiet_deref|done]. Qed.

Lemma quiet_set_assignment_thread r t : quiet (set_assignment_thread r t).
Proof. apply quiet_bind; [apply quiet_deref|done]. Qed.

Lemma quiet_set_pending_observations r f : quiet (set_pending_observations r f).
Proof. apply quiet_bind; [apply quiet_deref|done]. Qed.

Lemma quiet_update_status r st : quiet (update_status r st).
Proof. apply quiet_bind; [apply quiet_deref|done]. Qed.

Lemma quiet_for_each {A B} (body : A → M B) l :
  (∀ x, quiet (body x)) → quiet (for_each body l).
Proof.
  intros Hb. induction l as [|x l IH]; simpl; [done|].
  apply quiet_bind; [done|]. intros y. apply quiet_bind; [done|]. done.
Qed.

Create HintDb quiet.
#[export] Hint Resolve quiet_ret quiet_raise quiet_get quiet_log quiet_set_store quiet_call
  quiet_getitem quiet_as_dict quiet_as_str quiet_deref quiet_new_AgentInfo quiet_set_agents
  quiet_set_agents_by_registration_id quiet_set_onboarding_packets quiet_thread_start
  quiet_print quiet_set_used_channel_id quiet_set_assignment_thread
  quiet_set_pending_observations quiet_update_status : quiet.

(** Splits a statement into its first step, which is quiet, and what
    follows. *)
Ltac quiet_step :=
  first [ apply quiet_bind; [solve [auto with quiet]|intros ?]
        | solve [auto with quiet] ].

Section replies.
Context `{AgentState} `{Collaborators}.

(** A [PROVIDER_DETAILS] packet from the system to the channel the request
    came in on, carrying the request's [request_id] and an [agent_id]. *)
Definition reply_to (packet : Packet) (channel_info : ChannelInfo) (p : Packet) : Prop :=
  packet_type p = PACKET_TYPE_PROVIDER_DETAILS ∧
  sender_id p = SYSTEM_CHANNEL_ID ∧
  receiver_id p = channel_id channel_info ∧
  data p !! "request_id" = data packet !! "request_id" ∧
  is_Some (data packet !! "request_id") ∧
  is_Some (data p !! "agent_id").

Lemma quiet_reserve_first task_run units : quiet (reserve_first task_run units).
Proof.
  induction units as [|unit units IH]; simpl; [done|].
  apply quiet_bind; [auto with quiet|]. intros [answer|]; [done|exact IH].
Qed.

Lemma quiet_launch_individual_tasks channel_info unit agent_info :
  quiet (launch_individual_tasks channel_info unit agent_info).
Proof.
  unfold launch_individual_tasks.
  destruct (negb _).
  { repeat quiet_step. }
  quiet_step. quiet_step. case_bool_decide; [auto with quiet|].
  apply quiet_bind.
  { apply quiet_for_each. intros slot. repeat quiet_step. }
  intros agent_infos. apply quiet_bind; [|auto with quiet].
  apply quiet_for_each. intros participant. repeat quiet_step.
Qed.

(** The reply a handler builds from the packet's own [request_id]. *)
Lemma reply_to_built packet channel_info request_id d :
  data packet !! "request_id" = Some request_id →
  d !! "request_id" = Some request_id →
  is_Some (d !! "agent_id") →
  reply_to packet channel_info
    (mkPacket PACKET_TYPE_PROVIDER_DETAILS SYSTEM_CHANNEL_ID (channel_id channel_info) d).
Proof. intros Hp Hd Ha. split_and!; simpl; [done|done|done|congruence|by eexists|done]. Qed.

(** Reads [packet.data["request_id"]] and appends the reply built from
    it. *)
Lemma appends_reply packet channel_info {B} (d : Value → gmap string Value)
    (k : () → M B) lo hi :
  (∀ request_id, d request_id !! "request_id" = Some request_id ∧
                 is_Some (d request_id !! "agent_id")) →
  (∀ a, appends (reply_to packet channel_info) lo hi (k a)) →
  appends (reply_to packet channel_info) (S lo) (S hi)
    (request_id ← getitem (data packet) "request_id";
     message_queue_append
       (mkPacket PACKET_TYPE_PROVIDER_DETAILS SYSTEM_CHANNEL_ID (channel_id channel_info)
          (d request_id)) ≫= k).
Proof.
  intros Hd Hk self. unfold getitem.
  destruct (data packet !! "request_id") as [request_id|] eqn:Hreq.
  - destruct (Hd request_id) as [Hr Ha].
    exact (appends_append _ _ k lo hi (reply_to_built _ _ _ _ Hreq Hr Ha) Hk self).
  - exists []. rewrite app_nil_r. unfold_M. simpl.
    split_and!; [done|done|lia|done|done].
Qed.

Lemma appends_reply_last packet channel_info (d : Value → gmap string Value) :
  (∀ request_id, d request_id !! "request_id" = Some request_id ∧
                 is_Some (d request_id !! "agent_id")) →
  appends (reply_to packet channel_info) 1 1
    (request_id ← getitem (data packet) "request_id";
     message_queue_append
       (mkPacket PACKET_TYPE_PROVIDER_DETAILS SYSTEM_CHANNEL_ID (channel_id channel_info)
          (d request_id))).
Proof.
  intros Hd self. unfold getitem.
  destruct (data packet !! "request_id") as [request_id|] eqn:Hreq.
  - destruct (Hd request_id) as [Hr Ha].
    exact (appends_message_queue_append _ _ (reply_to_built _ _ _ _ Hreq Hr Ha) self).
  - exists []. rewrite app_nil_r. unfold_M. simpl.
    split_and!; [done|done|lia|done|done].
Qed.

(** Closes the side condition of [appends_reply] for a dictionary display
    that is written out. *)
Ltac reply_keys :=
  intros ?; split; [|eexists]; simplify_map_eq; reflexivity.

Lemma appends__assign_unit_to_agent packet channel_info units :
  appends (reply_to packet channel_info) 1 1
    (_assign_unit_to_agent packet channel_info units).
Proof.
  unfold _assign_unit_to_agent.
  apply appends_after; [apply quiet_bind; auto with quiet|]. intros crowd_data.
  apply appends_after; [auto with quiet|]. intros worker_id.
  apply appends_after; [apply quiet_reserve_first|]. intros [unit|].
  - apply appends_after; [auto with quiet|]. intros new_agent.
    apply (appends_reply packet channel_info
             (λ request_id, {[ "request_id" := request_id;
                               "agent_id" := VStr (get_agent_id new_agent) ]}) _ 0 0);
      [reply_keys|].
    intros _. apply appends_quiet.
    repeat quiet_step. apply quiet_bind; [apply quiet_bind; auto with quiet|].
    intros agent_registration_id. repeat quiet_step.
    apply quiet_launch_individual_tasks.
  - apply (appends_reply_last packet channel_info
             (λ request_id, {[ "request_id" := request_id; "agent_id" := VNone ]})).
    reply_keys.
Qed.

(** X8.  [_register_agent] on any packet and any supervisor.  It leaves
    [channels] as it is and only appends to [message_queue]: at most two
    packets, and at least one when it returns.  Each packet appended is a
    [PROVIDER_DETAILS] packet from the system to the channel the request
    came in on, and it carries the [request_id] of the request together with
    an [agent_id].  The same holds of [_assign_unit_to_agent], which
    appends exactly one reply when it returns. *)
Theorem _register_agent_replies packet channel_info :
  appends (reply_to packet channel_info) 1 2 (_register_agent packet channel_info) ∧
  ∀ units,
    appends (reply_to packet channel_info) 1 1
      (_assign_unit_to_agent packet channel_info units).
Proof.
  split; [|apply appends__assign_unit_to_agent].
  unfold _register_agent.
  apply appends_after; [apply quiet_bind; auto with quiet|]. intros crowd_data.
  apply appends_after; [apply quiet_bind; auto with quiet|]. intros agent_registration_id.
  apply appends_after; [auto with quiet|]. intros by_registration_id.
  destruct (by_registration_id !! agent_registration_id) as [known|].
  { apply appends_after; [auto with quiet|]. intros info.
    apply appends_after; [auto with quiet|]. intros index.
    apply appends_after; [auto with quiet|]. intros agent_info.
    apply appends_after; [auto with quiet|]. intros _.
    eapply appends_mono; [|done|by apply Nat.le_succ_diag_r].
    apply (appends_reply_last packet channel_info
             (λ request_id, {[ "request_id" := request_id;
                               "agent_id" := VStr (get_agent_id (agent info)) ]})).
    reply_keys. }
  apply appends_after; [auto with quiet|]. intros worker_id.
  apply appends_after; [auto with quiet|]. intros units.
  assert (∀ l, appends (reply_to packet channel_info) 1 1
                 (_assign_unit_to_agent packet channel_info l)) as Hassign
    by apply appends__assign_unit_to_agent.
  apply (appends_bind _ _ _ 0 1 1 1).
  { case_bool_decide.
    - eapply appends_mono; [|apply Nat.le_0_l|done].
      apply (appends_reply_last packet channel_info
               (λ request_id, {[ "request_id" := request_id; "agent_id" := VNone ]})).
      reply_keys.
    - by apply appends_ret. }
  intros _.
  apply appends_after; [auto with quiet|]. intros worker_id'.
  apply appends_after; [auto with quiet|]. intros blueprint.
  destruct (is_OnboardingRequired blueprint && use_onboarding blueprint); [|done].
  apply appends_after; [auto with quiet|]. intros [|].
  { apply (appends_reply_last packet channel_info
             (λ request_id, {[ "request_id" := request_id; "agent_id" := VNone ]})).
    reply_keys. }
  apply appends_after; [auto with quiet|]. intros [|]; simpl; [done|].
  apply appends_after; [auto with quiet|]. intros onboard_data.
  apply appends_after; [auto with quiet|]. intros onboard_agent.
  apply appends_after; [auto with quiet|]. intros _.
  apply appends_after; [auto with quiet|]. intros agent_info.
  apply appends_after; [auto with quiet|]. intros _.
  apply appends_after; [auto with quiet|]. intros _.
  apply (appends_reply packet channel_info
           (λ request_id, {[ "request_id" := request_id;
                             "agent_id" := VStr (get_agent_id onboard_agent);
                             "onboard_data" := onboard_data ]}) _ 0 0);
    [reply_keys|].
  intros _. apply appends_quiet. repeat quiet_step.
Qed.

End replies.

(** ** Assigning a unit: the edges *)

Section assignment.
Context `{AgentState} `{Collaborators}.

Lemma thread_starts_refused run failed : thread_starts (refused run failed) = [].
Proof. unfold thread_starts, refused. by induction failed. Qed.

Lemma adopted_refused run failed : adopted (refused run failed) = [].
Proof. unfold adopted, refused. by induction failed. Qed.

(** X9.  A request that carries [provider_data] with a [worker_id] but no
    [request_id].  [_assign_unit_to_agent] still runs its reservation loop,
    and then raises [KeyError] when it builds the reply.  When no unit was
    granted nothing else has happened; when one was granted, the agent has
    already been created for it: the agent is in neither index, no reply is
    queued, and [clear_reservation] is not called, so the unit stays
    reserved. *)
Theorem _assign_unit_to_agent_without_request_id packet channel_info units self
    crowd_data worker_id :
  data packet !! "provider_data" = Some (VDict crowd_data) →
  crowd_data !! "worker_id" = Some worker_id →
  data packet !! "request_id" = None →
  let run := task_run (task_runner (job channel_info)) in
  ∃ failed granted,
    match granted with
    | None => units = failed
    | Some (unit, _) => ∃ rest, units = failed ++ unit :: rest
    end ∧
    _assign_unit_to_agent packet channel_info units self
    = (Raise (KeyError "request_id"),
       with_trace self
         (refused run failed ++
          match granted with
          | None => []
          | Some (unit, answer) =>
              [ReserveUnit run unit (Some answer);
               NewFromProviderData (provider (job channel_info)) worker_id unit crowd_data
                 (new_from_provider_data
                    (trace self ++ refused run failed ++ [ReserveUnit run unit (Some answer)])
                    (provider (job channel_info)) worker_id unit crowd_data)]
          end)).
Proof.
  intros Hpd Hw Hreq run.
  destruct (reserve_first_run run units self) as (failed & granted & Hrun & Hunits).
  exists failed, granted. split; [done|].
  unfold _assign_unit_to_agent. unfold_ops. simpl. rewrite Hpd. simpl. rewrite Hw. simpl.
  fold run. rewrite Hrun. simpl.
  destruct granted as [[unit answer]|]; simpl; rewrite Hreq; simpl.
  - unfold with_trace, refused. simpl. rewrite -!(assoc_L (++)). done.
  - done.
Qed.

(** X10.  With a task runner that is not concurrent, a registration that is
    granted [unit] ends with the new [AgentInfo] holding the agent as the
    provider created it (its status is not touched), the channel of the
    request and the thread ["Unit-thread-" + unit.db_id], whose target gets
    the unit and this very [AgentInfo]; that thread is the last thing the
    handler does, and the only thread it starts. *)
Theorem _assign_unit_to_agent_starts_unit_thread packet channel_info units self
    crowd_data worker_id request_id agent_registration_id unit :
  registration packet crowd_data worker_id request_id agent_registration_id →
  is_concurrent (task_runner (job channel_info)) = false →
  (reserve_first (task_run (task_runner (job channel_info))) units self).1
  = Return (Some unit) →
  let run := task_run (task_runner (job channel_info)) in
  let agent_info := fresh (dom (store self)) in
  let thread := UnitThread unit agent_info ("Unit-thread-" +:+ db_id unit) in
  ∃ new_agent events,
    _assign_unit_to_agent packet channel_info units self
    = (Return (),
       mkSupervisor
         (<[agent_info := mkAgentInfo new_agent (channel_id channel_info) (Some thread)]>
            (store self))
         (<[agent_id new_agent := agent_info]> (agents self))
         (<[agent_registration_id := agent_info]> (agents_by_registration_id self))
         (channels self) (onboarding_packets self)
         (message_queue self
          ++ [provider_details channel_info request_id (VStr (agent_id new_agent))])
         (trace self ++ events ++ [ClearReservation run unit; ThreadStart thread])) ∧
    thread_starts events = [] ∧
    adopted events = [] ∧
    NewFromProviderData (provider (job channel_info)) worker_id unit crowd_data new_agent
      ∈ events.
Proof.
  intros Hreg Hnc Hres run agent_info thread.
  destruct (_assign_unit_to_agent_run packet channel_info units self _ _ _ _ Hreg)
    as (failed & granted & Hg & Hrun).
  rewrite Hg in Hres. destruct granted as [[unit' answer]|]; simplify_eq/=.
  destruct Hrun as (rest & -> & Hrun). rewrite Hrun.
  set (new_agent := new_from_provider_data _ _ _ _ _).
  exists new_agent. eexists.
  unfold launch_individual_tasks. rewrite Hnc. simpl.
  unfold_ops. simpl. rewrite lookup_insert_eq. simpl. rewrite insert_insert_eq.
  split_and!.
  - fold agent_info thread. f_equal. f_equal.
    rewrite -!(assoc_L (++)).
    instantiate (1 := refused run failed ++
                      [ReserveUnit run unit (Some answer);
                       NewFromProviderData (provider (job channel_info)) worker_id unit
                         crowd_data new_agent;
                       Append (provider_details channel_info request_id
                                 (VStr (agent_id new_agent)));
                       SetAgents (agent_id new_agent) agent_info;
                       SetAgentsByRegistrationId agent_registration_id agent_info]).
    rewrite -!(assoc_L (++)). done.
  - unfold thread_starts. rewrite omap_app. simpl.
    rewrite app_nil_r. apply thread_starts_refused.
  - unfold adopted. rewrite omap_app. simpl.
    rewrite app_nil_r. apply adopted_refused.
  - apply elem_of_app. right. in_list.
Qed.

End assignment.

(** ** A registration id that is not known yet *)

Section new_registration.
Context `{AgentState} `{Collaborators}.

(** The reply that invites the worker to onboard. *)
Definition onboarding_details (channel_info : ChannelInfo) (request_id : Value)
    (onboard_id : string) (onboard_data : Value) : Packet :=
  mkPacket PACKET_TYPE_PROVIDER_DETAILS SYSTEM_CHANNEL_ID (channel_id channel_info)
    {[ "request_id" := request_id;
       "agent_id" := VStr onboard_id;
       "onboard_data" := onboard_data ]}.

(** What [_register_agent] has asked and queued when it reaches the
    onboarding checks: the valid units, the early refusal when there are
    none, and the blueprint. *)
Record Enquiry := mkEnquiry {
  units : list Unit;
  early : list Packet;
  blueprint : Blueprint;
  asked : list Event
}.

Definition enquiry (channel_info : ChannelInfo) (worker_id request_id : Value)
    (self : Supervisor) : Enquiry :=
  let run := task_run (task_runner (job channel_info)) in
  let units := get_valid_units_for_worker (trace self) run worker_id in
  let early :=
    if bool_decide (length units = 0)
    then [provider_details channel_info request_id VNone] else [] in
  let asked := GetValidUnitsForWorker run worker_id units :: (Append <$> early) in
  let blueprint := get_blueprint (trace self ++ asked) run in
  mkEnquiry units early blueprint (asked ++ [GetBlueprint run blueprint]).

(** The supervisor with more in its queue and in its trace. *)
Definition with_queue (self : Supervisor) (replies : list Packet) (events : list Event)
  : Supervisor :=
  mkSupervisor (store self) (agents self) (agents_by_registration_id self)
    (channels self) (onboarding_packets self) (message_queue self ++ replies)
    (trace self ++ events).

(** X11.  The four ways [_register_agent] goes for a registration id it
    does not know.  Having asked for the valid units and for the blueprint,
    it hands over to [_assign_unit_to_agent] at once when the blueprint has
    no onboarding.  Otherwise it asks whether the worker is disqualified,
    and then whether the worker is qualified, before any unit is reserved:
    a disqualified worker is answered [agent_id] [None] and nothing else
    happens; a qualified one is handed over to [_assign_unit_to_agent]; a
    worker who is neither gets an onboarding agent, tracked in [agents]
    under the onboarding id and nowhere under the registration id, with
    status [STATUS_ONBOARDING], the request packet kept in
    [onboarding_packets], a reply that carries the onboarding data, and one
    onboarding thread, started last. *)
Theorem _register_agent_new_registration packet channel_info self
    crowd_data worker_id request_id agent_registration_id :
  registration packet crowd_data worker_id request_id agent_registration_id →
  agents_by_registration_id self !! agent_registration_id = None →
  let run := task_run (task_runner (job channel_info)) in
  let q := enquiry channel_info worker_id request_id self in
  let name := onboarding_qualification_name (blueprint q) in
  let disqualified := is_disqualified (trace self ++ asked q) worker_id name in
  let checked := asked q ++ [IsDisqualified worker_id name disqualified] in
  let qualified := is_qualified (trace self ++ checked) worker_id name in
  let vetted := checked ++ [IsQualified worker_id name qualified] in
  let result := _register_agent packet channel_info self in
  (is_OnboardingRequired (blueprint q) && use_onboarding (blueprint q) = false →
   result = _assign_unit_to_agent packet channel_info (units q)
              (with_queue self (early q) (asked q))) ∧
  (is_OnboardingRequired (blueprint q) && use_onboarding (blueprint q) = true →
   (disqualified = true →
    result
    = (Return (),
       with_queue self (early q ++ [provider_details channel_info request_id VNone])
         (checked ++ [Append (provider_details channel_info request_id VNone)]))) ∧
   (disqualified = false → qualified = true →
    result = _assign_unit_to_agent packet channel_info (units q)
               (with_queue self (early q) vetted)) ∧
   (disqualified = false → qualified = false →
    let onboard_data := get_onboarding_data (trace self ++ vetted) run worker_id in
    let onboard_agent :=
      OnboardingAgent_new
        (trace self ++ vetted ++ [GetOnboardingData run worker_id onboard_data])
        worker_id run in
    let onboard_id := agent_id onboard_agent in
    let agent_info := fresh (dom (store self)) in
    let thread := OnboardThread agent_info ("Onboard-thread-" +:+ onboard_id) in
    let reply := onboarding_details channel_info request_id onboard_id onboard_data in
    result
    = (Return (),
       mkSupervisor
         (<[agent_info :=
              mkAgentInfo (mkAgent onboard_id STATUS_ONBOARDING true
                             (pending_observations onboard_agent))
                (channel_id channel_info) (Some thread)]> (store self))
         (<[onboard_id := agent_info]> (agents self))
         (agents_by_registration_id self)
         (channels self)
         (<[onboard_id := packet]> (onboarding_packets self))
         (message_queue self ++ early q ++ [reply])
         (trace self ++ vetted ++
          [GetOnboardingData run worker_id onboard_data;
           OnboardingAgentNew worker_id run onboard_agent;
           SetInitState onboard_id onboard_data;
           SetAgents onboard_id agent_info;
           Append reply;
           UpdateStatus onboard_id STATUS_ONBOARDING;
           ThreadStart thread])))).
Proof.
  intros (Hpd & Hw & Hrid & Hreq) Hnew run q name disqualified checked qualified vetted
    result.
  subst result vetted qualified checked disqualified name q.
  unfold enquiry, with_queue, _register_agent. unfold_ops. simpl.
  rewrite Hpd. simpl. rewrite Hrid. simpl. rewrite Hnew. rewrite Hw. simpl.
  fold run.
  set (units0 := get_valid_units_for_worker (trace self) run worker_id).
  case_bool_decide as Hlen; simpl; rewrite ?Hreq; simpl; rewrite -?(assoc_L (++)); simpl;
    unfold onboarding_details, provider_details, get_agent_id;
    set (blueprint0 := get_blueprint _ run);
    (split; [intros ->|intros ->; split_and!; [intros Hd|intros Hd Hq|intros Hd Hq]]);
    try rewrite Hd in Hq;
    try rewrite Hd; simpl; rewrite -?(assoc_L (++)); simpl;
    try rewrite Hq; simpl; rewrite ?Hreq; simpl;
    rewrite ?lookup_insert_eq; simpl; rewrite ?insert_insert_eq;
    rewrite -?(assoc_L (++)) ?app_nil_r /=; reflexivity.
Qed.

(** A registration id that is not known: either the handler gets as far as
    [_assign_unit_to_agent], having touched only the queue and the trace, or
    it leaves [agents_by_registration_id] as it is. *)
Lemma new_registration_paths packet channel_info self
    crowd_data worker_id request_id agent_registration_id :
  registration packet crowd_data worker_id request_id agent_registration_id →
  agents_by_registration_id self !! agent_registration_id = None →
  (∃ units replies events,
     _register_agent packet channel_info self
     = _assign_unit_to_agent packet channel_info units (with_queue self replies events)) ∨
  agents_by_registration_id (_register_agent packet channel_info self).2
  = agents_by_registration_id self.
Proof.
  intros (Hpd & Hw & Hrid & Hreq) Hnew.
  unfold with_queue, _register_agent. unfold_ops. simpl.
  rewrite Hpd. simpl. rewrite Hrid. simpl. rewrite Hnew. rewrite Hw. simpl.
  set (run := task_run (task_runner (job channel_info))).
  set (units0 := get_valid_units_for_worker (trace self) run worker_id).
  case_bool_decide as Hlen; simpl; rewrite ?Hreq; simpl;
    (destruct (is_OnboardingRequired _ && use_onboarding _); simpl;
     [destruct (is_disqualified _ _ _); simpl; rewrite ?Hreq; simpl;
      [by right|destruct (is_qualified _ _ _); simpl; rewrite ?Hreq; simpl;
                [|right; by rewrite ?lookup_insert_eq /= ?lookup_insert_eq /=]]|]).
  - left. eexists units0, [_], (_ :: _ :: _ :: _ :: _). f_equal. f_equal.
    rewrite -!(assoc_L (++)). simpl. reflexivity.
  - left. eexists units0, [_], (_ :: _ :: _). f_equal. f_equal.
    rewrite -!(assoc_L (++)). simpl. reflexivity.
  - left. eexists units0, [], (_ :: _ :: _ :: _). f_equal. f_equal.
    + by rewrite app_nil_r.
    + rewrite -!(assoc_L (++)). simpl. reflexivity.
  - left. eexists units0, [], (_ :: _). f_equal. f_equal.
    + by rewrite app_nil_r.
    + rewrite -!(assoc_L (++)). simpl. reflexivity.
Qed.

(** X12.  Registration, then reconnection.  When [_register_agent] has
    handled a registration whose id it did not know, and that id is now a
    key of [agents_by_registration_id] (a unit was granted), the new
    [AgentInfo] is the one [agents] holds under its agent's id; so a later
    [NEW_AGENT] packet with the same registration id, on whatever channel,
    is a reconnection: it creates nothing, moves that [AgentInfo] to the
    arriving channel and is answered with the agent id given the first
    time. *)
Theorem registration_then_reconnection packet channel_info self
    crowd_data worker_id request_id agent_registration_id packet' channel_info' :
  registration packet crowd_data worker_id request_id agent_registration_id →
  agents_by_registration_id self !! agent_registration_id = None →
  is_Some (agents_by_registration_id (_register_agent packet channel_info self).2
             !! agent_registration_id) →
  arrival agent_registration_id packet' →
  let self1 := (_register_agent packet channel_info self).2 in
  ∃ known info,
    store self !! known = None ∧
    known_as self1 agent_registration_id known info ∧
    provider_details channel_info request_id (VStr (agent_id (agent info)))
      ∈ message_queue self1 ∧
    _register_agent packet' channel_info' self1
    = (Return (),
       mkSupervisor
         (<[known := mkAgentInfo (agent info) (channel_id channel_info')
                       (assignment_thread info)]> (store self1))
         (agents self1) (agents_by_registration_id self1) (channels self1)
         (onboarding_packets self1)
         (message_queue self1
          ++ [provider_details channel_info' (default VNone (data packet' !! "request_id"))
                (VStr (agent_id (agent info)))])
         (trace self1
          ++ [Append (provider_details channel_info'
                        (default VNone (data packet' !! "request_id"))
                        (VStr (agent_id (agent info))))])).
Proof.
  intros Hreg Hnew Hinstalled Harr self1.
  destruct (new_registration_paths packet channel_info self _ _ _ _ Hreg Hnew)
    as [(units0 & replies & events & Hrun)|Hsame]; last first.
  { rewrite Hsame Hnew in Hinstalled. by destruct Hinstalled. }
  subst self1. rewrite Hrun in Hinstalled |- *.
  set (self0 := with_queue self replies events) in *.
  destruct (_assign_unit_to_agent_run packet channel_info units0 self0 _ _ _ _ Hreg)
    as (failed & granted & Hg & Hassign).
  destruct granted as [[unit answer]|]; last first.
  { destruct Hassign as [_ Hassign]. rewrite Hassign in Hinstalled. simpl in Hinstalled.
    rewrite Hnew in Hinstalled. by destruct Hinstalled. }
  destruct Hassign as (rest & -> & Hassign). rewrite Hassign. clear Hinstalled.
  set (new_agent := new_from_provider_data _ _ _ _ _).
  set (known := fresh (dom (store self0))).
  set (self2 := mkSupervisor _ _ _ _ _ _ _).
  destruct (launch_individual_tasks_frame channel_info unit known self2)
    as (o & st & launch_events & Hl & _ & Hsame).
  rewrite Hl.
  destruct (Hsame known (mkAgentInfo new_agent (channel_id channel_info) None))
    as (info & Hinfo & Hid).
  { subst self2; simpl. by rewrite lookup_insert_eq. }
  simpl in Hid.
  assert (known_as (with_store self2 st launch_events) agent_registration_id known info)
    as Hknown.
  { split_and!; subst self2; simpl; [by rewrite lookup_insert_eq|done|].
    rewrite Hid. by rewrite lookup_insert_eq. }
  exists known, info. split_and!.
  - apply not_elem_of_dom. apply (is_fresh (dom (store self0))).
  - exact Hknown.
  - subst self2; simpl. rewrite Hid. apply elem_of_app. right. in_list.
  - by rewrite (reconnect_run _ _ _ _ _ _ Harr Hknown).
Qed.

End new_registration.

(** ** Reported statuses: what is adopted *)

Section adoption.
Context `{AgentState} `{Collaborators}.

(** The report [(a, status)] is one the handler adopts for an agent it
    tracks under [a] as [info]: a valid status other than [STATUS_NONE] and
    [STATUS_COMPLETED] that differs from the agent's, the agent having no
    update of its own pending and not being in a final status. *)
Definition adoptable (self : Supervisor) (r : ref) (info : AgentInfo)
    (report : string * string) : Prop :=
  agents self !! report.1 = Some r ∧
  report.2 ∈ valid ∧
  report.2 ≠ STATUS_NONE ∧
  report.2 ≠ STATUS_COMPLETED ∧
  report.2 ≠ db_status (agent info) ∧
  has_updated_status (agent info) = false ∧
  db_status (agent info) ∉ complete.

Lemma _send_status_update_store agent_info self :
  store (_send_status_update agent_info self).2 = store self ∧
  agents (_send_status_update agent_info self).2 = agents self.
Proof.
  unfold _send_status_update. unfold_ops. simpl.
  destruct (store self !! agent_info) as [info|]; simpl; [|done].
  by destruct (channels self !! used_channel_id info).
Qed.

(** One report: the store is left as it is, or the report is adoptable and
    the agent it names takes the reported status. *)
Lemma handle_one_status_effect report self :
  agents (handle_one_status report self).2 = agents self ∧
  (store (handle_one_status report self).2 = store self ∨
   ∃ r info,
     store self !! r = Some info ∧ adoptable self r info report ∧
     store (handle_one_status report self).2
     = <[r := with_status info report.2]> (store self)).
Proof.
  destruct report as [a status]. unfold handle_one_status.
  case_bool_decide as Hvalid.
  { unfold_ops. simpl. split; [done|by left]. }
  unfold_ops. simpl.
  destruct (agents self !! a) as [r|] eqn:Ha; [|split; [done|by left]].
  simpl.
  destruct (store self !! r) as [info|] eqn:Hs; [|split; [done|by left]]. simpl.
  destruct (has_updated_status (agent info)) eqn:Hflag; [split; [done|by left]|].
  case_bool_decide as Hnone.
  { destruct (_send_status_update_store r self) as [-> ->]. split; [done|by left]. }
  case_bool_decide as Hne; [|split; [done|by left]].
  case_bool_decide as Hfinal; [split; [done|by left]|].
  case_bool_decide as Hcompleted; [split; [done|by left]|].
  simpl. rewrite Hs. simpl. split; [done|]. right.
  exists r, info. split; [done|]. split; [|done].
  by split_and!.
Qed.

Lemma for_each_handle_adopts self r info (status_map reports : list (string * string)) :
  ∀ current,
    (∀ report, report ∈ reports → report ∈ status_map) →
    agents current = agents self →
    (store current !! r = Some info ∨
     ∃ report, report ∈ status_map ∧ adoptable self r info report ∧
               store current !! r = Some (with_status info report.2)) →
    let after := (for_each handle_one_status reports current).2 in
    agents after = agents self ∧
    (store after !! r = Some info ∨
     ∃ report, report ∈ status_map ∧ adoptable self r info report ∧
               store after !! r = Some (with_status info report.2)).
Proof.
  induction reports as [|report reports IH]; intros current Hin Hagents Hr; simpl.
  { done. }
  unfold mbind, M_bind.
  destruct (handle_one_status_effect report current) as [Ha Hstore].
  assert (agents (handle_one_status report current).2 = agents self ∧
          (store (handle_one_status report current).2 !! r = Some info ∨
           ∃ report', report' ∈ status_map ∧ adoptable self r info report' ∧
             store (handle_one_status report current).2 !! r
             = Some (with_status info report'.2))) as [Ha1 Hr1].
  { split; [congruence|].
    destruct Hstore as [->|(r' & info' & Hs' & Had & ->)]; [done|].
    destruct (decide (r' = r)) as [->|Hne]; [|by rewrite lookup_insert_ne].
    rewrite lookup_insert_eq.
    destruct Hr as [Hr|(report' & _ & _ & Hr)]; rewrite Hs' in Hr; simplify_eq.
    - right. exists report. split; [apply Hin; by left|]. split; [|done].
      destruct Had as (Hk & ?). split; [by rewrite -Hagents|done].
    - by destruct Had as (_ & _ & _ & _ & _ & ? & _). }
  destruct (handle_one_status report current) as [[[]|e] current1]; simpl in *; [|done].
  destruct (IH current1) as [Ha2 Hr2]; [|done|done|].
  { intros report' Hin'. apply Hin. by right. }
  by destruct (for_each handle_one_status reports current1) as [[ys|e] current2].
Qed.

(** X13.  What [_handle_updated_agent_status] does to one tracked agent,
    whatever [status_map] holds and however the run ends.  Either the
    [AgentInfo] is exactly as it was, or one report of the map was adopted:
    a report for an id [agents] maps to this [AgentInfo], with a valid
    status other than [STATUS_NONE] and [STATUS_COMPLETED] that differs from
    the agent's status, the agent being neither final nor flagged
    [has_updated_status]; then the [AgentInfo] differs only by that status
    and by the flag, which is now set.  So one call adopts at most one
    report per agent (the first adoptable one sets the flag), and an agent
    whose update is still to be sent is never overwritten. *)
Theorem _handle_updated_agent_status_adopts_once status_map self r info :
  store self !! r = Some info →
  let after := (_handle_updated_agent_status status_map self).2 in
  agents after = agents self ∧
  (store after !! r = Some info ∨
   ∃ report, report ∈ status_map ∧ adoptable self r info report ∧
             store after !! r = Some (with_status info report.2)) ∧
  (has_updated_status (agent info) = true → store after !! r = Some info).
Proof.
  intros Hs after.
  destruct (for_each_handle_adopts self r info status_map status_map self)
    as [Ha Hr]; [done|done|by left|].
  assert (after = (for_each handle_one_status status_map self).2) as ->.
  { subst after. unfold _handle_updated_agent_status, mbind, M_bind.
    by destruct (for_each handle_one_status status_map self) as [[ys|e] self1]. }
  split_and!; [done|done|].
  intros Hflag. destruct Hr as [Hr|(report & _ & Had & _)]; [done|].
  destruct Had as (_ & _ & _ & _ & _ & Hf & _). congruence.
Qed.

End adoption.

(** ** The theorems in the small world *)

(** A [NEW_AGENT] packet that lacks its [request_id]. *)
Definition anonymous_request : Packet :=
  mkPacket "new_agent" "worker-page" SYSTEM_CHANNEL_ID
    {[ "provider_data" := VDict {[ "worker_id" := VStr "worker-1";
                                   "agent_registration_id" := VStr "registration-1" ]} ]}.

(** Unit ["taken"] is refused, unit ["1"] is granted and an agent is created
    for it; then the handler raises. *)
Lemma _assign_unit_to_agent_without_request_id_witness :
  @_assign_unit_to_agent Demo.states Demo.world anonymous_request
    (Demo.channel "up" false "run") [mkUnit "taken"; mkUnit "1"]
    (Demo.fresh_supervisor false "run")
  = (Raise (KeyError "request_id"),
     with_trace (Demo.fresh_supervisor false "run")
       [ReserveUnit "run" (mkUnit "taken") None;
        ReserveUnit "run" (mkUnit "1") (Some (mkUnit "1"));
        NewFromProviderData "mock" (VStr "worker-1") (mkUnit "1")
          {[ "worker_id" := VStr "worker-1";
             "agent_registration_id" := VStr "registration-1" ]}
          (mkAgent "agent-1" "none" false [])]).
Proof.
  destruct (@_assign_unit_to_agent_without_request_id Demo.states Demo.world
              anonymous_request (Demo.channel "up" false "run")
              [mkUnit "taken"; mkUnit "1"] (Demo.fresh_supervisor false "run")
              _ (VStr "worker-1") eq_refl eq_refl eq_refl)
    as (failed & granted & _ & _).
  reflexivity.
Defined.

Lemma _assign_unit_to_agent_starts_unit_thread_witness :
  let self :=
    (@_assign_unit_to_agent Demo.states Demo.world request_1
       (Demo.channel "up" false "run") [mkUnit "taken"; mkUnit "1"]
       (Demo.fresh_supervisor false "run")).2 in
  store self
  = {[ 0 := mkAgentInfo (mkAgent "agent-1" "none" false []) "up"
              (Some (UnitThread (mkUnit "1") 0 "Unit-thread-1")) ]} ∧
  thread_starts (trace self) = [UnitThread (mkUnit "1") 0 "Unit-thread-1"].
Proof.
  destruct (@_assign_unit_to_agent_starts_unit_thread Demo.states Demo.world request_1
              (Demo.channel "up" false "run") [mkUnit "taken"; mkUnit "1"]
              (Demo.fresh_supervisor false "run") _ _ _ _ (mkUnit "1")
              (registration_new_agent "request-1" "worker-1" "registration-1")
              eq_refl eq_refl)
    as (new_agent & events & _ & _).
  split; reflexivity.
Defined.

(** On the task run that requires onboarding, the worker of [request_1] is
    neither disqualified nor qualified: an onboarding agent is made, and the
    registration id stays unknown. *)
Lemma _register_agent_new_registration_witness :
  let self :=
    (@_register_agent Demo.states Demo.world request_1
       (Demo.channel "up" false "onboarding-run")
       (Demo.fresh_supervisor false "onboarding-run")).2 in
  agents self = {[ "onboarding_1" := 0 ]} ∧
  agents_by_registration_id self = ∅ ∧
  onboarding_packets self = {[ "onboarding_1" := request_1 ]} ∧
  message_queue self
  = [onboarding_details (Demo.channel "up" false "onboarding-run") (VStr "request-1")
       "onboarding_1" (VOpaque 7)].
Proof.
  pose proof (@_register_agent_new_registration Demo.states Demo.world request_1
                (Demo.channel "up" false "onboarding-run")
                (Demo.fresh_supervisor false "onboarding-run") _ _ _ _
                (registration_new_agent "request-1" "worker-1" "registration-1")
                eq_refl) as [_ W].
  destruct (W eq_refl) as (_ & _ & W3).
  rewrite (W3 eq_refl eq_refl). split_and!; reflexivity.
Defined.

(** The worker page of [request_1] registers, is given unit ["1"], and
    registers again on the other channel. *)
Lemma registration_then_reconnection_witness :
  let self1 :=
    (@_register_agent Demo.states Demo.world request_1 (Demo.channel "up" false "run")
       (Demo.fresh_supervisor false "run")).2 in
  let result :=
    @_register_agent Demo.states Demo.world request_1_again
      (Demo.channel "down" false "run") self1 in
  result.1 = Return () ∧
  dom (store result.2) = dom (store self1) ∧
  message_queue result.2
  = [provider_details (Demo.channel "up" false "run") (VStr "request-1") (VStr "agent-1");
     provider_details (Demo.channel "down" false "run") (VStr "request-3") (VStr "agent-1")].
Proof.
  destruct (@registration_then_reconnection Demo.states Demo.world request_1
              (Demo.channel "up" false "run") (Demo.fresh_supervisor false "run")
              _ _ _ _ request_1_again (Demo.channel "down" false "run")
              (registration_new_agent "request-1" "worker-1" "registration-1")
              eq_refl (ex_intro _ 0 eq_refl)
              (arrival_new_agent "request-3" "worker-1" "registration-1"))
    as (known & info & _ & _ & _ & _).
  split_and!; reflexivity.
Defined.

(** The agent of [queued_supervisor] is in task, with nothing to send: of
    the two reports for it, the first is adopted and sets the flag, the
    second finds the flag set. *)
Lemma _handle_updated_agent_status_adopts_once_witness :
  let status_map := [("agent-1", "waiting"); ("agent-1", "timeout")] in
  let after :=
    (@_handle_updated_agent_status Demo.states Demo.world status_map queued_supervisor).2 in
  agents after = agents queued_supervisor ∧
  store after !! 0
  = Some (mkAgentInfo (mkAgent "agent-1" "waiting" true
                         [Demo.observation "agent-1" "hello";
                          Demo.observation "agent-1" "world"])
            "up" None).
Proof.
  destruct (@_handle_updated_agent_status_adopts_once Demo.states Demo.world
              [("agent-1", "waiting"); ("agent-1", "timeout")] queued_supervisor 0 _
              eq_refl)
    as (Hagents & _ & _).
  split; [exact Hagents|reflexivity].
Defined.

End SupervisorMore.

(* ===================================================================== *)
(** * Facts about create_assignments *)
(* ===================================================================== *)

Module CreationFacts.
Import Creation.

Section creation.
Context `{Database}.

(** [data["unit_data"]] is there and has [n] entries. *)
Definition sized (data : InitializationData) (n : nat) : Prop :=
  ∃ unit_data, data !! "unit_data" = Some unit_data ∧ len unit_data = inr n.

(** What was created for one [data]: the id of its assignment and the ids
    of its units. *)
Definition Created : Type := string * list string.

(** The calls made for one [data]. *)
Definition calls_for (task_run : TaskRun) (data : InitializationData) (c : Created)
  : list Call :=
  NewAssignment task_run c.1 :: WriteAssignmentData c.1 data ::
  imap (λ unit_idx unit_id, NewUnit task_run c.1 unit_idx unit_id) c.2.

(** The launcher with more units queued. *)
Definition with_units (self : Launcher) (assignment_ids unit_ids : list string)
    (made : list Call) : Launcher :=
  mkLauncher (task_run self)
    (assignments self ++ (Supervisor.mkAssignment <$> assignment_ids))
    (units self ++ (mkUnit <$> unit_ids))
    (TaskLauncher.mkTaskLauncher
       (TaskLauncher.max_num_concurrent_units (queues self))
       (TaskLauncher.launched_units (queues self))
       (TaskLauncher.unlaunched_units (queues self) ++ (mkUnit <$> unit_ids)))
    (calls self ++ made).

Lemma with_units_nil self : with_units self [] [] [] = self.
Proof.
  unfold with_units. simpl. rewrite !app_nil_r.
  destruct self as [? ? ? [] ?]. done.
Qed.

Lemma with_units_app self a1 u1 m1 a2 u2 m2 :
  with_units (with_units self a1 u1 m1) a2 u2 m2
  = with_units self (a1 ++ a2) (u1 ++ u2) (m1 ++ m2).
Proof.
  unfold with_units. simpl. by rewrite !fmap_app !(assoc_L (++)).
Qed.

(** The inner loop, from [unit_idx = k] on. *)
Lemma create_units_run assignment_id n :
  ∀ k self,
    ∃ unit_ids,
      length unit_ids = n ∧
      foldl (create_unit assignment_id) self (seq k n)
      = with_units self [] unit_ids
          (imap (λ unit_idx unit_id,
                   NewUnit (task_run self) assignment_id (k + unit_idx) unit_id) unit_ids).
Proof.
  induction n as [|n IH]; intros k self; simpl.
  { exists []. by rewrite with_units_nil. }
  set (unit_id := new_unit (calls self) (task_run self) assignment_id k).
  destruct (IH (S k) (create_unit assignment_id self k)) as (unit_ids & Hlen & ->).
  exists (unit_id :: unit_ids). split; [simpl; lia|].
  unfold create_unit. fold unit_id. unfold with_units. simpl.
  rewrite app_nil_r -!(assoc_L (++)). simpl. rewrite Nat.add_0_r.
  do 3 f_equal. apply imap_ext. intros i x _. simpl. f_equal. lia.
Qed.

(** One [data] that is well formed. *)
Lemma create_assignment_run data n self :
  sized data n →
  ∃ c : Created,
    length c.2 = n ∧
    create_assignment data self
    = (None, with_units self [c.1] c.2 (calls_for (task_run self) data c)).
Proof.
  intros (unit_data & Hd & Hlen). unfold create_assignment. rewrite Hd Hlen.
  set (assignment_id := new_assignment (calls self) (task_run self)).
  set (self1 := mkLauncher _ _ _ _ _).
  destruct (create_units_run assignment_id n 0 self1) as (unit_ids & Hn & ->).
  exists (assignment_id, unit_ids). split; [done|]. f_equal.
  unfold with_units, calls_for. subst self1. simpl.
  by rewrite app_nil_r -!(assoc_L (++)).
Qed.

(** The outer loop over well-formed data. *)
Lemma create_assignments_run assignment_data_list :
  ∀ self,
    Forall (λ data, ∃ n, sized data n) assignment_data_list →
    ∃ created : list Created,
      Forall2 (λ data c, sized data (length c.2)) assignment_data_list created ∧
      create_assignments assignment_data_list self
      = (None,
         with_units self created.*1 (concat created.*2)
           (concat (zip_with (calls_for (task_run self)) assignment_data_list created))).
Proof.
  induction assignment_data_list as [|data rest IH]; intros self Hall.
  { exists []. split; [done|]. simpl. by rewrite with_units_nil. }
  apply Forall_cons in Hall as [[n Hn] Hall].
  destruct (create_assignment_run data n self Hn) as (c & Hc & Hrun).
  simpl. rewrite Hrun.
  destruct (IH (with_units self [c.1] c.2 (calls_for (task_run self) data c)) Hall)
    as (created & Hcreated & ->).
  exists (c :: created). split; [constructor; [by rewrite Hc|done]|].
  rewrite with_units_app. done.
Qed.

(** X14.  [create_assignments] on data that all carry a sized
    ["unit_data"].  It returns having asked the database, for each [data]
    in list order, for one assignment, written the data to it, and asked
    for one unit per entry of [data["unit_data"]], with [unit_idx] counting
    from 0 and the id of the assignment just created.  The assignments are
    appended to [assignments]; the units are appended, in the order they
    were created, to [units] and to [unlaunched_units] alike, so the two
    lists grow by the same ids; [launched_units] and the cap are not
    touched. *)
Theorem create_assignments_creates assignment_data_list self :
  Forall (λ data, ∃ n, sized data n) assignment_data_list →
  ∃ created : list Created,
    Forall2 (λ data c, sized data (length c.2)) assignment_data_list created ∧
    create_assignments assignment_data_list self
    = (None,
       mkLauncher (task_run self)
         (assignments self ++ (Supervisor.mkAssignment <$> created.*1))
         (units self ++ (mkUnit <$> concat created.*2))
         (TaskLauncher.mkTaskLauncher
            (TaskLauncher.max_num_concurrent_units (queues self))
            (TaskLauncher.launched_units (queues self))
            (TaskLauncher.unlaunched_units (queues self)
             ++ (mkUnit <$> concat created.*2)))
         (calls self
          ++ concat (zip_with (calls_for (task_run self)) assignment_data_list created))).
Proof.
  intros Hall.
  destruct (create_assignments_run assignment_data_list self Hall)
    as (created & Hcreated & Hrun).
  by exists created.
Qed.

(** X15.  A [data] without ["unit_data"] stops [create_assignments] with
    [KeyError], after its assignment has been created in the database,
    written and appended to [assignments]: that assignment has no unit.
    What was created for the data before it stays, and the data after it
    are not looked at. *)
Theorem create_assignments_stops_at_missing_unit_data good bad rest self :
  Forall (λ data, ∃ n, sized data n) good →
  bad !! "unit_data" = None →
  ∃ (created : list Created) (assignment_id : string),
    Forall2 (λ data c, sized data (length c.2)) good created ∧
    create_assignments (good ++ bad :: rest) self
    = (Some (KeyError "unit_data"),
       with_units self (created.*1 ++ [assignment_id]) (concat created.*2)
         (concat (zip_with (calls_for (task_run self)) good created)
          ++ [NewAssignment (task_run self) assignment_id;
              WriteAssignmentData assignment_id bad])).
Proof.
  intros Hgood Hbad.
  assert (∀ l self0,
            create_assignments (good ++ l) self0
            = match create_assignments good self0 with
              | (None, self1) => create_assignments l self1
              | failed => failed
              end) as Happ.
  { intros l. induction good as [|data good' IH]; intros self0; simpl.
    { by destruct (create_assignments l self0) as [[e|] ?]. }
    apply Forall_cons in Hgood as [_ Hgood].
    destruct (create_assignment data self0) as [[e|] self1]; [done|]. by apply IH. }
  destruct (create_assignments_run good self Hgood) as (created & Hcreated & Hrun).
  rewrite Happ Hrun. simpl. unfold create_assignment. rewrite Hbad.
  set (self1 := with_units _ _ _ _).
  exists created, (new_assignment (calls self1) (task_run self1)).
  split; [done|]. f_equal.
  subst self1. unfold with_units. simpl.
  by rewrite fmap_app -!(assoc_L (++)).
Qed.

(** The unit ids the database has answered, in order. *)
Definition unit_answers (made : list Call) : list string :=
  omap (λ c, match c with NewUnit _ _ _ answer => Some answer | _ => None end) made.

Lemma unit_answers_imap task_run assignment_id unit_ids :
  ∀ idx : nat → nat,
    unit_answers (imap (λ i unit_id, NewUnit task_run assignment_id (idx i) unit_id) unit_ids)
    = unit_ids.
Proof.
  induction unit_ids as [|u l IH]; intros idx; [done|].
  simpl. f_equal. exact (IH (idx ∘ S)).
Qed.

Lemma unit_answers_calls_for task_run assignment_data_list created :
  Forall2 (λ data (c : Created), sized data (length c.2)) assignment_data_list created →
  unit_answers (concat (zip_with (calls_for task_run) assignment_data_list created))
  = concat created.*2.
Proof.
  induction 1 as [|data c datas cs _ _ IH]; [done|].
  simpl. unfold unit_answers in *. rewrite omap_app IH. f_equal.
  exact (unit_answers_imap task_run c.1 c.2 id).
Qed.

(** X16.  From construction to launch.  After [create_assignments] has
    run through well-formed data on a launcher as [__init__] leaves it,
    [units] and [unlaunched_units] hold the same units, namely the units
    the database created, in the order it created them, and nothing is
    launched.  If the database gave these units distinct ids, then
    whatever the statuses become [generate_units] yields none of them
    twice, and every unit it yields is in [units], the list [expire_units]
    goes through. *)
Theorem created_units_are_launched_once assignment_data_list task_run
    max_num_concurrent_units envs :
  Forall (λ data, ∃ n, sized data n) assignment_data_list →
  let result :=
    (create_assignments assignment_data_list (init task_run max_num_concurrent_units)).2 in
  units result = mkUnit <$> unit_answers (calls result) ∧
  TaskLauncher.unlaunched_units (queues result) = units result ∧
  TaskLauncher.launched_units (queues result) = [] ∧
  (NoDup (unit_answers (calls result)) →
   let out := (TaskLauncher.run envs (TaskLauncher.generate_units (queues result))).2 in
   NoDup (TaskLauncher.yielded out) ∧
   ∀ unit, unit ∈ TaskLauncher.yielded out → unit ∈ units result).
Proof.
  intros Hall result.
  destruct (create_assignments_run assignment_data_list
              (init task_run max_num_concurrent_units) Hall)
    as (created & Hcreated & Hrun).
  subst result. rewrite Hrun. simpl.
  rewrite (unit_answers_calls_for _ _ _ Hcreated).
  split_and!; [done..|].
  intros Hnd.
  destruct (TaskLauncher.run envs _) as [g' o] eqn:Hrun'. simpl.
  pose proof (TaskLauncherFacts.run_unlaunched _ _ _ _ Hrun') as Hperm. simpl in Hperm.
  assert (NoDup (mkUnit <$> concat created.*2)) as Hnd'.
  { assert (Inj (=) (=) mkUnit) by (by intros ? ? [=]). by apply (NoDup_fmap_2 _). }
  rewrite -Hperm in Hnd'. apply NoDup_app in Hnd' as (Hy & _ & _).
  split; [done|]. intros unit Hin. rewrite -Hperm. set_solver.
Qed.

End creation.

(** ** On a small database *)

(** A string of [n] strokes. *)
Fixpoint tally (n : nat) : string :=
  match n with
  | 0 => ""
  | S n' => "I" +:+ tally n'
  end.

(** A database that numbers what it creates by the calls made so far. *)
Definition counting : Database := {|
  new_assignment := λ made _, "assignment-" +:+ tally (length made);
  new_unit := λ made _ _ _, "unit-" +:+ tally (length made)
|}.

Definition demo_task_run : TaskRun :=
  mkTaskRun "task" "run" "requester" "mock" "mock" true 1.

Definition two_units : InitializationData :=
  {[ "unit_data" := DList [DScalar 0; DScalar 1] ]}.

Definition one_unit : InitializationData :=
  {[ "unit_data" := DList [DScalar 2] ]}.

Definition no_unit_data : InitializationData := {[ "shared" := DScalar 3 ]}.

Lemma two_units_sized : ∃ n, sized two_units n.
Proof. exists 2. by eexists. Defined.

Lemma one_unit_sized : ∃ n, sized one_unit n.
Proof. exists 1. by eexists. Defined.

Lemma create_assignments_creates_witness :
  let result := @create_assignments counting [two_units; one_unit] (init demo_task_run 2) in
  result.1 = None ∧
  units result.2 = [mkUnit "unit-II"; mkUnit "unit-III"; mkUnit "unit-IIIIII"] ∧
  assignments result.2
  = [Supervisor.mkAssignment "assignment-"; Supervisor.mkAssignment "assignment-IIII"].
Proof.
  destruct (@create_assignments_creates counting [two_units; one_unit]
              (init demo_task_run 2)
              (Forall_cons_2 _ _ _ two_units_sized
                 (Forall_cons_2 _ _ _ one_unit_sized (Forall_nil_2 _))))
    as (created & _ & _).
  split_and!; reflexivity.
Defined.

Lemma create_assignments_stops_at_missing_unit_data_witness :
  let result :=
    @create_assignments counting [two_units; no_unit_data; one_unit]
      (init demo_task_run 2) in
  result.1 = Some (KeyError "unit_data") ∧
  units result.2 = [mkUnit "unit-II"; mkUnit "unit-III"] ∧
  assignments result.2
  = [Supervisor.mkAssignment "assignment-"; Supervisor.mkAssignment "assignment-IIII"].
Proof.
  destruct (@create_assignments_stops_at_missing_unit_data counting
              [two_units] no_unit_data [one_unit] (init demo_task_run 2)
              (Forall_cons_2 _ _ _ two_units_sized (Forall_nil_2 _)) eq_refl)
    as (created & assignment_id & _ & _).
  split_and!; reflexivity.
Defined.

Lemma created_units_are_launched_once_witness :
  let result :=
    (@create_assignments counting [two_units; one_unit] (init demo_task_run 2)).2 in
  TaskLauncher.unlaunched_units (queues result) = units result ∧
  TaskLauncher.yielded
    (TaskLauncher.run (replicate 4 (λ _, TaskLauncher.LAUNCHED))
       (TaskLauncher.generate_units (queues result))).2
  = [mkUnit "unit-II"; mkUnit "unit-IIIIII"].
Proof.
  destruct (@created_units_are_launched_once counting [two_units; one_unit]
              demo_task_run 2 (replicate 4 (λ _, TaskLauncher.LAUNCHED))
              (Forall_cons_2 _ _ _ two_units_sized
                 (Forall_cons_2 _ _ _ one_unit_sized (Forall_nil_2 _))))
    as (_ & Hsame & _ & _).
  split; [exact Hsame|reflexivity].
Defined.

End CreationFacts.

(* ===================================================================== *)
(** * Facts about closing channels *)
(* ===================================================================== *)

Module ClosingFacts.
Import Supervisor SupervisorFacts Closing.

(** The supervisor with other channels. *)
Definition with_channels (self : Supervisor) (chans : gmap string ChannelInfo)
  : Supervisor :=
  mkSupervisor (store self) (agents self) (agents_by_registration_id self)
    chans (onboarding_packets self) (message_queue self) (trace self).

Lemma with_channels_id self : with_channels self (channels self) = self.
Proof. by destruct self. Qed.

Lemma close_channel_run channel_id self :
  close_channel channel_id self
  = match channels self !! channel_id with
    | Some _ => (Return (), with_channels self (delete channel_id (channels self)))
    | None => (Raise (KeyError channel_id), self)
    end.
Proof.
  unfold close_channel. unfold_ops. simpl.
  by destruct (channels self !! channel_id).
Qed.

(** The channels left when [ids] have been closed one after the other. *)
Definition without (chans : gmap string ChannelInfo) (ids : list string)
  : gmap string ChannelInfo :=
  foldl (λ m channel_id, delete channel_id m) chans ids.

Lemma lookup_without ids :
  ∀ chans k, without chans ids !! k = if decide (k ∈ ids) then None else chans !! k.
Proof.
  induction ids as [|c ids IH]; intros chans k.
  { destruct (decide (k ∈ [])) as [Hk|]; [by apply elem_of_nil in Hk|done]. }
  change (without chans (c :: ids)) with (without (delete c chans) ids).
  rewrite IH. destruct (decide (k ∈ ids)) as [Hin|Hout].
  { case_decide as Hk; [done|]. exfalso. apply Hk. by right. }
  case_decide as Hk.
  - apply elem_of_cons in Hk as [->|?]; [|done]. by rewrite lookup_delete_eq.
  - rewrite lookup_delete_ne //. intros ->. apply Hk. by left.
Qed.

(** Closing ids that are registered and pairwise distinct. *)
Lemma for_each_close_run ids :
  ∀ self,
    NoDup ids → Forall (λ c, is_Some (channels self !! c)) ids →
    for_each close_channel ids self
    = (Return (replicate (length ids) ()), with_channels self (without (channels self) ids)).
Proof.
  induction ids as [|c ids IH]; intros self Hnd Hreg; simpl.
  { by rewrite with_channels_id. }
  apply NoDup_cons in Hnd as [Hc Hnd]. apply Forall_cons in Hreg as [[ci Hci] Hreg].
  unfold mbind, M_bind. rewrite close_channel_run Hci.
  rewrite IH; [done|done|].
  simpl. apply Forall_forall. intros x Hx.
  rewrite lookup_delete_ne; [|by intros ->].
  by eapply Forall_forall in Hreg.
Qed.

(** Closing stops at the first id that is not registered any more. *)
Lemma for_each_close_stops before channel_id after :
  ∀ self,
    NoDup before → Forall (λ c, is_Some (channels self !! c)) before →
    (channel_id ∈ before ∨ channels self !! channel_id = None) →
    for_each close_channel (before ++ channel_id :: after) self
    = (Raise (KeyError channel_id), with_channels self (without (channels self) before)).
Proof.
  induction before as [|c ids IH]; intros self Hnd Hreg Hc; simpl.
  { destruct Hc as [Hc|Hc]; [by apply elem_of_nil in Hc|].
    unfold mbind, M_bind. by rewrite close_channel_run Hc with_channels_id. }
  apply NoDup_cons in Hnd as [Hnew Hnd]. apply Forall_cons in Hreg as [[ci Hci] Hreg].
  unfold mbind, M_bind. rewrite close_channel_run Hci.
  rewrite IH; [done|done| |].
  - simpl. apply Forall_forall. intros x Hx.
    rewrite lookup_delete_ne; [|by intros ->].
    by eapply Forall_forall in Hreg.
  - simpl. destruct (decide (channel_id = c)) as [->|Hne].
    + right. by rewrite lookup_delete_eq.
    + destruct Hc as [Hc|Hc].
      * left. apply elem_of_cons in Hc as [?|?]; done.
      * right. by rewrite lookup_delete_ne.
Qed.

(** X17.  [shutdown_job] on the ids [register_job] collected, when they are
    pairwise distinct and still registered: it returns, the channels of
    the job are no longer in [channels], the other channels are as they
    were and nothing else has changed.  It cannot be repeated: a second
    call raises [KeyError] on the first id of the job and changes
    nothing. *)
Theorem shutdown_job_closes_once registered_channel_ids self :
  NoDup registered_channel_ids →
  Forall (λ c, is_Some (channels self !! c)) registered_channel_ids →
  ∃ chans,
    shutdown_job registered_channel_ids self = (Return (), with_channels self chans) ∧
    (∀ k, chans !! k
          = if decide (k ∈ registered_channel_ids) then None else channels self !! k) ∧
    (∀ channel_id rest,
       registered_channel_ids = channel_id :: rest →
       shutdown_job registered_channel_ids (with_channels self chans)
       = (Raise (KeyError channel_id), with_channels self chans)).
Proof.
  intros Hnd Hreg. exists (without (channels self) registered_channel_ids).
  split_and!.
  - unfold shutdown_job, mbind, M_bind. by rewrite for_each_close_run.
  - intros k. apply lookup_without.
  - intros c rest ->. unfold shutdown_job, mbind, M_bind.
    rewrite (for_each_close_stops [] c rest); [done|constructor|constructor|].
    right. simpl. rewrite lookup_without.
    destruct (decide (c ∈ rest)); [done|]. by rewrite lookup_delete_eq.
Qed.

(** X18.  [shutdown_job] on ids of which one, [channel_id], is listed a
    second time or is not registered any more, the ids before it being
    distinct and registered: it raises [KeyError] at [channel_id]; the
    channels listed before it are closed, the ids after it are not looked
    at, so their channels stay registered. *)
Theorem shutdown_job_stops_half_way before channel_id after self :
  NoDup before →
  Forall (λ c, is_Some (channels self !! c)) before →
  channel_id ∈ before ∨ channels self !! channel_id = None →
  ∃ chans,
    shutdown_job (before ++ channel_id :: after) self
    = (Raise (KeyError channel_id), with_channels self chans) ∧
    (∀ k, chans !! k = if decide (k ∈ before) then None else channels self !! k).
Proof.
  intros Hnd Hreg Hc. exists (without (channels self) before). split.
  - unfold shutdown_job, mbind, M_bind. by rewrite for_each_close_stops.
  - intros k. apply lookup_without.
Qed.

(** X19.  [shutdown] on any supervisor: the copy of the keys it walks
    through holds each registered id once, so no lookup fails; it returns
    with [channels] empty and nothing else changed. *)
Theorem shutdown_closes_every_channel self :
  shutdown self = (Return (), with_channels self ∅).
Proof.
  unfold shutdown. unfold_M. simpl. unfold mbind, M_bind.
  rewrite for_each_close_run.
  - simpl. f_equal. f_equal. apply map_eq. intros k.
    rewrite lookup_without lookup_empty. case_decide as Hk; [done|].
    destruct (channels self !! k) as [ci|] eqn:Hci; [|done].
    exfalso. apply Hk. apply list_elem_of_fmap. exists (k, ci).
    split; [done|]. by apply elem_of_map_to_list.
  - apply NoDup_fst_map_to_list.
  - apply Forall_forall. intros c Hc.
    apply list_elem_of_fmap in Hc as ([c' ci] & -> & Hc).
    apply elem_of_map_to_list in Hc. by exists ci.
Qed.

Section after_closing.
Context `{AgentState} `{Collaborators}.

(** X20.  Traffic for a channel that has been closed.  Once
    [close_channel] has returned for a channel id, [_send_message_queue]
    raises [KeyError] when the packet at the head of the queue is for that
    id, and the packet is dropped from the queue; for an agent whose
    [used_channel_id] is that id, [_send_status_update] and
    [_try_send_agent_messages] raise [KeyError] too, without sending, and
    the agent keeps its pending observations. *)
Theorem closed_channel_raises channel_id self :
  is_Some (channels self !! channel_id) →
  ∃ closed,
    close_channel channel_id self = (Return (), closed) ∧
    channels closed !! channel_id = None ∧
    (∀ p rest,
       message_queue self = p :: rest → receiver_id p = channel_id →
       _send_message_queue closed
       = (Raise (KeyError channel_id),
          mkSupervisor (store closed) (agents closed) (agents_by_registration_id closed)
            (channels closed) (onboarding_packets closed) rest (trace closed))) ∧
    (∀ agent_info info,
       store self !! agent_info = Some info → used_channel_id info = channel_id →
       _send_status_update agent_info closed = (Raise (KeyError channel_id), closed) ∧
       _try_send_agent_messages agent_info closed = (Raise (KeyError channel_id), closed)).
Proof.
  intros [ci Hci]. eexists. rewrite close_channel_run Hci.
  split; [done|]. simpl. split; [by rewrite lookup_delete_eq|]. split.
  - intros p rest Hq Hp. unfold _send_message_queue. unfold_ops. simpl.
    unfold_ops. simpl. rewrite Hq. simpl. rewrite Hp lookup_delete_eq. done.
  - intros agent_info info Hs Hc. split.
    + unfold _send_status_update. unfold_ops. simpl. rewrite Hs. simpl.
      rewrite Hc lookup_delete_eq. done.
    + unfold _try_send_agent_messages. unfold_ops. simpl. rewrite Hs. simpl.
      rewrite Hc lookup_delete_eq. done.
Qed.

End after_closing.

(** ** In the small world *)

Lemma shutdown_job_closes_once_witness :
  let self := Demo.fresh_supervisor false "run" in
  (shutdown_job ["up"; "down"] self).1 = Return () ∧
  channels (shutdown_job ["up"; "down"] self).2 = ∅ ∧
  (shutdown_job ["up"; "down"] (shutdown_job ["up"; "down"] self).2).1
  = Raise (KeyError "up").
Proof.
  destruct (shutdown_job_closes_once ["up"; "down"] (Demo.fresh_supervisor false "run"))
    as (chans & _ & _ & _).
  - apply (bool_decide_unpack _). vm_compute. exact I.
  - repeat constructor; eexists; reflexivity.
  - split_and!; reflexivity.
Defined.

(** The id ["up"] listed twice: the second lookup fails, and ["down"] is
    never closed. *)
Lemma shutdown_job_stops_half_way_witness :
  let result := shutdown_job ["up"; "up"; "down"] (Demo.fresh_supervisor false "run") in
  result.1 = Raise (KeyError "up") ∧
  channels result.2 = {[ "down" := Demo.channel "down" false "run" ]}.
Proof.
  destruct (shutdown_job_stops_half_way ["up"] "up" ["down"]
              (Demo.fresh_supervisor false "run"))
    as (chans & _ & _).
  - apply (bool_decide_unpack _). vm_compute. exact I.
  - repeat constructor; eexists; reflexivity.
  - left. apply list_elem_of_here.
  - split; reflexivity.
Defined.

(** The reply queued for ["down"] in [queued_supervisor] comes second: the
    first drain after the channel is closed sends the first reply and
    raises on the second. *)
Lemma closed_channel_raises_witness :
  ∃ closed,
    close_channel "up" queued_supervisor = (Return (), closed) ∧
    channels closed !! "up" = None ∧
    @_send_message_queue Demo.world closed
    = (Raise (KeyError "up"),
       mkSupervisor (store closed) (agents closed) (agents_by_registration_id closed)
         (channels closed) (onboarding_packets closed)
         [Demo.observation "down" "second"; Demo.observation "up" "third"]
         (trace closed)) ∧
    @_send_status_update Demo.states Demo.world 0 closed = (Raise (KeyError "up"), closed).
Proof.
  destruct (@closed_channel_raises Demo.states Demo.world "up" queued_supervisor)
    as (closed & Hclose & Hgone & Hqueue & Hagent).
  - eexists. reflexivity.
  - exists closed. split_and!; [done|done| |].
    + exact (Hqueue _ _ eq_refl eq_refl).
    + exact (proj1 (Hagent 0 _ eq_refl eq_refl)).
Defined.

End ClosingFacts.
